(** * The 902.gr crawler and the batch labelling helper

    A shallow embedding of [scrapper_902gr.py] (title normalisation, the
    positional heuristics over the flattened text of an article, the
    pagination loop, the entry point, the command line) and of the
    functions of [codex_labeler.py], with the properties the specification
    states about them and further properties of the code. *)

From Stdlib Require Import ZArith NArith List String Ascii Lia.
From stdpp Require Import base option list gmap sets sorting pretty.
Import ListNotations.

Local Open Scope N_scope.
Local Open Scope list_scope.

(** ** Python strings

    A Python [str] is a sequence of Unicode code points.  Literals of the
    source are written as they are in the source and decoded from UTF-8. *)

Definition char := N.
Definition str := list char.

Fixpoint utf8_decode (bs : list N) : str :=
  match bs with
  | [] => []
  | b0 :: r0 =>
    if b0 <? 0x80 then b0 :: utf8_decode r0
    else match r0 with
    | [] => []
    | b1 :: r1 =>
      if b0 <? 0xE0 then ((b0 - 0xC0) * 64 + (b1 - 0x80)) :: utf8_decode r1
      else match r1 with
      | [] => []
      | b2 :: r2 =>
        if b0 <? 0xF0
        then ((b0 - 0xE0) * 4096 + (b1 - 0x80) * 64 + (b2 - 0x80)) :: utf8_decode r2
        else match r2 with
        | [] => []
        | b3 :: r3 =>
          ((b0 - 0xF0) * 262144 + (b1 - 0x80) * 4096 + (b2 - 0x80) * 64 + (b3 - 0x80))
            :: utf8_decode r3
        end
      end
    end
  end.

Definition u (s : string) : str :=
  utf8_decode (map N_of_ascii (list_ascii_of_string s)).

(** What the Unicode character database and [urllib] contribute.  The
    ASCII range is fixed below; a [Platform] says how the interpreter
    classifies the code points above it, and how [urljoin] resolves a
    reference against a base. *)

Class Platform := {
  uc_isspace : char -> bool;
  uc_decimal : char -> option N;
  uc_isalnum : char -> bool;
  uc_isdigit : char -> bool;
  uc_upper : char -> str;
  urljoin : str -> str -> str;
}.

(** ** Exceptions, times, documents and effects *)

Inductive exn :=
| ValueError (msg : string)
| TypeError
| KeyError
| OverflowError
| FileNotFoundError
| RequestException
| OSError (errno : Z)
| UnicodeEncodeError.

Record datetime := mk_datetime {
  year : Z; month : Z; day : Z;
  hour : Z; minute : Z; second : Z; microsecond : Z
}.

(** A [Soup] is a parsed document as the scraper observes it: the values
    of the selections it makes. *)

Record Soup := {
  (* [soup.title.string if soup.title else None] *)
  title_string : option str;
  (* [(soup.select_one("main") or soup).stripped_strings] *)
  stripped_strings : list str;
  (* for each anchor of [main.select('a[href*="/taxonomy/term/"], ...')]:
     [a.get_text(" ", strip=True)] and [a.get_text(strip=True)] *)
  tag_links : list (str * str);
  (* [a["href"]] for each anchor of [soup.select('a[href*="/eidisi/ergatiki-taxi/"]')] *)
  article_hrefs : list str;
}.

Record Article := {
  url : str;
  title : option str;
  published_at : str;
  tags : list str;
  body : option str;
}.

(** The call site of a request: a listing page or an article page. *)
Inductive kind := Listing | ArticlePage.

(** What a run does to the world, in order.  [WriteText] is a file
    written whole; [CutOff] is a file that was opened for writing and is
    left without its text. *)
Inductive event :=
| NewSession
| SeenAdd (u : str)
| Get (k : kind) (u : str)
| WriteText (path : str) (content : list Article)
| CutOff (path : str).

Definition trace := list event.

(** The site: what a GET of a URL returns after the events so far, or
    [None] when the request fails (transport failure or error status). *)
Definition Web := trace -> str -> option Soup.

(** What [open(path, "w")] can raise: an [OSError] with its errno, the
    [ValueError] of a path with a null character, the [UnicodeEncodeError]
    of a path the file system encoding does not have. *)
Inductive open_error :=
| Errno (errno : Z)
| NullByte
| BadName.

(** How the writing of a file fails: at [open], the file left as it was,
    or with an [OSError] after it, while the text is written or the file
    closed. *)
Inductive refusal :=
| OpenFails (e : open_error)
| WriteFails (errno : Z).

(** The disk: how writing the file at a path fails, [None] when it does
    not. *)
Definition Disk := str -> option refusal.

(** The subclass of [OSError] that is raised for an errno: ENOENT is
    [FileNotFoundError]; the others stand under [OSError] with their errno. *)
Definition os_error (errno : Z) : exn :=
  if (errno =? 2)%Z then FileNotFoundError else OSError errno.

Definition open_exn (e : open_error) : exn :=
  match e with
  | Errno errno => os_error errno
  | NullByte => ValueError "embedded null byte"
  | BadName => UnicodeEncodeError
  end.

Inductive outcome (A : Type) :=
| Done (a : A) (t : trace)
| Raised (e : exn) (t : trace)
| Starved.
Arguments Done {A} a t.
Arguments Raised {A} e t.
Arguments Starved {A}.

Definition M (A : Type) := trace -> outcome A.

Definition ret {A} (a : A) : M A := fun t => Done a t.
Definition raise {A} (e : exn) : M A := fun t => Raised e t.
Definition bind {A B} (c : M A) (k : A -> M B) : M B :=
  fun t => match c t with
           | Done a t' => k a t'
           | Raised e t' => Raised e t'
           | Starved => Starved
           end.
Definition emit (e : event) : M unit := fun t => Done tt (t ++ [e]).
Definition lift {A} (r : exn + A) : M A :=
  match r with inl e => raise e | inr a => ret a end.

Notation "'do' x <- c ; k" := (bind c (fun x => k))
  (at level 10, x name, c at level 100, k at level 200).
Notation "'do' ' pat <- c ; k" := (bind c (fun x => match x with pat => k end))
  (at level 10, pat pattern, c at level 100, k at level 200).
Notation "'run' c ; k" := (bind c (fun _ => k))
  (at level 10, c at level 100, k at level 200).

(** ** String operations *)

Section Model.
Context `{Platform}.

Variable web : Web.

Definition between (lo hi c : N) : bool := (lo <=? c) && (c <=? hi).

(** [str.isspace] of one character, which is also [\s] of [re]. *)
Definition isspace (c : char) : bool :=
  if c <? 128 then between 9 13 c || between 28 32 c else uc_isspace c.

(** The decimal value of a character of category Nd; [\d] of [re]. *)
Definition decimal (c : char) : option N :=
  if c <? 128 then (if between 48 57 c then Some (c - 48) else None)
  else uc_decimal c.

Definition isdecimal (c : char) : bool :=
  match decimal c with Some _ => true | None => false end.

(** [\w] of [re] on a [str] pattern: alphanumeric or the underscore. *)
Definition isword (c : char) : bool :=
  if c <? 128
  then between 48 57 c || between 65 90 c || between 97 122 c || (c =? 95)
  else uc_isalnum c.

Definition isdigit_char (c : char) : bool :=
  if c <? 128 then between 48 57 c else uc_isdigit c.

(** [str.isdigit]: every character is a digit and there is at least one. *)
Definition isdigit (s : str) : bool :=
  match s with [] => false | _ => forallb isdigit_char s end.

Definition upper_char (c : char) : str :=
  if c <? 128 then [if between 97 122 c then c - 32 else c] else uc_upper c.

Definition upper (s : str) : str := flat_map upper_char s.

Fixpoint lstrip (s : str) : str :=
  match s with
  | c :: s' => if isspace c then lstrip s' else s
  | [] => []
  end.

Definition rstrip (s : str) : str := rev (lstrip (rev s)).

Definition strip (s : str) : str := rstrip (lstrip s).

Definition str_eqb (a b : str) : bool := bool_decide (a = b).

Fixpoint startswith (s p : str) : bool :=
  match p, s with
  | [], _ => true
  | c :: p', d :: s' => (c =? d) && startswith s' p'
  | _ :: _, [] => false
  end.

Definition endswith (s p : str) : bool := startswith (rev s) (rev p).

(** [sep.join(l)] *)
Fixpoint join (sep : str) (l : list str) : str :=
  match l with
  | [] => []
  | [x] => x
  | x :: l' => x ++ sep ++ join sep l'
  end.

(** [x in l] for a list or a set of strings. *)
Definition contains (l : list str) (x : str) : bool := bool_decide (x ∈ l).

(** [l.index(x)], used by the source only after [x in l]. *)
Fixpoint index (l : list str) (x : str) : nat :=
  match l with
  | [] => 0
  | y :: l' => if str_eqb y x then 0%nat else S (index l' x)
  end.

(** [l[a:b]] for non-negative bounds. *)
Definition slice {A} (l : list A) (a b : nat) : list A := take (b - a) (drop a l).

(** ** Title normalisation *)

Definition SITE_SUFFIX : str := u"| 902.gr".

Definition normalize_title (s : option str) : option str :=
  match s with
  | None => None
  | Some [] => None
  | Some s =>
    let s := strip s in
    Some (if endswith s SITE_SUFFIX
          then strip (take (length s - length SITE_SUFFIX) s)
          else s)
  end.


(** ** Regular expressions

    The fragment of [re] that [DT_RE] and the patterns of [strptime] are
    written in, matched the way [re] does it: leftmost, alternatives in
    order, greedy repetition, with backtracking. *)

Inductive regex :=
| Eps
| Lit (c : char)                  (* one literal character *)
| Range (lo hi : char)            (* [lo-hi] *)
| Digit                           (* \d *)
| Space                           (* \s *)
| Spaces                          (* \s*, greedy *)
| Boundary                        (* \b *)
| Cat (r1 r2 : regex)
| Alt (r1 r2 : regex)
| Group (name : string) (r : regex).

Definition groups := list (string * str).

Definition one (p : char -> bool) (s : str) {R} (k : option char -> str -> option R) : option R :=
  match s with
  | c :: s' => if p c then k (Some c) s' else None
  | [] => None
  end.

Fixpoint many (p : char -> bool) (prev : option char) (s : str)
    {R} (k : option char -> str -> option R) : option R :=
  match s with
  | c :: s' =>
    if p c
    then match many p (Some c) s' k with Some r => Some r | None => k prev s end
    else k prev s
  | [] => k prev s
  end.

Definition is_word (c : option char) : bool :=
  match c with Some c => isword c | None => false end.

Fixpoint rmatch (r : regex) (prev : option char) (s : str) (g : groups)
    {R} (k : option char -> str -> groups -> option R) : option R :=
  match r with
  | Eps => k prev s g
  | Lit c => one (N.eqb c) s (fun p s' => k p s' g)
  | Range lo hi => one (between lo hi) s (fun p s' => k p s' g)
  | Digit => one isdecimal s (fun p s' => k p s' g)
  | Space => one isspace s (fun p s' => k p s' g)
  | Spaces => many isspace prev s (fun p s' => k p s' g)
  | Boundary => if xorb (is_word prev) (is_word (head s)) then k prev s g else None
  | Cat r1 r2 => rmatch r1 prev s g (fun p s' g' => rmatch r2 p s' g' k)
  | Alt r1 r2 =>
    match rmatch r1 prev s g k with
    | Some x => Some x
    | None => rmatch r2 prev s g k
    end
  | Group name r1 =>
    rmatch r1 prev s g
      (fun p s' g' => k p s' ((name, take (length s - length s') s) :: g'))
  end.

(** [pattern.match(s)]: the groups of a match at the start of [s], and
    what is left of [s] after it. *)
Definition re_match (r : regex) (s : str) : option (groups * str) :=
  rmatch r None s [] (fun _ s' g => Some (g, s')).

Fixpoint search_from (r : regex) (prev : option char) (s : str) : option groups :=
  match rmatch r prev s [] (fun _ _ g => Some g) with
  | Some g => Some g
  | None =>
    match s with
    | [] => None
    | c :: s' => search_from r (Some c) s'
    end
  end.

(** [pattern.search(s)] *)
Definition re_search (r : regex) (s : str) : option groups := search_from r None s.

Fixpoint group_opt (g : groups) (name : string) : option str :=
  match g with
  | [] => None
  | (n, v) :: g' => if String.eqb n name then Some v else group_opt g' name
  end.

(** [m.group(name)] of a group that took part in the match. *)
Definition group (g : groups) (name : string) : str := default [] (group_opt g name).

Definition cat (l : list regex) : regex := foldr Cat Eps l.

Fixpoint alt (l : list regex) : regex :=
  match l with
  | [] => Eps
  | [r] => r
  | r :: l' => Alt r (alt l')
  end.

Definition ch (a : ascii) : char := N_of_ascii a.

(** [DT_RE = re.compile(r"\b(\d{2}/\d{2}/\d{4})\s*-\s*(\d{2}:\d{2})\b")] *)
Definition DT_RE : regex :=
  cat [ Boundary;
        Group "1" (cat [Digit; Digit; Lit (ch "/"); Digit; Digit; Lit (ch "/");
                        Digit; Digit; Digit; Digit]);
        Spaces; Lit (ch "-"); Spaces;
        Group "2" (cat [Digit; Digit; Lit (ch ":"); Digit; Digit]);
        Boundary ].

(** ** Dates and times *)

Definition is_leap (y : Z) : bool :=
  ((y mod 4 =? 0) && (negb (y mod 100 =? 0) || (y mod 400 =? 0)))%Z.

Definition days_in_month (y m : Z) : Z :=
  (if m =? 2 then (if is_leap y then 29 else 28)
   else if (m =? 4) || (m =? 6) || (m =? 9) || (m =? 11) then 30 else 31)%Z.

(** The range checks of the [datetime] constructor. *)
Definition valid_datetime (d : datetime) : bool :=
  ((1 <=? year d) && (year d <=? 9999) && (1 <=? month d) && (month d <=? 12)
   && (1 <=? day d) && (day d <=? days_in_month (year d) (month d))
   && (0 <=? hour d) && (hour d <=? 23) && (0 <=? minute d) && (minute d <=? 59)
   && (0 <=? second d) && (second d <=? 59)
   && (0 <=? microsecond d) && (microsecond d <=? 999999))%Z.

Definition fields (d : datetime) : list Z :=
  [year d; month d; day d; hour d; minute d; second d; microsecond d].

Fixpoint lex_ltb (a b : list Z) : bool :=
  match a, b with
  | x :: a', y :: b' => (x <? y)%Z || ((x =? y)%Z && lex_ltb a' b')
  | _, _ => false
  end.

(** [a < b] and [a >= b] on naive datetimes. *)
Definition dt_ltb (a b : datetime) : bool := lex_ltb (fields a) (fields b).
Definition dt_geb (a b : datetime) : bool := negb (dt_ltb a b).

(** [min(a, b)]: the first of the smallest. *)
Definition dt_min (a b : datetime) : datetime := if dt_ltb b a then b else a.

(** [int(s)] on the text of a group: surrounding whitespace is ignored,
    every remaining character is a decimal digit. *)
Definition int_digits (s : str) : option Z :=
  foldl (fun acc c => match acc, decimal c with
                      | Some n, Some d => Some (10 * n + Z.of_N d)%Z
                      | _, _ => None
                      end) (Some 0%Z) s.

Definition int (s : str) : option Z :=
  match strip s with [] => None | s' => int_digits s' end.

(** The directives of [_strptime.TimeRE]. *)
Definition re_d : regex :=
  Group "d" (alt [ Cat (Lit (ch "3")) (Range (ch "0") (ch "1"));
                   Cat (Range (ch "1") (ch "2")) Digit;
                   Cat (Lit (ch "0")) (Range (ch "1") (ch "9"));
                   Range (ch "1") (ch "9");
                   Cat (Lit (ch " ")) (Range (ch "1") (ch "9")) ]).
Definition re_m : regex :=
  Group "m" (alt [ Cat (Lit (ch "1")) (Range (ch "0") (ch "2"));
                   Cat (Lit (ch "0")) (Range (ch "1") (ch "9"));
                   Range (ch "1") (ch "9") ]).
Definition re_Y : regex := Group "Y" (cat [Digit; Digit; Digit; Digit]).
Definition re_H : regex :=
  Group "H" (alt [ Cat (Lit (ch "2")) (Range (ch "0") (ch "3"));
                   Cat (Range (ch "0") (ch "1")) Digit;
                   Digit ]).
Definition re_M : regex :=
  Group "M" (alt [ Cat (Range (ch "0") (ch "5")) Digit; Digit ]).

(** [\s+], which [strptime] puts where the format has white space. *)
Definition re_spaces1 : regex := Cat Space Spaces.

(** The patterns [strptime] compiles for ["%d/%m/%Y %H:%M"] and ["%Y-%m-%d"]. *)
Definition FMT_DMY_HM : regex :=
  cat [re_d; Lit (ch "/"); re_m; Lit (ch "/"); re_Y; re_spaces1; re_H; Lit (ch ":"); re_M].
Definition FMT_YMD : regex :=
  cat [re_Y; Lit (ch "-"); re_m; Lit (ch "-"); re_d].

Definition field (g : groups) (name : string) (dflt : Z) : option Z :=
  match group_opt g name with
  | None => Some dflt
  | Some v => int v
  end.

(** [datetime.strptime(s, fmt)]: the pattern must match at the start,
    nothing may be left over, and the fields must name a real date. *)
Definition strptime (fmt : regex) (s : str) : exn + datetime :=
  match re_match fmt s with
  | None => inl (ValueError "time data does not match format")
  | Some (g, _ :: _) => inl (ValueError "unconverted data remains")
  | Some (g, []) =>
    match field g "Y" 1900, field g "m" 1, field g "d" 1, field g "H" 0, field g "M" 0 with
    | Some y, Some m, Some d, Some h, Some mi =>
      let dt := mk_datetime y m d h mi 0 0 in
      if valid_datetime dt then inr dt else inl (ValueError "date value out of range")
    | _, _, _, _, _ => inl (ValueError "invalid literal for int()")
    end
  end.

Definition digit_char (n : Z) : char := 48 + Z.to_N n.
Definition fmt2 (n : Z) : str := [digit_char (n / 10); digit_char (n mod 10)].
Definition fmt4 (n : Z) : str :=
  [digit_char (n / 1000); digit_char (n / 100 mod 10);
   digit_char (n / 10 mod 10); digit_char (n mod 10)].

(** [d.isoformat(timespec="minutes")] of a naive datetime. *)
Definition isoformat_minutes (d : datetime) : str :=
  fmt4 (year d) ++ [ch "-"] ++ fmt2 (month d) ++ [ch "-"] ++ fmt2 (day d)
  ++ [ch "T"] ++ fmt2 (hour d) ++ [ch ":"] ++ fmt2 (minute d).

Definition ascii_digit (c : char) : option Z :=
  if between 48 57 c then Some (Z.of_N (c - 48)) else None.

Definition num2 (a b : char) : option Z :=
  match ascii_digit a, ascii_digit b with
  | Some x, Some y => Some (10 * x + y)%Z
  | _, _ => None
  end.

Definition num4 (a b c d : char) : option Z :=
  match num2 a b, num2 c d with
  | Some x, Some y => Some (100 * x + y)%Z
  | _, _ => None
  end.

(** [datetime.fromisoformat(s)] on the sixteen characters
    [YYYY-MM-DD?HH:MM] that [isoformat(timespec="minutes")] writes (the
    separator may be any character); other texts are not modelled and
    are reported like a malformed one. *)
Definition fromisoformat (s : str) : exn + datetime :=
  match s with
  | [y1; y2; y3; y4; s1; m1; m2; s2; d1; d2; _; h1; h2; s3; n1; n2] =>
    match num4 y1 y2 y3 y4, num2 m1 m2, num2 d1 d2, num2 h1 h2, num2 n1 n2 with
    | Some y, Some m, Some d, Some h, Some mi =>
      let dt := mk_datetime y m d h mi 0 0 in
      if (s1 =? ch "-") && (s2 =? ch "-") && (s3 =? ch ":") && valid_datetime dt
      then inr dt
      else inl (ValueError "Invalid isoformat string")
    | _, _, _, _, _ => inl (ValueError "Invalid isoformat string")
    end
  | _ => inl (ValueError "Invalid isoformat string")
  end.

(** Proleptic Gregorian ordinals, as [datetime.py] computes them. *)
Definition days_before_year (y : Z) : Z :=
  (let y := y - 1 in y * 365 + y / 4 - y / 100 + y / 400)%Z.

Definition DAYS_BEFORE_MONTH : list Z :=
  [-1; 0; 31; 59; 90; 120; 151; 181; 212; 243; 273; 304; 334]%Z.

Definition days_before_month (y m : Z) : Z :=
  (nth (Z.to_nat m) DAYS_BEFORE_MONTH 0 + (if (2 <? m) && is_leap y then 1 else 0))%Z.

Definition toordinal (d : datetime) : Z :=
  (days_before_year (year d) + days_before_month (year d) (month d) + day d)%Z.

Definition ord2ymd (n : Z) : Z * Z * Z :=
  (let n := n - 1 in
   let n400 := n / 146097 in let n := n mod 146097 in
   let n100 := n / 36524 in let n := n mod 36524 in
   let n4 := n / 1461 in let n := n mod 1461 in
   let n1 := n / 365 in let n := n mod 365 in
   let y := n400 * 400 + 1 + n100 * 100 + n4 * 4 + n1 in
   if (n1 =? 4) || (n100 =? 4) then (y - 1, 12, 31)
   else
     let leapyear := (n1 =? 3) && (negb (n4 =? 24) || (n100 =? 3)) in
     let m := (n + 50) / 32 in
     let preceding := nth (Z.to_nat m) DAYS_BEFORE_MONTH 0
                      + (if (2 <? m) && leapyear then 1 else 0) in
     if n <? preceding
     then let m := m - 1 in
          let preceding := preceding - (if m =? 2 then (if leapyear then 29 else 28)
                                        else days_in_month 1 m) in
          (y, m, n - preceding + 1)
     else (y, m, n - preceding + 1))%Z.

(** [d - timedelta(days=n)] *)
Definition minus_days (d : datetime) (n : Z) : exn + datetime :=
  (if 999999999 <? Z.abs n then inl OverflowError
   else
     let o := toordinal d - n in
     if (0 <? o) && (o <=? 3652059)
     then let '(y, m, dd) := ord2ymd o in
          inr (mk_datetime y m dd (hour d) (minute d) (second d) (microsecond d))
     else inl OverflowError)%Z.

(** [fetch(sess, url)]: the request is issued, then it fails or yields
    the parsed document. *)
Definition fetch (k : kind) (u : str) : M Soup :=
  fun t => match web t u with
           | Some soup => Done soup (t ++ [Get k u])
           | None => Raised RequestException (t ++ [Get k u])
           end.

(** ** The article extractor *)

(** ["\n"] *)
Definition LF : str := [10].

Definition STOP_MARKERS : list str :=
  [u"Δες ακόμα"; u"ΡΟΗ ΕΙΔΗΣΕΩΝ"; u"Αναζήτηση"; u"ΠΕΡΙΣΣΟΤΕΡΑ"].

Definition NOISE_STRINGS : list str :=
  [u"Facebook logo"; u"Twitter logo"; u"Print Mail logo"; u"Print HTML logo";
   u"Print PDF logo"].

(** Truth value of [title and title in strings]. *)
Definition located (strings : list str) (title : option str) : option str :=
  match title with
  | Some (c :: t) => if contains strings (c :: t) then Some (c :: t) else None
  | _ => None
  end.

Definition to_datetime (g : groups) : exn + datetime :=
  strptime FMT_DMY_HM (group g "1" ++ u" " ++ group g "2").

(** [for s in l: m = DT_RE.search(s); if m: return strptime(...)]:
    the value returned from inside the loop, or [None] when the loop ends. *)
Fixpoint first_stamp (l : list str) : option (exn + datetime) :=
  match l with
  | [] => None
  | s :: l' =>
    match re_search DT_RE s with
    | Some g => Some (to_datetime g)
    | None => first_stamp l'
    end
  end.

Definition pick_published_at (strings : list str) (title : option str)
    : exn + option datetime :=
  let in_window :=
    match located strings title with
    | Some t =>
      let i := index strings t in
      first_stamp (slice strings (Nat.max 0 (i - 15)) (Nat.min (length strings) (i + 15)))
    | None => None
    end in
  match in_window with
  | Some r => sum_map id Some r
  | None =>
    match first_stamp strings with
    | Some r => sum_map id Some r
    | None => inr None
    end
  end.

Fixpoint body_loop (l : list str) (out : list str) : list str :=
  match l with
  | [] => out
  | s :: l' =>
    if contains STOP_MARKERS s then out
    else if contains NOISE_STRINGS s then body_loop l' out
    else body_loop l' (out ++ [s])
  end.

Definition extract_body (strings : list str) (title : option str) : option str :=
  match located strings title with
  | None => None
  | Some t =>
    let i := index strings t in
    let out := body_loop (drop (i + 1) strings) [] in
    match strip (join LF out) with
    | [] => None
    | b => Some b
    end
  end.

(** [list(dict.fromkeys(l))]: the first occurrence of each, in order. *)
Fixpoint fromkeys (l : list str) (acc : list str) : list str :=
  match l with
  | [] => acc
  | x :: l' => fromkeys l' (if contains acc x then acc else acc ++ [x])
  end.

Definition non_empty (s : str) : bool :=
  match s with [] => false | _ => true end.

Definition tag_like (s : str) : bool :=
  (2 <=? length s)%nat && (length s <=? 50)%nat && str_eqb (upper s) s && negb (isdigit s).

Fixpoint tag_loop (l : list str) : list str :=
  match l with
  | [] => []
  | s :: l' =>
    if contains STOP_MARKERS s || bool_decide (is_Some (re_search DT_RE s)) then tag_loop l'
    else if tag_like s then [s]
    else tag_loop l'
  end.

(** The texts of the tag links, without repetition. *)
Definition link_tags (soup : Soup) : list str :=
  let tags := omap (fun a => if non_empty (snd a) then Some (fst a) else None) (tag_links soup) in
  fromkeys tags [].

Definition extract_tags (soup : Soup) (strings : list str) (title : option str) : list str :=
  match link_tags soup with
  | (_ :: _) as tags => tags
  | [] =>
    match located strings title with
    | Some t =>
      let i := index strings t in
      tag_loop (rev (slice strings (Nat.max 0 (i - 10)) i))
    | None => []
    end
  end.

(** [[s.strip() for s in main.stripped_strings if s and s.strip()]] *)
Definition flatten (soup : Soup) : list str :=
  omap (fun s => if non_empty s && non_empty (strip s) then Some (strip s) else None)
       (stripped_strings soup).

Definition parse_article (u : str) : M (option Article) :=
  do soup <- fetch ArticlePage u;
  let strings := flatten soup in
  let title := normalize_title (title_string soup) in
  do published_at <- lift (pick_published_at strings title);
  match published_at with
  | None => ret None
  | Some dt =>
    ret (Some {| url := u;
                 title := title;
                 published_at := isoformat_minutes dt;
                 tags := extract_tags soup strings title;
                 body := extract_body strings title |})
  end.

(** ** The crawl controller *)

Definition BASE : str := u"https://www.902.gr".
Definition SECTION : str := u"/ergatiki-taxi".

Definition list_url (page : Z) : str :=
  if (page =? 0)%Z then BASE ++ SECTION
  else BASE ++ SECTION ++ u"?page=" ++ u (pretty page).

(** The links of a listing page, as a set of absolute URLs. *)
Definition page_links (soup : Soup) : gset str :=
  list_to_set (map (fun href => if startswith href (u"http") then href else urljoin BASE href)
                   (article_hrefs soup)).

Fixpoint str_leb (a b : str) : bool :=
  match a, b with
  | [], _ => true
  | _ :: _, [] => false
  | x :: a', y :: b' => (x <? y) || ((x =? y) && str_leb a' b')
  end.

(** [sorted(l)] on strings. *)
Definition sorted (l : list str) : list str := merge_sort (fun a b => str_leb a b) l.

(** The state the pagination loop carries through one page. *)
Record PageState := {
  st_seen : gset str;
  st_articles : list Article;
  st_oldest : option datetime;
}.

(** [cutoff is None or dt >= cutoff] *)
Definition in_range (cutoff : option datetime) (dt : datetime) : bool :=
  match cutoff with
  | None => true
  | Some c => dt_geb dt c
  end.

(** The body of [for url in sorted(new_links)].  In verbose mode the
    progress line slices the title, which a missing title does not allow.
    The pauses between requests leave no mark on the state. *)
Definition visit (cutoff : option datetime) (verbose : bool) (st : PageState) (u : str)
    : M PageState :=
  run emit (SeenAdd u);
  let seen := {[u]} ∪ st_seen st in
  do item <- parse_article u;
  match item with
  | None => ret {| st_seen := seen; st_articles := st_articles st; st_oldest := st_oldest st |}
  | Some item =>
    do dt <- lift (fromisoformat (published_at item));
    let oldest_on_page := match st_oldest st with
                  | None => dt
                  | Some o => dt_min o dt
                  end in
    if in_range cutoff dt
    then
      match verbose, title item with
      | true, None => raise TypeError
      | _, _ => ret {| st_seen := seen; st_articles := st_articles st ++ [item];
                       st_oldest := Some oldest_on_page |}
      end
    else ret {| st_seen := seen; st_articles := st_articles st;
                st_oldest := Some oldest_on_page |}
  end.

Fixpoint visit_all (cutoff : option datetime) (verbose : bool) (st : PageState)
    (urls : list str) : M PageState :=
  match urls with
  | [] => ret st
  | u :: urls' => do st' <- visit cutoff verbose st u; visit_all cutoff verbose st' urls'
  end.

(** [cutoff and oldest_on_page and oldest_on_page < cutoff] *)
Definition crossed (cutoff oldest : option datetime) : bool :=
  match cutoff, oldest with
  | Some c, Some o => dt_ltb o c
  | _, _ => false
  end.

(** [max_pages is not None and page >= max_pages] *)
Definition page_limit_reached (max_pages : option Z) (page : Z) : bool :=
  match max_pages with
  | Some m => (m <=? page)%Z
  | None => false
  end.

(** [u for u in links if u not in seen] *)
Definition new_links (links seen : gset str) : list str :=
  filter (fun u => u ∉ seen) (elements links).

(** The [while True] loop of [scrape_articles]; [fuel] bounds the number
    of iterations. *)
Fixpoint scrape_loop (fuel : nat) (cutoff : option datetime) (max_pages : option Z)
    (verbose : bool) (seen : gset str) (articles : list Article) (page : Z)
    : M (list Article) :=
  match fuel with
  | O => fun _ => Starved
  | S fuel =>
    if page_limit_reached max_pages page then ret articles
    else
      do soup <- fetch Listing (list_url page);
      match new_links (page_links soup) seen with
      | [] => ret articles
      | new =>
        do st <- visit_all cutoff verbose
                   {| st_seen := seen; st_articles := articles; st_oldest := None |}
                   (sorted new);
        if crossed cutoff (st_oldest st) then ret (st_articles st)
        else scrape_loop fuel cutoff max_pages verbose
               (st_seen st) (st_articles st) (page + 1)%Z
      end
  end.

Definition scrape_articles (fuel : nat) (cutoff : option datetime) (max_pages : option Z)
    (verbose : bool) : M (list Article) :=
  run emit NewSession;
  scrape_loop fuel cutoff max_pages verbose ∅ [] 0%Z.

(** ** Writing the records

    The UTF-8 codec has no encoding for a surrogate (U+D800 to U+DFFF),
    which a [str] can hold. *)
Definition surrogate (c : char) : bool := between 55296 57343 c.

Definition encodable (s : str) : bool := forallb (fun c => negb (surrogate c)) s.

(** The text [json.dumps(articles, ensure_ascii=False, indent=2)] can be
    encoded: with [ensure_ascii=False] the characters of every string of
    the records are in the text as they are. *)
Definition dumps_encodable (articles : list Article) : bool :=
  forallb (fun a => encodable (url a)
                    && from_option encodable true (title a)
                    && encodable (published_at a)
                    && forallb encodable (tags a)
                    && from_option encodable true (body a)) articles.

Variable disk : Disk.

(** [Path(path).write_text(json.dumps(articles, ...), encoding="utf-8")]:
    the file is opened for writing, the text is encoded, whole, and
    written.  A failure after [open] leaves the file cut off. *)
Definition write_text (path : str) (articles : list Article) : M unit :=
  match disk path with
  | Some (OpenFails e) => raise (open_exn e)
  | answer =>
    if dumps_encodable articles then
      match answer with
      | Some (WriteFails errno) => run emit (CutOff path); raise (os_error errno)
      | _ => emit (WriteText path articles)
      end
    else run emit (CutOff path); raise UnicodeEncodeError
  end.

(** ** The entry point

    [now] is the reading of the clock; [since] is a string or a datetime. *)
Definition fetch_articles (fuel : nat) (now : datetime)
    (days : option Z) (since : option (str + datetime)) (pages : option Z)
    (output : option str) (verbose : bool) : M (list Article) :=
  match days, since, pages with
  | None, None, None =>
    raise (ValueError "Must specify at least one of: days, since, or pages")
  | _, _, _ =>
    do cutoff <- match since, days with
                 | Some (inl s), _ => do d <- lift (strptime FMT_YMD s); ret (Some d)
                 | Some (inr d), _ => ret (Some d)
                 | None, Some n => do d <- lift (minus_days now n); ret (Some d)
                 | None, None => ret None
                 end;
    do articles <- scrape_articles fuel cutoff pages verbose;
    run match output with
        | Some (c :: path) => write_text (c :: path) articles
        | _ => ret tt
        end;
    ret articles
  end.

(** ** The command line

    [main], on the arguments as [argparse] hands them over. *)

Record Args := {
  args_days : option Z;
  args_since : option str;
  args_pages : option Z;
  args_output : option str;
  args_verbose : bool;
}.

(** [not x] for an optional integer and for an optional string. *)
Definition falsy_int (x : option Z) : bool :=
  match x with
  | None => true
  | Some n => (n =? 0)%Z
  end.

Definition falsy_str (x : option str) : bool :=
  match x with
  | Some (_ :: _) => false
  | _ => true
  end.

(** How [main] ends when nothing is raised: [parser.error] leaves with a
    usage message, otherwise the records are printed or not. *)
Inductive exit :=
| UsageError
| Finished (printed : option (list Article)).

Definition main (fuel : nat) (now : datetime) (args : Args) : M exit :=
  if falsy_int (args_days args) && falsy_str (args_since args) && falsy_int (args_pages args)
  then ret UsageError
  else
    do articles <- fetch_articles fuel now (args_days args) (inl <$> args_since args)
                     (args_pages args) (args_output args) (args_verbose args);
    ret (Finished (if falsy_str (args_output args) then Some articles else None)).

End Model.

(** ** The batch labelling helper ([codex_labeler.py]) *)

Module CodexLabeler.

#[warnings="-register-all"]
Inductive json :=
| JNull
| JBool (b : bool)
| JNum (n : Z)
| JStr (s : str)
| JArr (l : list json)
| JObj (kv : list (str * json)).

Definition dict := list (str * json).

(** The three files [generate_batch] reads, parsed; [None] when the file
    does not exist.  The articles file holds an array of objects and the
    labels file an object, as the tools write them. *)
Record Files := {
  ARTICLES_FILE : option (list dict);
  LABELS_FILE : option dict;
  SCHEMA_FILE : option json;
}.

Definition load_json {A} (file : option A) : exn + A :=
  match file with
  | Some v => inr v
  | None => inl FileNotFoundError
  end.

Fixpoint lookup_key (d : dict) (k : str) : option json :=
  match d with
  | [] => None
  | (k', v) :: d' => if bool_decide (k' = k) then Some v else lookup_key d' k
  end.

(** [d[k]] *)
Definition getitem (d : dict) (k : str) : exn + json :=
  match lookup_key d k with
  | Some v => inr v
  | None => inl KeyError
  end.

(** [d.get(k, dflt)] *)
Definition get (d : dict) (k : str) (dflt : json) : json :=
  default dflt (lookup_key d k).

(** [x not in labels] for a dict [labels]: [x] has to be hashable. *)
Definition not_in (x : json) (labels : dict) : exn + bool :=
  match x with
  | JArr _ | JObj _ => inl TypeError
  | JStr s => inr (negb (bool_decide (is_Some (lookup_key labels s))))
  | _ => inr true
  end.

(** [l[:n]] *)
Definition upto {A} (l : list A) (n : Z) : list A :=
  if (0 <=? n)%Z then take (Z.to_nat n) l
  else take (length l - Z.to_nat (- n)) l.

(** [v[:2000]] *)
Definition truncate (v : json) : exn + json :=
  match v with
  | JStr s => inr (JStr (upto s 2000))
  | JArr l => inr (JArr (upto l 2000))
  | _ => inl TypeError
  end.

(** A comprehension whose element expression may raise. *)
Fixpoint traverse {A B} (f : A -> exn + B) (l : list A) : exn + list B :=
  match l with
  | [] => inr []
  | a :: l' =>
    match f a with
    | inl e => inl e
    | inr b =>
      match traverse f l' with
      | inl e => inl e
      | inr bs => inr (b :: bs)
      end
    end
  end.

Definition get_unlabeled_articles (fs : Files) : exn + list dict :=
  match load_json (ARTICLES_FILE fs) with
  | inl e => inl e
  | inr articles =>
    let labels := default [] (LABELS_FILE fs) in
    match traverse (fun a => match getitem a (u"url") with
                             | inl e => inl e
                             | inr x => match not_in x labels with
                                        | inl e => inl e
                                        | inr keep => inr (a, keep)
                                        end
                             end) articles with
    | inl e => inl e
    | inr marked => inr (map fst (filter (fun p => snd p = true) marked))
    end
  end.

Definition INSTRUCTIONS : str :=
  u"Label each article below. For each article, determine if it's about labour unrest (strikes, work stoppages, union actions, workplace accidents, etc.). Output a JSON array with one label object per article.".

(** One entry of the payload's ["articles"]. *)
Definition entry (a : dict) : exn + json :=
  match getitem a (u"url") with
  | inl e => inl e
  | inr url =>
    match truncate (get a (u"body") (JStr [])) with
    | inl e => inl e
    | inr body =>
      inr (JObj [ (u"url", url);
                  (u"title", get a (u"title") (JStr []));
                  (u"published_at", get a (u"published_at") (JStr []));
                  (u"tags", get a (u"tags") (JArr []));
                  (u"body", body) ])
    end
  end.

(** *** Saving

    What a call leaves in the file it writes: the file as it was, the data
    saved, or a file that was opened for writing and holds a part of the
    text at most. *)
Inductive file (A : Type) :=
| Untouched
| Holds (data : A)
| Broken.
Arguments Untouched {A}.
Arguments Holds {A} data.
Arguments Broken {A}.

(** How a call ends: the exception it raises, if any, and the state of the
    file it writes. *)
Definition ending (A : Type) : Type := option exn * file A.

(** The strings of a JSON value, keys included, can be encoded in UTF-8. *)
Fixpoint json_encodable (x : json) : bool :=
  match x with
  | JStr s => encodable s
  | JArr l => forallb json_encodable l
  | JObj kv => forallb (fun p => match p with
                                 | (k, v) => encodable k && json_encodable v
                                 end) kv
  | _ => true
  end.

(** [save_json(path, data)]: the file is opened for writing, which the
    disk may refuse; [json.dump] with [ensure_ascii=False] writes the text
    piece by piece, and the piece with a surrogate raises
    [UnicodeEncodeError]; [answer] is the disk's answer for the path. *)
Definition save_json {A} (can_encode : A -> bool) (answer : option refusal) (data : A)
    : ending A :=
  match answer with
  | Some (OpenFails e) => (Some (open_exn e), Untouched)
  | _ =>
    if can_encode data then
      match answer with
      | Some (WriteFails errno) => (Some (os_error errno), Broken)
      | _ => (None, Holds data)
      end
    else (Some UnicodeEncodeError, Broken)
  end.

Definition BATCH_FILE : str := u"codex_batch.json".

(** [generate_batch(batch_size)], with what it leaves in the batch file. *)
Definition generate_batch (fs : Files) (disk : Disk) (batch_size : Z) : ending json :=
  match get_unlabeled_articles fs with
  | inl e => (Some e, Untouched)
  | inr [] => (None, Untouched)
  | inr unlabeled =>
    let batch := upto unlabeled batch_size in
    match load_json (SCHEMA_FILE fs) with
    | inl e => (Some e, Untouched)
    | inr schema =>
      match traverse entry batch with
      | inl e => (Some e, Untouched)
      | inr entries =>
        save_json json_encodable (disk BATCH_FILE)
          (JObj [ (u"instructions", JStr INSTRUCTIONS);
                  (u"schema", schema);
                  (u"articles", JArr entries) ])
      end
    end
  end.

(** *** Importing the results

    [import_results] merges what Codex wrote into the labels.  The labels
    in memory are a [dict] whose keys are whatever hashable values the
    assignments put there. *)

Definition pydict := list (json * json).

Definition as_int (k : json) : option Z :=
  match k with
  | JNum n => Some n
  | JBool b => Some (if b then 1 else 0)%Z
  | _ => None
  end.

(** [a == b] on two keys: strings with strings, [None] with [None], and
    the booleans with the integers 1 and 0. *)
Definition key_eqb (a b : json) : bool :=
  match a, b with
  | JStr s, JStr s' => bool_decide (s = s')
  | JNull, JNull => true
  | _, _ =>
    match as_int a, as_int b with
    | Some x, Some y => (x =? y)%Z
    | _, _ => false
    end
  end.

Fixpoint set_key (d : pydict) (k v : json) : pydict :=
  match d with
  | [] => [(k, v)]
  | (k', v') :: d' => if key_eqb k' k then (k', v) :: d' else (k', v') :: set_key d' k v
  end.

(** [d[k] = v]: lists and dicts cannot be keys. *)
Definition setitem (d : pydict) (k v : json) : exn + pydict :=
  match k with
  | JArr _ | JObj _ => inl TypeError
  | _ => inr (set_key d k v)
  end.

(** [p in s] on strings. *)
Fixpoint infix (p s : str) : bool :=
  startswith s p
  || match s with
     | [] => false
     | _ :: s' => infix p s'
     end.

(** ["url" in label] *)
Definition has_url (label : json) : exn + bool :=
  match label with
  | JObj kv => inr (bool_decide (is_Some (lookup_key kv (u"url"))))
  | JArr l => inr (existsb (fun x => match x with
                                     | JStr s => bool_decide (s = u"url")
                                     | _ => false
                                     end) l)
  | JStr s => inr (infix (u"url") s)
  | _ => inl TypeError
  end.

(** [label["url"]] *)
Definition url_of (label : json) : exn + json :=
  match label with
  | JObj kv => getitem kv (u"url")
  | _ => inl TypeError
  end.

(** [if "url" in label: labels[label["url"]] = label] *)
Definition merge_label (labels : pydict) (label : json) : exn + pydict :=
  match has_url label with
  | inl e => inl e
  | inr false => inr labels
  | inr true =>
    match url_of label with
    | inl e => inl e
    | inr k => setitem labels k label
    end
  end.

Fixpoint merge_labels (labels : pydict) (l : list json) : exn + pydict :=
  match l with
  | [] => inr labels
  | label :: l' =>
    match merge_label labels label with
    | inl e => inl e
    | inr labels' => merge_labels labels' l'
    end
  end.

(** [for label in x] *)
Definition iterate (x : json) : exn + list json :=
  match x with
  | JArr l => inr l
  | JObj kv => inr (map (fun p => JStr (fst p)) kv)
  | JStr s => inr (map (fun c => JStr [c]) s)
  | _ => inl TypeError
  end.

(** [d[k] = v] on a dict read from JSON. *)
Fixpoint dict_set (d : dict) (k : str) (v : json) : dict :=
  match d with
  | [] => [(k, v)]
  | (k', v') :: d' =>
    if bool_decide (k' = k) then (k', v) :: d' else (k', v') :: dict_set d' k v
  end.

(** [label["url"] = url] *)
Definition with_url (label : json) (url : str) : exn + json :=
  match label with
  | JObj kv => inr (JObj (dict_set kv (u"url") (JStr url)))
  | _ => inl TypeError
  end.

(** [for url, label in new_labels.items(): label["url"] = url; labels[url] = label] *)
Fixpoint merge_items (labels : pydict) (kv : dict) : exn + pydict :=
  match kv with
  | [] => inr labels
  | (url, label) :: kv' =>
    match with_url label url with
    | inl e => inl e
    | inr label' => merge_items (set_key labels (JStr url) label') kv'
    end
  end.

(** The labels in memory can be written: a key that is not a string is
    written as the text of a number, [true], [false] or [null]. *)
Definition labels_encodable (labels : pydict) : bool :=
  forallb (fun p => json_encodable (fst p) && json_encodable (snd p)) labels.

Definition LABELS_PATH : str := u"labels.json".

(** [import_results()], with what it leaves in the labels file; [output]
    is the output file, parsed, [None] when there is none. *)
Definition import_results (fs : Files) (disk : Disk) (output : option json) : ending pydict :=
  match output with
  | None => (None, Untouched)
  | Some new_labels =>
    let labels := map (fun p => (JStr (fst p), snd p)) (default [] (LABELS_FILE fs)) in
    let merged :=
      match new_labels with
      | JArr l => merge_labels labels l
      | JObj kv =>
        match lookup_key kv (u"labels") with
        | Some nested =>
          match iterate nested with
          | inl e => inl e
          | inr l => merge_labels labels l
          end
        | None => merge_items labels kv
        end
      | _ => inr labels
      end in
    match merged with
    | inl e => (Some e, Untouched)
    | inr labels' => save_json labels_encodable (disk LABELS_PATH) labels'
    end
  end.

(** *** Showing the progress

    [show_progress] can fail in two ways of its own. *)

Inductive failure :=
  | ZeroDivisionError
  | AttributeError
  | Other (e : exn).

(** [l.get(key)] on a value of the labels: only a dict has the method. *)
Definition get_of (l : json) (key : str) : failure + json :=
  match l with
  | JObj kv => inr (get kv key JNull)
  | _ => inl AttributeError
  end.

(** [x == v] for a string [v]. *)
Definition is_str (x : json) (v : str) : bool :=
  match x with
  | JStr s => bool_decide (s = v)
  | _ => false
  end.

(** [sum(1 for l in values if l.get("strike_or_labour_unrest") == v)] *)
Fixpoint count_answers (v : str) (values : list json) : failure + Z :=
  match values with
  | [] => inr 0%Z
  | l :: values' =>
    match get_of l (u"strike_or_labour_unrest") with
    | inl e => inl e
    | inr x =>
      match count_answers v values' with
      | inl e => inl e
      | inr n => inr ((if is_str x v then 1 else 0) + n)%Z
      end
    end
  end.

(** The figures of the four lines that are printed; the percentage of the
    first line is [100*labeled/total], formatted to one decimal. *)
Record Progress := {
  labeled : Z;
  total : Z;
  yes_count : Z;
  no_count : Z;
  remaining : Z;
}.

Definition show_progress (fs : Files) : failure + Progress :=
  match load_json (ARTICLES_FILE fs) with
  | inl e => inl (Other e)
  | inr articles =>
    let labels := default [] (LABELS_FILE fs) in
    let total := Z.of_nat (length articles) in
    let labeled := Z.of_nat (length labels) in
    match count_answers (u"yes") (map snd labels) with
    | inl e => inl e
    | inr yes_count =>
      match count_answers (u"no") (map snd labels) with
      | inl e => inl e
      | inr no_count =>
        if (total =? 0)%Z then inl ZeroDivisionError
        else inr {| labeled := labeled; total := total;
                    yes_count := yes_count; no_count := no_count;
                    remaining := total - labeled |}
      end
    end
  end.

End CodexLabeler.

(** * Auxiliary definitions *)

(** A platform that knows nothing beyond ASCII: every other code point is
    an unclassified symbol, and [urljoin] only prefixes the base. *)
Definition basic_latin : Platform := {|
  uc_isspace := fun _ => false;
  uc_decimal := fun _ => None;
  uc_isalnum := fun _ => false;
  uc_isdigit := fun _ => false;
  uc_upper := fun c => [c];
  urljoin := fun base ref => base ++ ref;
|}.

(** The entries after position [i], up to the first stop marker, without
    the noise entries: the body as the specification describes it. *)
Fixpoint until_stop (l : list str) : list str :=
  match l with
  | [] => []
  | s :: l' => if contains STOP_MARKERS s then [] else s :: until_stop l'
  end.

Definition body_entries (strings : list str) (i : nat) : list str :=
  filter (fun s => s ∉ NOISE_STRINGS) (until_stop (drop (S i) strings)).

Section Notions.
Context `{Platform}.

(** A flattened sequence: every entry is non-empty and stripped. *)
Definition flattened (strings : list str) : Prop :=
  Forall (fun s => s <> [] /\ strip s = s) strings.

(** [i] is the first position of [t] in [l]. *)
Definition first_at (l : list str) (t : str) (i : nat) : Prop :=
  l !! i = Some t /\ forall j, (j < i)%nat -> l !! j <> Some t.

(** A string that [strip] leaves alone and that is not empty starts and
    ends with a character that is not white space. *)
Definition tight (s : str) : Prop :=
  (exists c s', s = c :: s' /\ isspace c = false)
  /\ (exists c s', rev s = c :: s' /\ isspace c = false).

(** The three heuristics as functions of the sequence and an anchor
    position. *)
Definition stamp_around (strings : list str) (i : nat) : exn + option datetime :=
  match first_stamp (slice strings (i - 15) (Nat.min (length strings) (i + 15))) with
  | Some r => sum_map id Some r
  | None =>
    match first_stamp strings with
    | Some r => sum_map id Some r
    | None => inr None
    end
  end.

Definition body_after (strings : list str) (i : nat) : option str :=
  match strip (join LF (body_loop (drop (i + 1) strings) [])) with
  | [] => None
  | b => Some b
  end.

Definition tag_before (strings : list str) (i : nat) : list str :=
  tag_loop (rev (slice strings (i - 10) i)).

(** The window the specification words: fifteen entries on each side of
    position [i], and [i] itself. *)
Definition symmetric_window (strings : list str) (i : nat) : list str :=
  slice strings (i - 15) (Nat.min (length strings) (i + 15 + 1)).

End Notions.

(** Sample data. *)
Definition sample_title : str := u"Workers strike".

Definition sample_strings : list str :=
  [ u"ΕΡΓΑΤΙΚΗ ΤΑΞΗ"; sample_title; u"15/03/2024 - 09:30"; u"Facebook logo";
    u"First paragraph."; u"Twitter logo"; u"Second paragraph."; u"Δες ακόμα";
    u"Other story"; sample_title; u"01/01/2020 - 08:00" ].

(** A date at position 0, the title at position 16, another date at
    position 31, fifteen entries after the title. *)
Definition far_strings : list str :=
  [u"01/01/2020 - 08:00"] ++ replicate 15 (u"x") ++ [sample_title]
  ++ replicate 14 (u"x") ++ [u"15/03/2024 - 09:30"].


(** ** Reading a trace *)

Definition seen_adds (t : trace) : list str :=
  omap (fun e => match e with SeenAdd u => Some u | _ => None end) t.

Definition article_gets (t : trace) : list str :=
  omap (fun e => match e with Get ArticlePage u => Some u | _ => None end) t.

Definition listing_gets (t : trace) : list str :=
  omap (fun e => match e with Get Listing u => Some u | _ => None end) t.

(** A run ended, normally or with an exception, with a trace that
    satisfies [P]. *)
Definition ended {A} (P : trace -> Prop) (o : outcome A) : Prop :=
  match o with
  | Done _ t | Raised _ t => P t
  | Starved => False
  end.

(** The exceptions of an outcome satisfy [P]. *)
Definition raises {A} (P : exn -> Prop) (o : outcome A) : Prop :=
  match o with
  | Raised e _ => P e
  | _ => True
  end.

Definition CONFIG_ERROR : exn :=
  ValueError "Must specify at least one of: days, since, or pages".

(** How many of the three bounds a call supplies. *)
Definition supplied (days : option Z) (since : option (str + datetime)) (pages : option Z)
    : nat :=
  (match days with Some _ => 1 | None => 0 end)
  + (match since with Some _ => 1 | None => 0 end)
  + (match pages with Some _ => 1 | None => 0 end).

(** A run under a cutoff and a page limit: the crawl, then the writing of
    the records when there is an output path. *)
Definition bounded_run `{Platform} (web : Web) (disk : Disk) (fuel : nat)
    (cutoff : option datetime) (pages : option Z) (output : option str) (verbose : bool)
    : M (list Article) :=
  do articles <- scrape_articles web fuel cutoff pages verbose;
  run match output with
      | Some (c :: path) => write_text disk (c :: path) articles
      | _ => ret tt
      end;
  ret articles.

(** A disk that takes every file. *)
Definition sound_disk : Disk := fun _ => None.

(** A disk on which no file can be opened: there is no such directory. *)
Definition no_directory : Disk := fun _ => Some (OpenFails (Errno 2)).

(** A record whose [published_at] reads back as a time within the cutoff. *)
Definition within (cutoff : option datetime) (item : Article) : Prop :=
  exists dt, fromisoformat (published_at item) = inr dt /\ in_range cutoff dt = true.

(** [min(oldest_on_page, dt)] with the first article of a page. *)
Definition oldest_with (oldest : option datetime) (dt : datetime) : datetime :=
  match oldest with
  | None => dt
  | Some o => dt_min o dt
  end.

(** What holds of the seen-set, the records and the trace between two
    visits of the crawl. *)
Definition crawl_inv (cutoff : option datetime) (seen : gset str)
    (arts : list Article) (t : trace) : Prop :=
  NoDup (seen_adds t)
  /\ (forall u, u ∈ seen_adds t -> u ∈ seen)
  /\ article_gets t = seen_adds t
  /\ sublist (map url arts) (seen_adds t)
  /\ Forall (within cutoff) arts.

(** ** A sample site

    Two listing pages and three articles: one of March 2024, one
    without a timestamp, one of January 2020.  The site answers the same
    whatever happened before. *)

Definition listing_soup (hrefs : list str) : Soup :=
  {| title_string := None; stripped_strings := []; tag_links := [];
     article_hrefs := hrefs |}.

Definition article_soup (t : str) (strings : list str) : Soup :=
  {| title_string := Some (t ++ u" | 902.gr"); stripped_strings := strings;
     tag_links := []; article_hrefs := [] |}.

Definition url_a : str := u"https://www.902.gr/eidisi/ergatiki-taxi/1/a".
Definition url_b : str := u"https://www.902.gr/eidisi/ergatiki-taxi/2/b".
Definition url_c : str := u"https://www.902.gr/eidisi/ergatiki-taxi/3/c".

Definition soup_a : Soup := article_soup sample_title sample_strings.
Definition soup_b : Soup := article_soup (u"No date") [u"No date"; u"Some text."].
Definition soup_c : Soup :=
  article_soup (u"Old story") [u"Old story"; u"01/01/2020 - 08:00"; u"Long ago."].

Fixpoint page_of (pages : list (str * Soup)) (u : str) : option Soup :=
  match pages with
  | [] => None
  | (k, soup) :: pages' => if bool_decide (k = u) then Some soup else page_of pages' u
  end.

Definition site (pages : list (str * Soup)) : Web := fun _ u => page_of pages u.

Definition sample_web : Web :=
  site [ (u"https://www.902.gr/ergatiki-taxi",
          listing_soup [url_a; u"/eidisi/ergatiki-taxi/2/b"]);
         (u"https://www.902.gr/ergatiki-taxi?page=1",
          listing_soup [u"/eidisi/ergatiki-taxi/2/b"; url_c]);
         (u"https://www.902.gr/ergatiki-taxi?page=2", listing_soup [url_a]);
         (url_a, soup_a); (url_b, soup_b); (url_c, soup_c) ].

(** The same site with the old article on its first listing page. *)
Definition old_first_web : Web :=
  site [ (u"https://www.902.gr/ergatiki-taxi", listing_soup [url_c]);
         (u"https://www.902.gr/ergatiki-taxi?page=1", listing_soup [url_a]);
         (url_a, soup_a); (url_c, soup_c) ].

Definition march_2024 : datetime := mk_datetime 2024 3 1 0 0 0 0.

Definition noon_20_march_2024 : datetime := mk_datetime 2024 3 20 12 0 0 0.

(** ** Sample files for the labelling helper *)

(** A record as [json.dumps] writes it and [json.load] reads it back. *)
Definition record_json (a : Article) : CodexLabeler.dict :=
  [ (u"url", CodexLabeler.JStr (url a));
    (u"title", match title a with
               | Some t => CodexLabeler.JStr t
               | None => CodexLabeler.JNull
               end);
    (u"published_at", CodexLabeler.JStr (published_at a));
    (u"tags", CodexLabeler.JArr (map CodexLabeler.JStr (tags a)));
    (u"body", match body a with
              | Some b => CodexLabeler.JStr b
              | None => CodexLabeler.JNull
              end) ].

(** The record the scraper writes for an article whose title does not
    occur in its text: the body is null. *)
Definition null_body_record : CodexLabeler.dict :=
  [ (u"url", CodexLabeler.JStr url_b);
    (u"title", CodexLabeler.JStr (u"Unlocated title"));
    (u"published_at", CodexLabeler.JStr (u"2024-03-15T09:30"));
    (u"tags", CodexLabeler.JArr []);
    (u"body", CodexLabeler.JNull) ].

Definition text_body_record : CodexLabeler.dict :=
  [ (u"url", CodexLabeler.JStr url_a);
    (u"title", CodexLabeler.JStr sample_title);
    (u"published_at", CodexLabeler.JStr (u"2024-03-15T09:30"));
    (u"tags", CodexLabeler.JArr []);
    (u"body", CodexLabeler.JStr (u"First paragraph.")) ].

Definition sample_files (articles : list CodexLabeler.dict) : CodexLabeler.Files :=
  {| CodexLabeler.ARTICLES_FILE := Some articles;
     CodexLabeler.LABELS_FILE := None;
     CodexLabeler.SCHEMA_FILE := Some (CodexLabeler.JObj []) |}.

(** A page whose title is not among its text entries. *)
Definition soup_unlocated : Soup :=
  article_soup (u"Unlocated title") [u"Another heading"; u"15/03/2024 - 09:30"; u"Text."].

(** ** Notions for the further properties *)

Section MoreNotions.
Context `{Platform}.

(** What the tag fallback asks of an entry. *)
Definition tag_ok (s : str) : bool :=
  negb (contains STOP_MARKERS s)
  && negb (bool_decide (is_Some (re_search DT_RE s)))
  && (2 <=? length s)%nat && (length s <=? 50)%nat
  && str_eqb (upper s) s && negb (isdigit s).

End MoreNotions.

(** The texts of the tag links that have some text, in document order. *)
Definition link_texts (soup : Soup) : list str :=
  omap (fun a => if non_empty (snd a) then Some (fst a) else None) (tag_links soup).

(** Every request of the trace [t], issued after the events [pre], got an
    answer. *)
Fixpoint answered_from (web : Web) (pre t : trace) : bool :=
  match t with
  | [] => true
  | e :: t' =>
    match e with
    | Get _ u => bool_decide (is_Some (web pre u))
    | _ => true
    end && answered_from web (pre ++ [e]) t'
  end.

Definition answered (web : Web) (t : trace) : bool := answered_from web [] t.

(** An outcome in which no request failed, or the run raised because its
    last request did. *)
Definition settled {A} (web : Web) (o : outcome A) : Prop :=
  match o with
  | Done _ t => answered web t = true
  | Raised RequestException t =>
    exists t1 k u, t = t1 ++ [Get k u] /\ web t1 u = None /\ answered web t1 = true
  | Raised _ t => answered web t = true
  | Starved => True
  end.

(** The trace of an outcome, when there is one, satisfies [P]. *)
Definition traced {A} (P : trace -> Prop) (o : outcome A) : Prop :=
  match o with
  | Done _ t | Raised _ t => P t
  | Starved => True
  end.

(** The listing URLs of the pages [page], [page + 1], ... ([k] of them). *)
Definition pages_from (page : Z) (k : nat) : list str :=
  map (fun i : nat => @list_url (page + Z.of_nat i)) (seq 0 k).





(** A page with tag links: two of them share a text, one has none. *)
Definition soup_tagged : Soup :=
  {| title_string := Some (u"Workers strike | 902.gr");
     stripped_strings := sample_strings;
     tag_links := [ (u"Strikes", u"Strikes"); (u"", u""); (u"Ports", u"Ports");
                    (u"Strikes", u"Strikes") ];
     article_hrefs := [] |}.

(** Entries with a heading right before the title. *)
Definition headed_strings : list str :=
  [u"REGION"; u"15/03/2024 - 09:30"; u"LABOUR NEWS"; u"12"; u"by staff"; sample_title;
   u"Text."].

(** The record of the old article of the sample site. *)
Definition record_c : Article :=
  {| url := url_c;
     title := Some (u"Old story");
     published_at := u"2020-01-01T08:00";
     tags := [];
     body := Some (u"01/01/2020 - 08:00" ++ LF ++ u"Long ago.") |}.





(** ** Notions for the labelling helper *)

Module CodexNotions.
Import CodexLabeler.

(** The URL of an article or of a label, when it has one that is a string. *)
Definition url_field (a : dict) : option str :=
  match lookup_key a (u"url") with
  | Some (JStr s) => Some s
  | _ => None
  end.

(** The article's URL is a key of the labels. *)
Definition labelled (labels : dict) (a : dict) : bool :=
  match url_field a with
  | Some s => bool_decide (is_Some (lookup_key labels s))
  | None => false
  end.

(** An article as the scraper writes it, as far as the helper looks: the
    URL is a string and the body, when the key is there, is a string. *)
Definition plain_article (a : dict) : Prop :=
  is_Some (url_field a)
  /\ (lookup_key a (u"body") = None \/ exists b, lookup_key a (u"body") = Some (JStr b)).

(** The payload entry of a plain article. *)
Definition entry_of (a : dict) : json :=
  JObj [ (u"url", get a (u"url") JNull);
         (u"title", get a (u"title") (JStr []));
         (u"published_at", get a (u"published_at") (JStr []));
         (u"tags", get a (u"tags") (JArr []));
         (u"body", JStr (take 2000 match lookup_key a (u"body") with
                                   | Some (JStr b) => b
                                   | _ => []
                                   end)) ].

(** The batch that is saved for a schema and the articles of the batch. *)
Definition payload_of (schema : json) (batch : list dict) : json :=
  JObj [ (u"instructions", JStr INSTRUCTIONS);
         (u"schema", schema);
         (u"articles", JArr (map entry_of batch)) ].

(** [labels.get(k)] on the labels in memory. *)
Fixpoint py_get (d : pydict) (k : json) : option json :=
  match d with
  | [] => None
  | (k', v) :: d' => if key_eqb k' k then Some v else py_get d' k
  end.

(** The URL of a label object. *)
Definition label_url (x : json) : option str :=
  match x with
  | JObj kv => url_field kv
  | _ => None
  end.

(** A label object whose URL, when it has one, is a string. *)
Definition plain_label (x : json) : Prop :=
  match x with
  | JObj kv =>
    match lookup_key kv (u"url") with
    | Some (JStr _) | None => True
    | Some _ => False
    end
  | _ => False
  end.

(** The last label of [l] that carries the URL [s]. *)
Definition last_for (s : str) (l : list json) : option json :=
  last (filter (fun x => label_url x = Some s) l).

(** The labels of the labels file, as they are in memory. *)
Definition stored (fs : Files) : pydict :=
  map (fun p => (JStr (fst p), snd p)) (default [] (LABELS_FILE fs)).

(** A flat map entry turned into a label that carries its URL. *)
Definition tagged (p : str * json) : json :=
  match snd p with
  | JObj kv => JObj (dict_set kv (u"url") (JStr (fst p)))
  | other => other
  end.

Definition is_object (x : json) : Prop :=
  match x with
  | JObj _ => True
  | _ => False
  end.

(** *** Sample data *)

(** An article with nothing but its URL. *)
Definition bare_record : dict := [ (u"url", JStr url_b) ].

Definition yes_label (url : str) : json :=
  JObj [ (u"url", JStr url); (u"strike_or_labour_unrest", JStr (u"yes")) ].

Definition no_label (url : str) : json :=
  JObj [ (u"url", JStr url); (u"strike_or_labour_unrest", JStr (u"no")) ].

(** A label that carries no URL. *)
Definition stray_label : json := JObj [ (u"strike_or_labour_unrest", JStr (u"no")) ].

(** Two articles, the first of them labelled. *)
Definition half_labelled (schema : option json) : Files :=
  {| ARTICLES_FILE := Some [text_body_record; bare_record];
     LABELS_FILE := Some [ (url_a, yes_label url_a) ];
     SCHEMA_FILE := schema |}.

(** One article, labelled. *)
Definition all_labelled : Files :=
  {| ARTICLES_FILE := Some [text_body_record];
     LABELS_FILE := Some [ (url_a, yes_label url_a) ];
     SCHEMA_FILE := None |}.

(** A label whose text holds a lone surrogate. *)
Definition surrogate_label (url : str) : json :=
  JObj [ (u"url", JStr url); (u"notes", JStr [56832%N]) ].

(** An article whose body holds a lone surrogate, and no labels. *)
Definition surrogate_files : Files :=
  {| ARTICLES_FILE := Some [ [ (u"url", JStr url_a); (u"body", JStr [55296%N]) ] ];
     LABELS_FILE := None;
     SCHEMA_FILE := Some (JObj []) |}.

Definition no_articles_file : Files :=
  {| ARTICLES_FILE := None; LABELS_FILE := None; SCHEMA_FILE := Some (JObj []) |}.

(** One article and three labels: a yes, a no and one with no answer. *)
Definition more_labels_than_articles : Files :=
  {| ARTICLES_FILE := Some [text_body_record];
     LABELS_FILE := Some [ (url_a, yes_label url_a); (url_b, no_label url_b);
                           (url_c, JObj [ (u"url", JStr url_c) ]) ];
     SCHEMA_FILE := None |}.

End CodexNotions.
(** * Properties *)

Section StringFacts.
Context `{Platform}.

Lemma lstrip_idem (s : str) : lstrip (lstrip s) = lstrip s.
Proof.
  induction s as [|c s IH]; simpl; [reflexivity|].
  destruct (isspace c) eqn:E; [exact IH|].
  simpl. rewrite E. reflexivity.
Qed.

Lemma lstrip_head (s : str) (c : char) (s' : str) :
  lstrip s = c :: s' -> isspace c = false.
Proof.
  induction s as [|d s IH]; simpl; [discriminate|].
  destruct (isspace d) eqn:E; [exact IH|].
  intros [= <- _]. exact E.
Qed.

Lemma lstrip_fixed (c : char) (s : str) : isspace c = false -> lstrip (c :: s) = c :: s.
Proof. intros E. simpl. rewrite E. reflexivity. Qed.

Lemma lstrip_app (s t : str) (c : char) :
  isspace c = false -> lstrip (s ++ c :: t) = lstrip s ++ c :: t.
Proof.
  intros E. induction s as [|d s IH]; simpl.
  - rewrite E. reflexivity.
  - destruct (isspace d); [exact IH|reflexivity].
Qed.

Lemma rstrip_snoc (s : str) (c : char) : isspace c = false -> rstrip (s ++ [c]) = s ++ [c].
Proof.
  intros E. unfold rstrip. rewrite rev_app_distr. simpl. rewrite E.
  simpl. rewrite rev_involutive. reflexivity.
Qed.

Lemma rstrip_idem (s : str) : rstrip (rstrip s) = rstrip s.
Proof. unfold rstrip. rewrite rev_involutive, lstrip_idem. reflexivity. Qed.

Lemma lstrip_suffix (s : str) : exists p, s = p ++ lstrip s /\ forallb isspace p = true.
Proof.
  induction s as [|c s [p [E F]]]; simpl.
  - exists []. split; reflexivity.
  - destruct (isspace c) eqn:Ec.
    + exists (c :: p). simpl. rewrite Ec, F. split; [f_equal; exact E|reflexivity].
    + exists []. split; reflexivity.
Qed.

Lemma startswith_app (p s : str) : startswith (p ++ s) p = true.
Proof.
  induction p as [|c p IH]; simpl; [destruct s; reflexivity|].
  rewrite N.eqb_refl. exact IH.
Qed.

Lemma endswith_app (s p : str) : endswith (s ++ p) p = true.
Proof. unfold endswith. rewrite rev_app_distr. apply startswith_app. Qed.

End StringFacts.

(** ** Title normalisation *)

Section Titles.
Context `{Platform}.

Lemma site_suffix_chars : SITE_SUFFIX = [124; 32; 57; 48; 50; 46; 103] ++ [114].
Proof. reflexivity. Qed.

Lemma normalize_title_nonempty (s : str) :
  s <> [] ->
  normalize_title (Some s) =
  Some (if endswith (strip s) SITE_SUFFIX
        then strip (take (length (strip s) - length SITE_SUFFIX) (strip s))
        else strip s).
Proof. destruct s; [congruence|reflexivity]. Qed.

Lemma strip_with_suffix (t : str) : strip (t ++ SITE_SUFFIX) = lstrip t ++ SITE_SUFFIX.
Proof.
  unfold strip.
  replace (lstrip (t ++ SITE_SUFFIX)) with (lstrip t ++ SITE_SUFFIX)
    by (symmetry; apply (lstrip_app t [32; 57; 48; 50; 46; 103; 114] 124); reflexivity).
  replace (lstrip t ++ SITE_SUFFIX)
    with ((lstrip t ++ [124; 32; 57; 48; 50; 46; 103]) ++ [114])
    by (rewrite <- app_assoc; reflexivity).
  apply rstrip_snoc. reflexivity.
Qed.

Lemma strip_lstrip (t : str) : strip (lstrip t) = strip t.
Proof. unfold strip. rewrite lstrip_idem. reflexivity. Qed.

(** C7 (as amended).  A title that ends with the site suffix normalises to
    what precedes the suffix, with surrounding white space stripped; a
    non-empty title that, once stripped, does not end with the suffix
    normalises to the stripped title, hence to itself when it carries no
    surrounding white space. *)
Theorem normalize_title_spec :
  (forall t : str, normalize_title (Some (t ++ SITE_SUFFIX)) = Some (strip t))
  /\ (forall s : str, s <> [] -> endswith (strip s) SITE_SUFFIX = false ->
        normalize_title (Some s) = Some (strip s))
  /\ (forall s : str, s <> [] -> strip s = s -> endswith s SITE_SUFFIX = false ->
        normalize_title (Some s) = Some s)
  /\ normalize_title (Some (u"Workers strike | 902.gr")) = Some (u"Workers strike").
Proof.
  split; [|split; [|split]].
  - intros t. rewrite normalize_title_nonempty by (destruct t; discriminate).
    rewrite strip_with_suffix, endswith_app.
    rewrite length_app, Nat.add_sub, take_app_length.
    rewrite strip_lstrip. reflexivity.
  - intros s Hs E. rewrite normalize_title_nonempty by exact Hs.
    rewrite E. reflexivity.
  - intros s Hs Hfix E. rewrite normalize_title_nonempty by exact Hs.
    rewrite Hfix, E. reflexivity.
  - reflexivity.
Qed.

End Titles.

Lemma normalize_title_spec_witness :
  ((u"ab" : str) <> [] /\ @strip basic_latin (u"ab") = u"ab"
   /\ @endswith (u"ab") SITE_SUFFIX = false)
  /\ @normalize_title basic_latin (Some (u"ab")) = Some (u"ab").
Proof.
  split.
  - split; [discriminate|split; reflexivity].
  - apply (proj1 (proj2 (proj2 (@normalize_title_spec basic_latin)))).
    + discriminate.
    + reflexivity.
    + reflexivity.
Defined.

(** C7 as the specification words it fails on a title with surrounding
    white space: it does not end with the suffix and is not returned
    unchanged. *)
Lemma normalize_title_changes_padded_title :
  ~ (forall s : str, endswith s SITE_SUFFIX = false ->
       @normalize_title basic_latin (Some s) = Some s).
Proof.
  intros claim. specialize (claim (u" Workers strike ") eq_refl).
  vm_compute in claim. discriminate.
Qed.

(** ** The positional heuristics *)

Section Heuristics.
Context `{Platform}.

Lemma index_first (l : list str) (t : str) (i : nat) : first_at l t i -> index l t = i.
Proof.
  revert i. induction l as [|y l IH]; intros i [Hi Hlt].
  - destruct i; discriminate.
  - simpl. unfold str_eqb. case_bool_decide as E.
    + destruct i as [|i]; [reflexivity|].
      exfalso. apply (Hlt 0%nat); [lia|]. simpl. congruence.
    + destruct i as [|i]; [simpl in Hi; congruence|].
      f_equal. apply IH. split; [exact Hi|].
      intros j Hj. apply (Hlt (S j)). lia.
Qed.

Lemma first_at_index (l : list str) (t : str) : t ∈ l -> first_at l t (index l t).
Proof.
  induction l as [|y l IH]; intros Hin.
  - inversion Hin.
  - simpl. unfold str_eqb. case_bool_decide as E.
    + split; [simpl; congruence|]. intros j Hj. lia.
    + assert (t ∈ l) as Hl by (inversion Hin; subst; [congruence|assumption]).
      destruct (IH Hl) as [H1 H2]. split; [exact H1|].
      intros [|j] Hj; simpl; [congruence|]. apply H2. lia.
Qed.

Lemma located_found (l : list str) (t : str) (i : nat) :
  t <> [] -> l !! i = Some t -> located l (Some t) = Some t.
Proof.
  intros Hne Hi. destruct t as [|c t]; [congruence|].
  simpl. unfold contains. rewrite bool_decide_eq_true_2; [reflexivity|].
  eapply list_elem_of_lookup_2. exact Hi.
Qed.

Lemma located_missing (l : list str) (t : option str) :
  (forall s, t = Some s -> s ∉ l) -> located l t = None.
Proof.
  intros Hno. destruct t as [[|c t]|]; try reflexivity.
  simpl. unfold contains. rewrite bool_decide_eq_false_2; [reflexivity|].
  apply Hno. reflexivity.
Qed.

Lemma flattened_entry (l : list str) (i : nat) (s : str) :
  flattened l -> l !! i = Some s -> s <> [] /\ strip s = s.
Proof. intros Hf Hi. exact (proj1 (Forall_lookup _ l) Hf i s Hi). Qed.

Lemma body_loop_entries (l out : list str) :
  body_loop l out = out ++ filter (fun s => s ∉ NOISE_STRINGS) (until_stop l).
Proof.
  revert out. induction l as [|s l IH]; intros out; simpl.
  - rewrite app_nil_r. reflexivity.
  - destruct (contains STOP_MARKERS s); [rewrite app_nil_r; reflexivity|].
    unfold contains at 1. rewrite filter_cons. case_bool_decide as E.
    + rewrite decide_False by (intros N; exact (N E)). apply IH.
    + rewrite decide_True by exact E. rewrite IH, <- app_assoc. reflexivity.
Qed.

End Heuristics.

(** ** Body extraction *)

Section Body.
Context `{Platform}.

Lemma lstrip_length (s : str) : (length (lstrip s) <= length s)%nat.
Proof.
  induction s as [|c s IH]; simpl; [lia|].
  destruct (isspace c); simpl; lia.
Qed.

Lemma rstrip_length (s : str) : (length (rstrip s) <= length s)%nat.
Proof.
  unfold rstrip. rewrite length_rev.
  etransitivity; [apply lstrip_length|]. rewrite length_rev. lia.
Qed.

Lemma lstrip_same_length (s : str) : length (lstrip s) = length s -> lstrip s = s.
Proof.
  destruct s as [|c s]; [reflexivity|]. simpl.
  destruct (isspace c); [|reflexivity].
  intros E. pose proof (lstrip_length s). lia.
Qed.

Lemma stripped_tight (s : str) : s <> [] -> strip s = s -> tight s.
Proof.
  intros Hne Hs.
  assert (lstrip s = s) as Hl.
  { apply lstrip_same_length. pose proof (lstrip_length s).
    pose proof (rstrip_length (lstrip s)). unfold strip in Hs.
    rewrite Hs in *. lia. }
  assert (lstrip (rev s) = rev s) as Hr.
  { unfold strip in Hs. rewrite Hl in Hs. unfold rstrip in Hs.
    rewrite <- Hs at 2. rewrite rev_involutive. reflexivity. }
  split.
  - destruct s as [|c s']; [congruence|].
    exists c, s'. split; [reflexivity|]. eapply lstrip_head. exact Hl.
  - destruct (rev s) as [|c r] eqn:E.
    + apply (f_equal (@rev char)) in E. rewrite rev_involutive in E. simpl in E. congruence.
    + exists c, r. split; [reflexivity|]. eapply lstrip_head. exact Hr.
Qed.

Lemma tight_strip (s : str) : tight s -> strip s = s /\ s <> [].
Proof.
  intros [[c [s' [E Ec]]] [d [r [Er Ed]]]]. split; [|subst; discriminate].
  unfold strip. replace (lstrip s) with s by (subst; simpl; rewrite Ec; reflexivity).
  unfold rstrip. rewrite Er. simpl. rewrite Ed, <- Er. apply rev_involutive.
Qed.

Lemma tight_app (a m b : str) : tight a -> tight b -> tight (a ++ m ++ b).
Proof.
  intros [[c [a' [Ea Ec]]] _] [_ [d [r [Eb Ed]]]]. split.
  - exists c, (a' ++ m ++ b). subst a. split; [reflexivity|exact Ec].
  - exists d, (r ++ rev m ++ rev a). split; [|exact Ed].
    rewrite !rev_app_distr, Eb, <- app_assoc. reflexivity.
Qed.

Lemma tight_join (sep : str) (es : list str) :
  es <> [] -> Forall tight es -> tight (join sep es).
Proof.
  induction es as [|e es IH]; intros Hne Hall; [congruence|].
  inversion Hall as [|? ? He Hes]; subst.
  destruct es as [|e' es]; [exact He|].
  change (join sep (e :: e' :: es)) with (e ++ sep ++ join sep (e' :: es)).
  apply tight_app; [exact He|]. apply IH; [discriminate|exact Hes].
Qed.

Lemma Forall_until_stop (P : str -> Prop) (l : list str) :
  Forall P l -> Forall P (until_stop l).
Proof.
  induction 1 as [|s l Hs Hl IH]; simpl; [constructor|].
  destruct (contains STOP_MARKERS s); constructor; assumption.
Qed.

Lemma Forall_body_entries (P : str -> Prop) (strings : list str) (i : nat) :
  Forall P strings -> Forall P (body_entries strings i).
Proof.
  intros Hall. unfold body_entries.
  apply Forall_forall. intros s Hs. apply list_elem_of_filter in Hs as [_ Hs].
  revert s Hs. apply Forall_forall, Forall_until_stop, Forall_drop. exact Hall.
Qed.

(** C4.  On a flattened sequence in which the title occurs, first at
    position [i], the extracted body is the newline-join of the entries
    after [i] up to the first stop marker, noise entries left out, and it
    is absent when no entry remains; it is absent too when the title does
    not occur in the sequence. *)
Theorem extract_body_spec (strings : list str) :
  flattened strings ->
  (forall (title : str) (i : nat),
      first_at strings title i ->
      extract_body strings (Some title) =
      match body_entries strings i with
      | [] => None
      | es => Some (join LF es)
      end)
  /\ (forall title : option str,
        (forall t, title = Some t -> t ∉ strings) ->
        extract_body strings title = None).
Proof.
  intros Hflat. split.
  - intros title i Hfirst. pose proof Hfirst as [Hi _].
    destruct (flattened_entry _ _ _ Hflat Hi) as [Hne _].
    unfold extract_body. rewrite (located_found _ _ _ Hne Hi).
    rewrite (index_first _ _ _ Hfirst), Nat.add_1_r.
    rewrite body_loop_entries. simpl app.
    fold (body_entries strings i).
    assert (Forall tight (body_entries strings i)) as Ht.
    { apply Forall_body_entries. eapply Forall_impl; [exact Hflat|].
      intros s [? ?]. apply stripped_tight; assumption. }
    destruct (body_entries strings i) as [|e es] eqn:E; [reflexivity|].
    destruct (tight_strip (join LF (e :: es))) as [Hs Hn].
    { apply tight_join; [discriminate|exact Ht]. }
    rewrite Hs. destruct (join LF (e :: es)); [congruence|reflexivity].
  - intros title Hno. unfold extract_body.
    rewrite located_missing by exact Hno. reflexivity.
Qed.

End Body.


Lemma extract_body_spec_witness :
  (@flattened basic_latin sample_strings /\ first_at sample_strings sample_title 1)
  /\ @extract_body basic_latin sample_strings (Some sample_title)
     = Some (u"15/03/2024 - 09:30" ++ LF ++ u"First paragraph." ++ LF
             ++ u"Second paragraph.").
Proof.
  assert (@flattened basic_latin sample_strings) as Hflat
    by (repeat constructor; try discriminate; reflexivity).
  assert (first_at sample_strings sample_title 1) as Hfirst.
  { split; [reflexivity|]. intros [|j] Hj; [discriminate|lia]. }
  split; [split; assumption|].
  exact (proj1 (@extract_body_spec basic_latin sample_strings Hflat) sample_title 1%nat Hfirst).
Defined.

(** ** Timestamp extraction *)

Section Stamps.
Context `{Platform}.

Lemma slice_lookup {A} (l : list A) (a b k : nat) :
  slice l a b !! k = if decide (a + k < b)%nat then l !! (a + k)%nat else None.
Proof.
  unfold slice. rewrite lookup_take, lookup_drop.
  destruct (decide (k < b - a)%nat), (decide (a + k < b)%nat); try reflexivity; lia.
Qed.

Lemma first_stamp_at (l : list str) (k : nat) (s : str) (g : groups) :
  l !! k = Some s -> re_search DT_RE s = Some g ->
  (forall k' s', (k' < k)%nat -> l !! k' = Some s' -> re_search DT_RE s' = None) ->
  first_stamp l = Some (to_datetime g).
Proof.
  revert k. induction l as [|x l IH]; intros k Hk Hg Hbefore.
  - destruct k; discriminate.
  - destruct k as [|k]; simpl in *.
    + injection Hk as ->. rewrite Hg. reflexivity.
    + rewrite (Hbefore 0%nat x) by (reflexivity || lia).
      apply (IH k); [exact Hk|exact Hg|].
      intros k' s' Hlt Hs'. apply (Hbefore (S k') s'); [lia|exact Hs'].
Qed.

Lemma first_stamp_none (l : list str) :
  first_stamp l = None <-> Forall (fun s => re_search DT_RE s = None) l.
Proof.
  induction l as [|x l IH]; simpl.
  - split; [constructor|reflexivity].
  - destruct (re_search DT_RE x) eqn:E.
    + split; [discriminate|]. intros Hall. inversion Hall; congruence.
    + rewrite IH. split; [intros; constructor; assumption|].
      intros Hall. inversion Hall; assumption.
Qed.

Lemma pick_published_at_anchored (strings : list str) (title : str) (i : nat) :
  title <> [] -> first_at strings title i ->
  pick_published_at strings (Some title) = stamp_around strings i.
Proof.
  intros Hne Hfirst. unfold pick_published_at, stamp_around.
  rewrite (located_found _ _ i Hne (proj1 Hfirst)), (index_first _ _ _ Hfirst).
  reflexivity.
Qed.

(** C2 (as amended).  When the title occurs in the sequence, first at
    position [i], the entries searched first are those at the positions
    from [i - 15] up to and excluding [i + 15]: fifteen before the title,
    the title, fourteen after it.  The first of them that holds a match of
    the pattern decides, its two groups being parsed as day/month/year and
    hour:minute; when none does, the first match of the whole sequence
    decides.  An entry ["15/03/2024 - 09:30"] next to the title gives
    2024-03-15T09:30. *)
Theorem pick_published_at_window (strings : list str) (title : str) (i : nat) :
  title <> [] -> first_at strings title i ->
  (forall (j : nat) (s : str) (g : groups),
      (i <= j + 15)%nat -> (j < i + 15)%nat ->
      strings !! j = Some s -> re_search DT_RE s = Some g ->
      (forall j' s', (i <= j' + 15)%nat -> (j' < j)%nat ->
                     strings !! j' = Some s' -> re_search DT_RE s' = None) ->
      pick_published_at strings (Some title)
      = sum_map id Some (strptime FMT_DMY_HM (group g "1" ++ u" " ++ group g "2")))
  /\ ((forall j s, (i <= j + 15)%nat -> (j < i + 15)%nat ->
                   strings !! j = Some s -> re_search DT_RE s = None) ->
      pick_published_at strings (Some title)
      = match first_stamp strings with
        | Some r => sum_map id Some r
        | None => inr None
        end)
  /\ (exists dt,
        pick_published_at [u"Workers strike"; u"15/03/2024 - 09:30"] (Some (u"Workers strike"))
        = inr (Some dt)
        /\ isoformat_minutes dt = u"2024-03-15T09:30").
Proof.
  intros Hne Hfirst. rewrite (pick_published_at_anchored _ _ _ Hne Hfirst).
  unfold stamp_around. split; [|split].
  - intros j s g Hlo Hhi Hj Hg Hbefore.
    rewrite (first_stamp_at _ (j - (i - 15)) s g); [reflexivity| |exact Hg|].
    + rewrite slice_lookup.
      assert (j < length strings)%nat by (eapply lookup_lt_Some; exact Hj).
      rewrite decide_True by lia. rewrite <- Hj. f_equal. lia.
    + intros k' s' Hk'. rewrite slice_lookup.
      destruct (decide (i - 15 + k' < Nat.min (length strings) (i + 15))%nat); [|discriminate].
      apply Hbefore; lia.
  - intros Hnone.
    replace (first_stamp (slice strings (i - 15) (Nat.min (length strings) (i + 15))))
      with (@None (exn + datetime)); [reflexivity|].
    symmetry. apply first_stamp_none, Forall_lookup. intros k s.
    rewrite slice_lookup.
    destruct (decide (i - 15 + k < Nat.min (length strings) (i + 15))%nat); [|discriminate].
    apply Hnone; lia.
  - eexists. split; reflexivity.
Qed.

End Stamps.

Lemma pick_published_at_window_witness :
  (sample_title <> [] /\ first_at sample_strings sample_title 1)
  /\ @pick_published_at basic_latin sample_strings (Some sample_title)
     = inr (Some (mk_datetime 2024 3 15 9 30 0 0)).
Proof.
  assert (first_at sample_strings sample_title 1) as Hfirst.
  { split; [reflexivity|]. intros [|j] Hj; [discriminate|lia]. }
  split; [split; [discriminate|exact Hfirst]|].
  refine (proj1 (@pick_published_at_window basic_latin sample_strings sample_title 1%nat
                   _ Hfirst) 2%nat (u"15/03/2024 - 09:30")
                [("2", u"09:30"); ("1", u"15/03/2024")] _ _ _ _ _).
  - discriminate.
  - lia.
  - lia.
  - reflexivity.
  - reflexivity.
  - intros [|[|j']] s' ? ? Hs'; [| |lia]; injection Hs' as <-; reflexivity.
Defined.

(** C2 as the specification words it, with a window that reaches fifteen
    entries past the title, fails: the date fifteen entries after the
    title is not found in the window, and the date at the head of the
    sequence is returned. *)
Lemma pick_published_at_window_not_symmetric :
  ~ (forall (strings : list str) (title : str) (i : nat) (r : exn + datetime),
       @flattened basic_latin strings -> first_at strings title i ->
       @first_stamp basic_latin (symmetric_window strings i) = Some r ->
       @pick_published_at basic_latin strings (Some title) = sum_map id Some r).
Proof.
  intros claim.
  specialize (claim far_strings sample_title 16%nat
                (inr (mk_datetime 2024 3 15 9 30 0 0))).
  assert (@flattened basic_latin far_strings) as Hflat
    by (repeat constructor; try discriminate; reflexivity).
  assert (first_at far_strings sample_title 16) as Hfirst.
  { split; [reflexivity|]. intros j Hj.
    do 16 (destruct j as [|j]; [discriminate|]). lia. }
  specialize (claim Hflat Hfirst eq_refl).
  vm_compute in claim. discriminate.
Qed.

(** ** The anchor of the heuristics *)

Section Anchor.
Context `{Platform}.

(** C10.  When the title occurs in a flattened sequence, however many
    times, and [i] is its first position, no occurrence lies before [i] and
    the three positional heuristics work from [i]: the timestamp window is
    taken around [i], the body starts after [i], and the tag fallback scans
    the entries before [i]. *)
Theorem heuristics_anchor_at_first_occurrence (strings : list str) (title : str) (i : nat) :
  flattened strings -> first_at strings title i ->
  (forall j, strings !! j = Some title -> (i <= j)%nat)
  /\ index strings title = i
  /\ pick_published_at strings (Some title) = stamp_around strings i
  /\ extract_body strings (Some title) = body_after strings i
  /\ (forall soup, link_tags soup = [] ->
        extract_tags soup strings (Some title) = tag_before strings i).
Proof.
  intros Hflat Hfirst. pose proof Hfirst as [Hi Hlow].
  destruct (flattened_entry _ _ _ Hflat Hi) as [Hne _].
  split; [|split; [|split; [|split]]].
  - intros j Hj. destruct (le_lt_dec i j) as [|Hlt]; [assumption|].
    exfalso. exact (Hlow j Hlt Hj).
  - apply index_first. exact Hfirst.
  - apply pick_published_at_anchored; assumption.
  - unfold extract_body, body_after.
    rewrite (located_found _ _ i Hne Hi), (index_first _ _ _ Hfirst). reflexivity.
  - intros soup Hnone. unfold extract_tags, tag_before.
    rewrite Hnone, (located_found _ _ i Hne Hi), (index_first _ _ _ Hfirst). reflexivity.
Qed.

End Anchor.

Lemma heuristics_anchor_at_first_occurrence_witness :
  (@flattened basic_latin sample_strings /\ first_at sample_strings sample_title 1)
  /\ sample_strings !! 9%nat = Some sample_title
  /\ @pick_published_at basic_latin sample_strings (Some sample_title)
     = @stamp_around basic_latin sample_strings 1
  /\ @stamp_around basic_latin sample_strings 1
     = inr (Some (mk_datetime 2024 3 15 9 30 0 0))
  /\ @extract_body basic_latin sample_strings (Some sample_title)
     <> @body_after basic_latin sample_strings 9.
Proof.
  assert (@flattened basic_latin sample_strings) as Hflat
    by (repeat constructor; try discriminate; reflexivity).
  assert (first_at sample_strings sample_title 1) as Hfirst.
  { split; [reflexivity|]. intros [|j] Hj; [discriminate|lia]. }
  pose proof (@heuristics_anchor_at_first_occurrence basic_latin
                sample_strings sample_title 1%nat Hflat Hfirst) as (_ & _ & Hstamp & Hbody & _).
  split; [split; assumption|]. split; [reflexivity|].
  split; [exact Hstamp|]. split; [reflexivity|].
  rewrite Hbody. vm_compute. discriminate.
Defined.


(** ** Reading a timestamp back *)

Section Dates.
Context `{Platform}.

Lemma ascii_digit_char (n : Z) : (0 <= n <= 9)%Z -> ascii_digit (digit_char n) = Some n.
Proof.
  intros Hn. unfold ascii_digit, digit_char, between.
  assert ((48 <=? 48 + Z.to_N n) = true) as -> by (apply N.leb_le; lia).
  assert ((48 + Z.to_N n <=? 57) = true) as -> by (apply N.leb_le; lia).
  simpl. f_equal. lia.
Qed.

Lemma num2_fmt2 (n : Z) :
  (0 <= n <= 99)%Z ->
  num2 (digit_char (n / 10)) (digit_char (n mod 10)) = Some n.
Proof.
  intros Hn. unfold num2.
  rewrite !ascii_digit_char by (Z.to_euclidean_division_equations; lia).
  f_equal. Z.to_euclidean_division_equations; lia.
Qed.

Lemma num4_fmt4 (n : Z) :
  (0 <= n <= 9999)%Z ->
  num4 (digit_char (n / 1000)) (digit_char (n / 100 mod 10))
       (digit_char (n / 10 mod 10)) (digit_char (n mod 10)) = Some n.
Proof.
  intros Hn. unfold num4, num2.
  rewrite !ascii_digit_char by (Z.to_euclidean_division_equations; lia).
  f_equal. Z.to_euclidean_division_equations; lia.
Qed.

Lemma valid_datetime_bounds (d : datetime) :
  valid_datetime d = true ->
  (1 <= year d <= 9999 /\ 1 <= month d <= 12 /\ 1 <= day d <= 31
   /\ 0 <= hour d <= 23 /\ 0 <= minute d <= 59)%Z.
Proof.
  unfold valid_datetime. rewrite !andb_true_iff, !Z.leb_le.
  intros [[[[[[[[[[[[[? ?] ?] ?] ?] Hd] ?] ?] ?] ?] ?] ?] ?] ?].
  assert (days_in_month (year d) (month d) <= 31)%Z.
  { unfold days_in_month. repeat destruct (_ : bool); lia. }
  lia.
Qed.

Lemma fromisoformat_isoformat (d : datetime) :
  valid_datetime d = true -> second d = 0%Z -> microsecond d = 0%Z ->
  fromisoformat (isoformat_minutes d) = inr d.
Proof.
  intros Hv Hs Hu. pose proof (valid_datetime_bounds d Hv) as (Hy & Hm & Hd & Hh & Hmi).
  destruct d as [y m dd h mi s us]. simpl in *. subst s us.
  unfold isoformat_minutes, fmt4, fmt2, fromisoformat. simpl.
  rewrite num4_fmt4, !num2_fmt2 by lia.
  rewrite Hv. reflexivity.
Qed.


Lemma strptime_valid (fmt : regex) (s : str) (d : datetime) :
  strptime fmt s = inr d ->
  valid_datetime d = true /\ second d = 0%Z /\ microsecond d = 0%Z.
Proof.
  unfold strptime. destruct (re_match fmt s) as [[g [|c rest]]|]; try discriminate.
  destruct (field g "Y" 1900), (field g "m" 1), (field g "d" 1),
    (field g "H" 0), (field g "M" 0); try discriminate.
  destruct (valid_datetime _) eqn:E; [|discriminate].
  intros [= <-]. split; [exact E|split; reflexivity].
Qed.

Lemma first_stamp_valid (l : list str) (d : datetime) :
  first_stamp l = Some (inr d) ->
  valid_datetime d = true /\ second d = 0%Z /\ microsecond d = 0%Z.
Proof.
  induction l as [|s l IH]; simpl; [discriminate|].
  destruct (re_search DT_RE s) as [g|]; [|exact IH].
  intros [= E]. eapply strptime_valid. exact E.
Qed.

Lemma Forall_slice {A} (P : A -> Prop) (l : list A) (a b : nat) :
  Forall P l -> Forall P (slice l a b).
Proof. intros Hl. unfold slice. apply Forall_take, Forall_drop. exact Hl. Qed.

Lemma pick_published_at_some (strings : list str) (title : option str) (d : datetime) :
  pick_published_at strings title = inr (Some d) ->
  valid_datetime d = true /\ second d = 0%Z /\ microsecond d = 0%Z.
Proof.
  unfold pick_published_at.
  destruct (match located strings title with Some _ => _ | None => _ end) as [[e|d']|] eqn:E.
  - discriminate.
  - intros [= ->]. destruct (located strings title); [|discriminate].
    eapply first_stamp_valid. exact E.
  - destruct (first_stamp strings) as [[e|d']|] eqn:E'; try discriminate.
    intros [= ->]. eapply first_stamp_valid. exact E'.
Qed.

Lemma pick_published_at_none (strings : list str) (title : option str) :
  pick_published_at strings title = inr None
  <-> Forall (fun s => re_search DT_RE s = None) strings.
Proof.
  rewrite <- first_stamp_none. unfold pick_published_at.
  destruct (match located strings title with Some _ => _ | None => _ end) as [r|] eqn:E.
  - split.
    + destruct r; discriminate.
    + intros Hnone. exfalso. destruct (located strings title) as [w|]; [|discriminate].
      apply first_stamp_none in Hnone.
      apply (Forall_slice _ _ (Nat.max 0 (index strings w - 15))
               (Nat.min (length strings) (index strings w + 15))) in Hnone.
      apply first_stamp_none in Hnone. congruence.
  - destruct (first_stamp strings) as [[e|d]|]; split; (discriminate || reflexivity).
Qed.

Lemma rstrip_cons (c : char) (x : str) : isspace c = false -> rstrip (c :: x) = c :: rstrip x.
Proof.
  intros Ec. unfold rstrip. simpl.
  rewrite (lstrip_app _ [] c Ec), rev_app_distr. reflexivity.
Qed.

Lemma strip_idem (s : str) : strip (strip s) = strip s.
Proof.
  unfold strip. destruct (lstrip s) as [|c x] eqn:Ex; [reflexivity|].
  assert (isspace c = false) as Ec by (eapply lstrip_head; exact Ex).
  rewrite (rstrip_cons c x Ec), (lstrip_fixed c _ Ec), <- (rstrip_cons c x Ec).
  apply rstrip_idem.
Qed.

(** The sequence [parse_article] works on is a flattened one. *)
Lemma flatten_flattened (soup : Soup) : flattened (flatten soup).
Proof.
  unfold flattened, flatten. apply Forall_forall. intros s Hs.
  apply list_elem_of_omap in Hs as [x [_ Hx]].
  destruct (non_empty x); [|discriminate]. simpl in Hx.
  destruct (strip x) as [|c r] eqn:E; [discriminate|].
  injection Hx as <-. split; [discriminate|].
  rewrite <- E. apply strip_idem.
Qed.

End Dates.

(** ** One article *)

Section Crawl.
Context `{Platform}.
Variable web : Web.

Lemma bind_done {A B} (c : M A) (k : A -> M B) (t : trace) (b : B) (t' : trace) :
  bind c k t = Done b t' -> exists a t1, c t = Done a t1 /\ k a t1 = Done b t'.
Proof.
  unfold bind. destruct (c t) as [a t1| |]; try discriminate.
  intros E. exists a, t1. split; [reflexivity|exact E].
Qed.

Lemma parse_article_eq (u : str) (t : trace) :
  parse_article web u t =
  match web t u with
  | None => Raised RequestException (t ++ [Get ArticlePage u])
  | Some soup =>
    let strings := flatten soup in
    let title := normalize_title (title_string soup) in
    match pick_published_at strings title with
    | inl e => Raised e (t ++ [Get ArticlePage u])
    | inr None => Done None (t ++ [Get ArticlePage u])
    | inr (Some dt) =>
      Done (Some {| url := u; title := title;
                    published_at := isoformat_minutes dt;
                    tags := extract_tags soup strings title;
                    body := extract_body strings title |})
           (t ++ [Get ArticlePage u])
    end
  end.
Proof.
  unfold parse_article, bind, fetch. destruct (web t u) as [soup|]; [|reflexivity].
  cbv zeta. destruct (pick_published_at _ _) as [e|[dt|]]; reflexivity.
Qed.

Lemma visit_eq (cutoff : option datetime) (verbose : bool) (st : PageState)
    (u : str) (t : trace) :
  visit web cutoff verbose st u t =
  match parse_article web u (t ++ [SeenAdd u]) with
  | Raised e t' => Raised e t'
  | Starved => Starved
  | Done None t' =>
    Done {| st_seen := {[u]} ∪ st_seen st; st_articles := st_articles st;
            st_oldest := st_oldest st |} t'
  | Done (Some item) t' =>
    match fromisoformat (published_at item) with
    | inl e => Raised e t'
    | inr dt =>
      if in_range cutoff dt
      then match verbose, title item with
           | true, None => Raised TypeError t'
           | _, _ =>
             Done {| st_seen := {[u]} ∪ st_seen st;
                     st_articles := st_articles st ++ [item];
                     st_oldest := Some (oldest_with (st_oldest st) dt) |} t'
           end
      else Done {| st_seen := {[u]} ∪ st_seen st; st_articles := st_articles st;
                   st_oldest := Some (oldest_with (st_oldest st) dt) |} t'
    end
  end.
Proof.
  unfold visit, bind, emit.
  destruct (parse_article web u (t ++ [SeenAdd u])) as [[item|] t'|e t'|]; try reflexivity.
  unfold lift. destruct (fromisoformat (published_at item)) as [e|dt]; [reflexivity|].
  unfold ret, oldest_with. destruct (in_range cutoff dt); [|reflexivity].
  destruct verbose, (title item); reflexivity.
Qed.

Lemma parse_article_done (u : str) (t : trace) (r : option Article) (t' : trace) :
  parse_article web u t = Done r t' ->
  t' = t ++ [Get ArticlePage u]
  /\ forall item, r = Some item ->
       url item = u
       /\ exists dt, published_at item = isoformat_minutes dt
                     /\ fromisoformat (published_at item) = inr dt.
Proof.
  rewrite parse_article_eq. destruct (web t u) as [soup|]; [|discriminate].
  cbv zeta. destruct (pick_published_at _ _) as [e|[dt|]] eqn:E; [discriminate| |].
  - intros [= <- <-]. split; [reflexivity|]. intros item [= <-].
    split; [reflexivity|]. exists dt. split; [reflexivity|].
    destruct (pick_published_at_some _ _ _ E) as (Hv & Hs & Hu).
    apply fromisoformat_isoformat; assumption.
  - intros [= <- <-]. split; [reflexivity|]. discriminate.
Qed.

(** C3.  For a document that was fetched, extraction returns null exactly
    when no entry of its flattened text holds a match of the timestamp
    pattern; a record that is returned carries a [published_at] that
    reads back as a time; and in the crawl an article whose extraction
    returned null changes neither the records nor the oldest-on-page time,
    the loop going on with the remaining links. *)
Theorem extraction_miss_is_dropped :
  (forall (u : str) (t : trace) (soup : Soup),
      web t u = Some soup ->
      ((exists t', parse_article web u t = Done None t')
       <-> Forall (fun s => re_search DT_RE s = None) (flatten soup)))
  /\ (forall (u : str) (t : trace) (item : Article) (t' : trace),
        parse_article web u t = Done (Some item) t' ->
        exists dt, fromisoformat (published_at item) = inr dt)
  /\ (forall (cutoff : option datetime) (verbose : bool) (st : PageState)
             (u : str) (urls : list str) (t t' : trace),
        parse_article web u (t ++ [SeenAdd u]) = Done None t' ->
        visit_all web cutoff verbose st (u :: urls) t
        = visit_all web cutoff verbose
            {| st_seen := {[u]} ∪ st_seen st; st_articles := st_articles st;
               st_oldest := st_oldest st |} urls t').
Proof.
  split; [|split].
  - intros u t soup Hweb. rewrite parse_article_eq, Hweb. cbv zeta.
    rewrite <- (pick_published_at_none _ (normalize_title (title_string soup))).
    destruct (pick_published_at _ _) as [e|[dt|]]; split;
      try discriminate; try (intros [t' E]; discriminate).
    + intros _. reflexivity.
    + intros _. eexists. reflexivity.
  - intros u t item t' Hp.
    destruct (parse_article_done _ _ _ _ Hp) as [_ Hitem].
    destruct (Hitem item eq_refl) as (_ & dt & _ & Hdt). exists dt. exact Hdt.
  - intros cutoff verbose st u urls t t' Hp. simpl. unfold bind.
    rewrite visit_eq, Hp. reflexivity.
Qed.

(** ** The crawl *)

Lemma seen_adds_snoc (t : trace) (e : event) :
  seen_adds (t ++ [e]) = seen_adds t ++ match e with SeenAdd u => [u] | _ => [] end.
Proof. unfold seen_adds. rewrite omap_app. destruct e; reflexivity. Qed.

Lemma article_gets_snoc (t : trace) (e : event) :
  article_gets (t ++ [e])
  = article_gets t ++ match e with Get ArticlePage u => [u] | _ => [] end.
Proof. unfold article_gets. rewrite omap_app. destruct e as [| |[]| |]; reflexivity. Qed.

Lemma listing_gets_snoc (t : trace) (e : event) :
  listing_gets (t ++ [e])
  = listing_gets t ++ match e with Get Listing u => [u] | _ => [] end.
Proof. unfold listing_gets. rewrite omap_app. destruct e as [| |[]| |]; reflexivity. Qed.

Lemma visit_done (cutoff : option datetime) (verbose : bool) (st : PageState)
    (u : str) (t : trace) (st' : PageState) (t' : trace) :
  visit web cutoff verbose st u t = Done st' t' ->
  t' = (t ++ [SeenAdd u]) ++ [Get ArticlePage u]
  /\ st_seen st' = {[u]} ∪ st_seen st
  /\ (st_articles st' = st_articles st
      \/ exists item, st_articles st' = st_articles st ++ [item]
                      /\ url item = u /\ within cutoff item).
Proof.
  rewrite visit_eq.
  destruct (parse_article web u (t ++ [SeenAdd u])) as [r t1| |] eqn:Hp; try discriminate.
  destruct (parse_article_done _ _ _ _ Hp) as [-> Hitem].
  destruct r as [item|].
  - destruct (Hitem item eq_refl) as (Hu & dt & _ & Hdt). rewrite Hdt.
    destruct (in_range cutoff dt) eqn:Hr.
    + destruct verbose, (title item); try discriminate;
        intros [= <- <-]; (split; [reflexivity|split; [reflexivity|]]);
        right; exists item; (split; [reflexivity|split; [exact Hu|]]);
        exists dt; (split; [exact Hdt|exact Hr]).
    + intros [= <- <-]. split; [reflexivity|split; [reflexivity|left; reflexivity]].
  - intros [= <- <-]. split; [reflexivity|split; [reflexivity|left; reflexivity]].
Qed.

Lemma visit_inv (cutoff : option datetime) (verbose : bool) (st : PageState)
    (u : str) (t : trace) (st' : PageState) (t' : trace) :
  crawl_inv cutoff (st_seen st) (st_articles st) t ->
  u ∉ st_seen st ->
  visit web cutoff verbose st u t = Done st' t' ->
  crawl_inv cutoff (st_seen st') (st_articles st') t'.
Proof.
  intros (Hnd & Hin & Hgets & Hsub & Hall) Hnew Hv.
  destruct (visit_done _ _ _ _ _ _ _ Hv) as (-> & Hseen & Harts).
  unfold crawl_inv.
  rewrite !seen_adds_snoc, !article_gets_snoc, !app_nil_r, Hseen, Hgets.
  split; [|split; [|split; [reflexivity|]]].
  - apply NoDup_app. split; [exact Hnd|].
    split; [|apply NoDup_singleton].
    intros x Hx Hxu. apply list_elem_of_singleton in Hxu as ->.
    apply Hnew, Hin, Hx.
  - intros x Hx. apply elem_of_app in Hx as [Hx|Hx].
    + apply elem_of_union_r, Hin, Hx.
    + apply list_elem_of_singleton in Hx as ->. apply elem_of_union_l, elem_of_singleton.
      reflexivity.
  - destruct Harts as [->|(item & -> & Hu & Hw)].
    + split; [apply sublist_inserts_r; exact Hsub|exact Hall].
    + rewrite map_app. simpl. rewrite Hu. split.
      * apply sublist_app; [exact Hsub|reflexivity].
      * apply Forall_app. split; [exact Hall|]. constructor; [exact Hw|constructor].
Qed.

Lemma visit_all_inv (cutoff : option datetime) (verbose : bool) (urls : list str) :
  forall (st : PageState) (t : trace) (st' : PageState) (t' : trace),
    crawl_inv cutoff (st_seen st) (st_articles st) t ->
    NoDup urls -> (forall u, u ∈ urls -> u ∉ st_seen st) ->
    visit_all web cutoff verbose st urls t = Done st' t' ->
    crawl_inv cutoff (st_seen st') (st_articles st') t'.
Proof.
  induction urls as [|u urls IH]; intros st t st' t' Hinv Hnd Hnew; simpl.
  - intros [= <- <-]. exact Hinv.
  - intros Hb. apply bind_done in Hb as (st1 & t1 & Hv & Hrest).
    inversion Hnd as [|? ? Hu Hnd']; subst.
    assert (u ∉ st_seen st) as Hfresh by (apply Hnew; left).
    pose proof (visit_inv _ _ _ _ _ _ _ Hinv Hfresh Hv) as Hinv1.
    destruct (visit_done _ _ _ _ _ _ _ Hv) as (_ & Hseen & _).
    apply (IH st1 t1 st' t' Hinv1 Hnd'); [|exact Hrest].
    intros x Hx. rewrite Hseen. intros Hin.
    apply elem_of_union in Hin as [Hin|Hin].
    + apply elem_of_singleton in Hin as ->. exact (Hu Hx).
    + apply (Hnew x); [right; exact Hx|exact Hin].
Qed.

Lemma sorted_new_links (links seen : gset str) :
  NoDup (sorted (new_links links seen))
  /\ forall u, u ∈ sorted (new_links links seen) -> u ∉ seen.
Proof.
  unfold sorted.
  pose proof (merge_sort_Permutation (fun a b : str => str_leb a b) (new_links links seen))
    as Hperm.
  split.
  - rewrite Hperm. apply NoDup_filter, NoDup_elements.
  - intros u Hu. rewrite Hperm in Hu. apply list_elem_of_filter in Hu as [Hu _]. exact Hu.
Qed.

Lemma crawl_inv_listing (cutoff : option datetime) (seen : gset str)
    (arts : list Article) (t : trace) (u : str) :
  crawl_inv cutoff seen arts t -> crawl_inv cutoff seen arts (t ++ [Get Listing u]).
Proof.
  unfold crawl_inv. rewrite seen_adds_snoc, article_gets_snoc, !app_nil_r. tauto.
Qed.

Lemma scrape_loop_inv (cutoff : option datetime) (max_pages : option Z) (verbose : bool)
    (fuel : nat) :
  forall (seen : gset str) (arts : list Article) (page : Z) (t : trace)
         (out : list Article) (t' : trace),
    crawl_inv cutoff seen arts t ->
    scrape_loop web fuel cutoff max_pages verbose seen arts page t = Done out t' ->
    exists seen', crawl_inv cutoff seen' out t'.
Proof.
  induction fuel as [|fuel IH]; intros seen arts page t out t' Hinv; simpl; [discriminate|].
  destruct (page_limit_reached max_pages page).
  { intros [= <- <-]. exists seen. exact Hinv. }
  unfold bind at 1, fetch.
  destruct (web t (list_url page)) as [soup|]; [|discriminate].
  apply (crawl_inv_listing _ _ _ _ (list_url page)) in Hinv.
  destruct (new_links (page_links soup) seen) as [|x l] eqn:Enew.
  { intros [= <- <-]. exists seen. exact Hinv. }
  rewrite <- Enew. intros Hb. apply bind_done in Hb as (st & t1 & Hv & Hrest).
  destruct (sorted_new_links (page_links soup) seen) as [Hnd Hfresh].
  pose proof (visit_all_inv cutoff verbose _
                {| st_seen := seen; st_articles := arts; st_oldest := None |}
                _ st t1 Hinv Hnd Hfresh Hv) as Hinv1.
  destruct (crossed cutoff (st_oldest st)).
  - injection Hrest as <- <-. exists (st_seen st). exact Hinv1.
  - exact (IH _ _ _ _ _ _ Hinv1 Hrest).
Qed.

Lemma scrape_articles_inv (fuel : nat) (cutoff : option datetime) (max_pages : option Z)
    (verbose : bool) (arts : list Article) (t : trace) :
  scrape_articles web fuel cutoff max_pages verbose [] = Done arts t ->
  exists seen, crawl_inv cutoff seen arts t.
Proof.
  unfold scrape_articles, bind, emit. simpl app. apply scrape_loop_inv.
  repeat split; try constructor. intros u Hu. inversion Hu.
Qed.

(** C1.  Every record of a completed run with cutoff [D] carries a
    [published_at] that reads back as a time at or after [D].  Visiting an
    article whose time precedes [D] leaves the records as they were, marks
    the URL seen and takes the time into the oldest-on-page minimum. *)
Theorem cutoff_is_respected :
  (forall (fuel : nat) (D : datetime) (max_pages : option Z) (verbose : bool)
          (arts : list Article) (t : trace),
      scrape_articles web fuel (Some D) max_pages verbose [] = Done arts t ->
      Forall (fun item => exists dt, fromisoformat (published_at item) = inr dt
                                     /\ dt_geb dt D = true) arts)
  /\ (forall (D : datetime) (verbose : bool) (st : PageState) (u : str) (t : trace)
             (item : Article) (dt : datetime) (t' : trace),
        parse_article web u (t ++ [SeenAdd u]) = Done (Some item) t' ->
        fromisoformat (published_at item) = inr dt ->
        dt_ltb dt D = true ->
        visit web (Some D) verbose st u t
        = Done {| st_seen := {[u]} ∪ st_seen st; st_articles := st_articles st;
                  st_oldest := Some (oldest_with (st_oldest st) dt) |} t').
Proof.
  split.
  - intros fuel D max_pages verbose arts t Hrun.
    destruct (scrape_articles_inv _ _ _ _ _ _ Hrun) as (seen & _ & _ & _ & _ & Hall).
    exact Hall.
  - intros D verbose st u t item dt t' Hp Hdt Hlt.
    rewrite visit_eq, Hp, Hdt. unfold in_range, dt_geb. rewrite Hlt. reflexivity.
Qed.

(** C6.  In a completed run no URL is added to the seen-set twice, the
    article pages fetched are the URLs added, each once, and no two
    records share a URL, every record's URL being one that was visited. *)
Theorem urls_are_visited_once (fuel : nat) (cutoff : option datetime)
    (max_pages : option Z) (verbose : bool) (arts : list Article) (t : trace) :
  scrape_articles web fuel cutoff max_pages verbose [] = Done arts t ->
  NoDup (seen_adds t)
  /\ article_gets t = seen_adds t
  /\ NoDup (article_gets t)
  /\ NoDup (map url arts)
  /\ (forall item, item ∈ arts -> url item ∈ seen_adds t).
Proof.
  intros Hrun.
  destruct (scrape_articles_inv _ _ _ _ _ _ Hrun) as (seen & Hnd & _ & Hgets & Hsub & _).
  split; [exact Hnd|]. split; [exact Hgets|]. split; [rewrite Hgets; exact Hnd|].
  split; [exact (sublist_NoDup _ _ Hnd Hsub)|].
  intros item Hitem. eapply elem_of_sublist; [|exact Hsub].
  apply list_elem_of_fmap. exists item. split; [reflexivity|exact Hitem].
Qed.

End Crawl.

Lemma extraction_miss_is_dropped_witness :
  sample_web [] url_b = Some soup_b
  /\ ((exists t', @parse_article basic_latin sample_web url_b [] = Done None t')
      <-> Forall (fun s => @re_search basic_latin DT_RE s = None)
                 (@flatten basic_latin soup_b)).
Proof.
  split; [reflexivity|].
  exact (proj1 (@extraction_miss_is_dropped basic_latin sample_web) url_b [] soup_b eq_refl).
Defined.

Lemma cutoff_is_respected_witness :
  match @scrape_articles basic_latin sample_web 5 (Some march_2024) None false [] with
  | Done arts _ =>
    Forall (fun item => exists dt, fromisoformat (published_at item) = inr dt
                                   /\ dt_geb dt march_2024 = true) arts
    /\ map url arts = [url_a]
  | _ => False
  end.
Proof.
  destruct (@scrape_articles basic_latin sample_web 5 (Some march_2024) None false [])
    as [arts t| |] eqn:Hrun.
  - split.
    + exact (proj1 (@cutoff_is_respected basic_latin sample_web)
               5%nat march_2024 None false arts t Hrun).
    + vm_compute in Hrun. injection Hrun as <- _. reflexivity.
  - vm_compute in Hrun. discriminate.
  - vm_compute in Hrun. discriminate.
Defined.

Lemma urls_are_visited_once_witness :
  match @scrape_articles basic_latin sample_web 5 None None false [] with
  | Done arts t =>
    NoDup (seen_adds t) /\ seen_adds t = [url_a; url_b; url_c]
    /\ NoDup (map url arts)
  | _ => False
  end.
Proof.
  destruct (@scrape_articles basic_latin sample_web 5 None None false [])
    as [arts t| |] eqn:Hrun.
  - destruct (@urls_are_visited_once basic_latin sample_web 5%nat None None false arts t Hrun)
      as (Hnd & _ & _ & Hurls & _).
    split; [exact Hnd|]. split; [|exact Hurls].
    vm_compute in Hrun. injection Hrun as _ <-. reflexivity.
  - vm_compute in Hrun. discriminate.
  - vm_compute in Hrun. discriminate.
Defined.

(** ** Pagination *)

Section Pagination.
Context `{Platform}.
Variable web : Web.

Lemma parse_article_ended (u : str) (t : trace) :
  ended (fun t' => listing_gets t' = listing_gets t) (parse_article web u t).
Proof.
  rewrite parse_article_eq. destruct (web t u) as [soup|]; cbv zeta.
  - destruct (pick_published_at _ _) as [e|[dt|]]; simpl;
      rewrite listing_gets_snoc; apply app_nil_r.
  - simpl. rewrite listing_gets_snoc. apply app_nil_r.
Qed.

Lemma visit_ended (cutoff : option datetime) (verbose : bool) (st : PageState)
    (u : str) (t : trace) :
  ended (fun t' => listing_gets t' = listing_gets t) (visit web cutoff verbose st u t).
Proof.
  rewrite visit_eq. pose proof (parse_article_ended u (t ++ [SeenAdd u])) as Hp.
  rewrite listing_gets_snoc, app_nil_r in Hp.
  destruct (parse_article web u (t ++ [SeenAdd u])) as [[item|] t1|e t1|]; simpl in *;
    try assumption.
  destruct (fromisoformat (published_at item)); [exact Hp|].
  destruct (in_range cutoff _); [|exact Hp].
  destruct verbose, (title item); exact Hp.
Qed.

Lemma visit_all_ended (cutoff : option datetime) (verbose : bool) (urls : list str) :
  forall (st : PageState) (t : trace),
    ended (fun t' => listing_gets t' = listing_gets t)
          (visit_all web cutoff verbose st urls t).
Proof.
  induction urls as [|u urls IH]; intros st t; simpl; [reflexivity|].
  unfold bind. pose proof (visit_ended cutoff verbose st u t) as Hv.
  destruct (visit web cutoff verbose st u t) as [st1 t1|e t1|]; simpl in *; try assumption.
  pose proof (IH st1 t1) as Hrest.
  destruct (visit_all web cutoff verbose st1 urls t1); simpl in *; congruence.
Qed.

(** With a page limit [m], a loop at page [page] fetches at most
    [m - page] further listing pages, and it ends. *)
Lemma scrape_loop_bounded (cutoff : option datetime) (verbose : bool) (m : Z) (fuel : nat) :
  forall (seen : gset str) (arts : list Article) (page : Z) (t : trace),
    (Z.to_nat (m - page) < fuel)%nat ->
    ended (fun t' => (length (listing_gets t')
                      <= length (listing_gets t) + Z.to_nat (m - page))%nat)
          (scrape_loop web fuel cutoff (Some m) verbose seen arts page t).
Proof.
  induction fuel as [|fuel IH]; intros seen arts page t Hfuel; [lia|]. simpl.
  destruct (m <=? page)%Z eqn:Hlim; [simpl; lia|].
  apply Z.leb_gt in Hlim.
  unfold bind at 1, fetch.
  destruct (web t (list_url page)) as [soup|]; simpl;
    [|rewrite listing_gets_snoc, length_app; simpl; lia].
  destruct (new_links (page_links soup) seen) as [|x l] eqn:Enew;
    [simpl; rewrite listing_gets_snoc, length_app; simpl; lia|].
  rewrite <- Enew. unfold bind.
  match goal with |- context [visit_all web cutoff verbose ?s ?us ?tr] =>
    pose proof (visit_all_ended cutoff verbose us s tr) as Hv;
    destruct (visit_all web cutoff verbose s us tr) as [st t1|e t1|]
  end; simpl in Hv; [| |contradiction].
  - rewrite listing_gets_snoc in Hv.
    destruct (crossed cutoff (st_oldest st)).
    + simpl. rewrite Hv, length_app. simpl. lia.
    + assert (Z.to_nat (m - (page + 1)) < fuel)%nat as Hfuel' by lia.
      pose proof (IH (st_seen st) (st_articles st) (page + 1)%Z t1 Hfuel') as Hrec.
      destruct (scrape_loop web fuel cutoff (Some m) verbose _ _ _ t1); simpl in *;
        try contradiction; rewrite Hv, length_app in Hrec; simpl in Hrec; lia.
  - simpl. rewrite Hv, listing_gets_snoc, length_app. simpl. lia.
Qed.

(** On the last page before the limit exactly one more listing page is
    fetched. *)
Lemma scrape_loop_last_page (cutoff : option datetime) (verbose : bool) (m : Z) (fuel : nat)
    (seen : gset str) (arts : list Article) (page : Z) (t : trace) :
  m = (page + 1)%Z -> (2 <= fuel)%nat ->
  ended (fun t' => listing_gets t' = listing_gets t ++ [list_url page])
        (scrape_loop web fuel cutoff (Some m) verbose seen arts page t).
Proof.
  intros -> Hfuel. destruct fuel as [|[|fuel]]; try lia. cbn [scrape_loop].
  unfold page_limit_reached.
  assert ((page + 1 <=? page)%Z = false) as -> by (apply Z.leb_gt; lia).
  rewrite Z.leb_refl.
  unfold bind at 1, fetch.
  destruct (web t (list_url page)) as [soup|]; simpl; [|apply listing_gets_snoc].
  destruct (new_links (page_links soup) seen) as [|x l] eqn:Enew;
    [simpl; apply listing_gets_snoc|].
  rewrite <- Enew. unfold bind.
  match goal with |- context [visit_all web cutoff verbose ?s ?us ?tr] =>
    pose proof (visit_all_ended cutoff verbose us s tr) as Hv;
    destruct (visit_all web cutoff verbose s us tr) as [st t1|e t1|]
  end; simpl in Hv; [| |contradiction].
  - rewrite listing_gets_snoc in Hv. destruct (crossed cutoff (st_oldest st)); exact Hv.
  - simpl. rewrite Hv. apply listing_gets_snoc.
Qed.

(** C5 (as amended).  With a page limit of 2 a run ends after fetching at
    most two listing pages, whatever the cutoff and the pages hold.  It
    fetches exactly the first two when the first listing page gives at
    least one link and the oldest time extracted from its articles does
    not precede the cutoff; with no cutoff configured the second condition
    always holds. *)
Theorem page_limit_two (fuel : nat) (cutoff : option datetime) (verbose : bool) :
  (3 <= fuel)%nat ->
  ended (fun t => (length (listing_gets t) <= 2)%nat)
        (scrape_articles web fuel cutoff (Some 2%Z) verbose [])
  /\ (forall (soup : Soup) (st : PageState) (t1 : trace),
        web [NewSession] (list_url 0) = Some soup ->
        new_links (page_links soup) ∅ <> [] ->
        visit_all web cutoff verbose
          {| st_seen := ∅; st_articles := []; st_oldest := None |}
          (sorted (new_links (page_links soup) ∅))
          [NewSession; Get Listing (list_url 0)] = Done st t1 ->
        crossed cutoff (st_oldest st) = false ->
        ended (fun t => listing_gets t = [list_url 0; list_url 1])
              (scrape_articles web fuel cutoff (Some 2%Z) verbose []))
  /\ (forall st : PageState, crossed None (st_oldest st) = false).
Proof.
  intros Hfuel. split; [|split].
  - unfold scrape_articles, bind, emit. simpl app.
    pose proof (scrape_loop_bounded cutoff verbose 2 fuel ∅ [] 0 [NewSession]) as Hb.
    simpl in Hb. apply Hb. lia.
  - intros soup st t1 Hweb Hnew Hv Hcross.
    unfold scrape_articles, bind at 1, emit. simpl app.
    destruct fuel as [|fuel]; [lia|]. cbn [scrape_loop]. unfold page_limit_reached.
    change (2 <=? 0)%Z with false. cbv iota.
    unfold bind at 1, fetch. rewrite Hweb.
    pose proof (visit_all_ended cutoff verbose (sorted (new_links (page_links soup) ∅))
                  {| st_seen := ∅; st_articles := []; st_oldest := None |}
                  [NewSession; Get Listing (list_url 0)]) as Hl.
    rewrite Hv in Hl. simpl in Hl.
    pose proof (scrape_loop_last_page cutoff verbose 2 fuel (st_seen st) (st_articles st)
                  (0 + 1) t1 eq_refl ltac:(lia)) as Hlast.
    rewrite Hl in Hlast.
    destruct (new_links (page_links soup) ∅) as [|x l] eqn:Enew; [congruence|].
    unfold bind at 1. simpl app. rewrite Hv, Hcross. exact Hlast.
  - intros st. reflexivity.
Qed.

End Pagination.

Lemma page_limit_two_witness :
  (3 <= 5)%nat
  /\ ended (fun t => listing_gets t = [@list_url 0; @list_url 1])
           (@scrape_articles basic_latin sample_web 5 None (Some 2%Z) false []).
Proof.
  split; [lia|].
  pose proof (proj1 (proj2 (@page_limit_two basic_latin sample_web 5%nat None false
                              ltac:(lia)))) as Hexact.
  destruct (@visit_all basic_latin sample_web None false
              {| st_seen := ∅; st_articles := []; st_oldest := None |}
              (sorted (new_links (@page_links basic_latin
                                    (listing_soup [url_a; u"/eidisi/ergatiki-taxi/2/b"])) ∅))
              [NewSession; Get Listing (@list_url 0)]) as [st t1| |] eqn:Hv.
  - apply (Hexact _ st t1 eq_refl); [vm_compute; discriminate|exact Hv|reflexivity].
  - vm_compute in Hv. discriminate.
  - vm_compute in Hv. discriminate.
Defined.

(** C5 as the specification words it fails when a cutoff is
    configured: the first listing page of this site links to an article of
    2020, the cutoff is March 2024, and the run with a page limit of 2 ends
    after one listing page. *)
Lemma page_limit_two_stops_at_cutoff :
  ~ (forall (web : Web) (cutoff : option datetime) (arts : list Article) (t : trace),
       @scrape_articles basic_latin web 5 cutoff (Some 2%Z) false [] = Done arts t ->
       length (listing_gets t) = 2%nat).
Proof.
  intros claim. specialize (claim old_first_web (Some march_2024)).
  destruct (@scrape_articles basic_latin old_first_web 5 (Some march_2024) (Some 2%Z) false [])
    as [arts t| |] eqn:Hrun; vm_compute in Hrun; try discriminate.
  injection Hrun as <- <-. specialize (claim _ _ eq_refl).
  vm_compute in claim. discriminate.
Qed.

(** ** The entry point *)

Section Entry.
Context `{Platform}.
Variable web : Web.

Lemma strptime_not_config (fmt : regex) (s : str) (e : exn) :
  strptime fmt s = inl e -> e <> CONFIG_ERROR.
Proof.
  unfold strptime. destruct (re_match fmt s) as [[g [|c rest]]|];
    try (intros [= <-]; discriminate).
  destruct (field g "Y" 1900), (field g "m" 1), (field g "d" 1),
    (field g "H" 0), (field g "M" 0); try (intros [= <-]; discriminate).
  destruct (valid_datetime _); [discriminate|]. intros [= <-]. discriminate.
Qed.

Lemma first_stamp_not_config (l : list str) (e : exn) :
  first_stamp l = Some (inl e) -> e <> CONFIG_ERROR.
Proof.
  induction l as [|s l IH]; simpl; [discriminate|].
  destruct (re_search DT_RE s) as [g|]; [|exact IH].
  intros [= E]. eapply strptime_not_config. exact E.
Qed.

Lemma pick_published_at_not_config (strings : list str) (title : option str) (e : exn) :
  pick_published_at strings title = inl e -> e <> CONFIG_ERROR.
Proof.
  unfold pick_published_at.
  destruct (match located strings title with Some _ => _ | None => _ end) as [[e'|d]|] eqn:E.
  - intros [= <-]. destruct (located strings title); [|discriminate].
    eapply first_stamp_not_config. exact E.
  - discriminate.
  - destruct (first_stamp strings) as [[e'|d]|] eqn:E'; try discriminate.
    intros [= <-]. eapply first_stamp_not_config. exact E'.
Qed.

Lemma fromisoformat_not_config (s : str) (e : exn) :
  fromisoformat s = inl e -> e <> CONFIG_ERROR.
Proof.
  unfold fromisoformat.
  do 17 (destruct s as [|? s]; try (intros [= <-]; discriminate)).
  repeat match goal with
         | |- context [match ?x with _ => _ end] => destruct x
         end; try (intros [= <-]; discriminate); discriminate.
Qed.

Lemma parse_article_raises (u : str) (t : trace) :
  raises (fun e => e <> CONFIG_ERROR) (parse_article web u t).
Proof.
  rewrite parse_article_eq. destruct (web t u) as [soup|]; [|simpl; discriminate].
  cbv zeta. destruct (pick_published_at _ _) as [e|[dt|]] eqn:E; simpl; try exact I.
  eapply pick_published_at_not_config. exact E.
Qed.

Lemma visit_raises (cutoff : option datetime) (verbose : bool) (st : PageState)
    (u : str) (t : trace) :
  raises (fun e => e <> CONFIG_ERROR) (visit web cutoff verbose st u t).
Proof.
  rewrite visit_eq. pose proof (parse_article_raises u (t ++ [SeenAdd u])) as Hp.
  destruct (parse_article web u (t ++ [SeenAdd u])) as [[item|] t1|e t1|]; simpl in *;
    try assumption; try exact I.
  destruct (fromisoformat (published_at item)) eqn:E;
    [simpl; eapply fromisoformat_not_config; exact E|].
  destruct (in_range cutoff _); [|exact I].
  destruct verbose, (title item); simpl; try exact I. discriminate.
Qed.

Lemma visit_all_raises (cutoff : option datetime) (verbose : bool) (urls : list str) :
  forall (st : PageState) (t : trace),
    raises (fun e => e <> CONFIG_ERROR) (visit_all web cutoff verbose st urls t).
Proof.
  induction urls as [|u urls IH]; intros st t; simpl; [exact I|].
  unfold bind. pose proof (visit_raises cutoff verbose st u t) as Hv.
  destruct (visit web cutoff verbose st u t) as [st1 t1|e t1|]; simpl in *;
    [apply IH|exact Hv|exact I].
Qed.

Lemma scrape_loop_raises (cutoff : option datetime) (max_pages : option Z) (verbose : bool)
    (fuel : nat) :
  forall (seen : gset str) (arts : list Article) (page : Z) (t : trace),
    raises (fun e => e <> CONFIG_ERROR)
           (scrape_loop web fuel cutoff max_pages verbose seen arts page t).
Proof.
  induction fuel as [|fuel IH]; intros seen arts page t; simpl; [exact I|].
  destruct (page_limit_reached max_pages page); [exact I|].
  unfold bind at 1, fetch.
  destruct (web t (list_url page)) as [soup|]; [|simpl; discriminate].
  destruct (new_links (page_links soup) seen) as [|x l]; [exact I|].
  unfold bind.
  match goal with |- context [visit_all web cutoff verbose ?s ?us ?tr] =>
    pose proof (visit_all_raises cutoff verbose us s tr) as Hv;
    destruct (visit_all web cutoff verbose s us tr) as [st t1|e t1|]
  end; simpl in *; [|exact Hv|exact I].
  destruct (crossed cutoff (st_oldest st)); [exact I|apply IH].
Qed.

Lemma scrape_articles_raises (fuel : nat) (cutoff : option datetime)
    (max_pages : option Z) (verbose : bool) (t : trace) :
  raises (fun e => e <> CONFIG_ERROR) (scrape_articles web fuel cutoff max_pages verbose t).
Proof. unfold scrape_articles, bind, emit. apply scrape_loop_raises. Qed.

Lemma then_return {A} (c : M A) (t : trace) :
  (do a <- c; run ret tt; ret a) t = c t.
Proof. unfold bind, ret. destruct (c t); reflexivity. Qed.

Lemma os_error_not_config (errno : Z) : os_error errno <> CONFIG_ERROR.
Proof. unfold os_error. destruct (errno =? 2)%Z; discriminate. Qed.

Lemma write_text_raises (disk : Disk) (path : str) (arts : list Article) (t : trace) :
  raises (fun e => e <> CONFIG_ERROR) (write_text disk path arts t).
Proof.
  unfold write_text.
  destruct (disk path) as [[[errno| |]|errno]|], (dumps_encodable arts); simpl;
    try exact I; try discriminate; apply os_error_not_config.
Qed.

Lemma bounded_run_raises (disk : Disk) (fuel : nat) (cutoff : option datetime)
    (pages : option Z) (output : option str) (verbose : bool) (t : trace) :
  raises (fun e => e <> CONFIG_ERROR)
         (bounded_run web disk fuel cutoff pages output verbose t).
Proof.
  unfold bounded_run, bind at 1.
  pose proof (scrape_articles_raises fuel cutoff pages verbose t) as Hs.
  destruct (scrape_articles web fuel cutoff pages verbose t) as [arts t1|e t1|];
    simpl in *; [|exact Hs|exact I].
  unfold bind. destruct output as [[|c path]|]; try exact I.
  pose proof (write_text_raises disk (c :: path) arts t1) as Hw.
  destruct (write_text disk (c :: path) arts t1); simpl in *; [exact I|exact Hw|exact I].
Qed.

Lemma bounded_run_no_output (disk : Disk) (fuel : nat) (cutoff : option datetime)
    (pages : option Z) (verbose : bool) (t : trace) :
  bounded_run web disk fuel cutoff pages None verbose t
  = scrape_articles web fuel cutoff pages verbose t.
Proof. apply then_return. Qed.

(** How [fetch_articles] finds its cutoff. *)
Lemma fetch_articles_since_string (disk : Disk) (fuel : nat) (now : datetime)
    (days : option Z) (s : str) (pages : option Z) (output : option str) (verbose : bool)
    (t : trace) :
  fetch_articles web disk fuel now days (Some (inl s)) pages output verbose t
  = match strptime FMT_YMD s with
    | inl e => Raised e t
    | inr D => bounded_run web disk fuel (Some D) pages output verbose t
    end.
Proof.
  destruct days, pages; unfold fetch_articles, bind at 1, bind at 1, lift;
    destruct (strptime FMT_YMD s); reflexivity.
Qed.

Lemma fetch_articles_since_datetime (disk : Disk) (fuel : nat) (now : datetime)
    (days : option Z) (D : datetime) (pages : option Z) (output : option str)
    (verbose : bool) (t : trace) :
  fetch_articles web disk fuel now days (Some (inr D)) pages output verbose t
  = bounded_run web disk fuel (Some D) pages output verbose t.
Proof. destruct days, pages; reflexivity. Qed.

Lemma fetch_articles_days (disk : Disk) (fuel : nat) (now : datetime) (n : Z)
    (pages : option Z) (output : option str) (verbose : bool) (t : trace) :
  fetch_articles web disk fuel now (Some n) None pages output verbose t
  = match minus_days now n with
    | inl e => Raised e t
    | inr D => bounded_run web disk fuel (Some D) pages output verbose t
    end.
Proof.
  destruct pages; unfold fetch_articles, bind at 1, bind at 1, lift;
    destruct (minus_days now n); reflexivity.
Qed.

Lemma fetch_articles_pages (disk : Disk) (fuel : nat) (now : datetime) (p : Z)
    (output : option str) (verbose : bool) (t : trace) :
  fetch_articles web disk fuel now None None (Some p) output verbose t
  = bounded_run web disk fuel None (Some p) output verbose t.
Proof. reflexivity. Qed.

Lemma minus_days_not_config (now : datetime) (n : Z) (e : exn) :
  minus_days now n = inl e -> e <> CONFIG_ERROR.
Proof.
  unfold minus_days;
    repeat match goal with
           | |- context [if ?b then _ else _] => destruct b
           | |- context [let '(_, _) := ?x in _] => destruct x as [[? ?] ?]
           end; intros [= <-]; discriminate.
Qed.

Lemma fetch_articles_raises (disk : Disk) (fuel : nat) (now : datetime) (days : option Z)
    (since : option (str + datetime)) (pages : option Z) (output : option str)
    (verbose : bool) (t : trace) :
  (1 <= supplied days since pages)%nat ->
  raises (fun e => e <> CONFIG_ERROR)
         (fetch_articles web disk fuel now days since pages output verbose t).
Proof.
  intros Hsup. destruct since as [[s|D]|].
  - rewrite fetch_articles_since_string.
    destruct (strptime FMT_YMD s) as [e|D] eqn:E; [|apply bounded_run_raises].
    simpl. exact (strptime_not_config _ _ _ E).
  - rewrite fetch_articles_since_datetime. apply bounded_run_raises.
  - destruct days as [n|].
    + rewrite fetch_articles_days.
      destruct (minus_days now n) as [e|D] eqn:E; [|apply bounded_run_raises].
      simpl. exact (minus_days_not_config _ _ _ E).
    + destruct pages as [p|]; [|unfold supplied in Hsup; simpl in Hsup; lia].
      rewrite fetch_articles_pages. apply bounded_run_raises.
Qed.

(** C8 (as amended).  A call with none of a day count, a since-date or a
    page count is rejected with the configuration error, the trace left
    as it was: no session, no request.  A call with one or more of them is
    never rejected so; the bounds combine: the since-date, when given, is
    the cutoff, be it a datetime or a ['YYYY-MM-DD'] string, which is
    parsed, a string that is no such date being an error of its own;
    otherwise the cutoff is the day count counted back from now; and the
    page count is the page limit.  The call is then the crawl under that
    cutoff and that limit, followed by the writing of the records when
    there is an output path; without one it is the crawl alone. *)
Theorem fetch_articles_needs_a_bound :
  (forall (disk : Disk) (fuel : nat) (now : datetime) (output : option str) (verbose : bool)
          (t : trace),
      fetch_articles web disk fuel now None None None output verbose t
      = Raised CONFIG_ERROR t)
  /\ (forall (disk : Disk) (fuel : nat) (now : datetime) (days : option Z)
             (since : option (str + datetime)) (pages : option Z) (output : option str)
             (verbose : bool) (t : trace),
        (1 <= supplied days since pages)%nat ->
        raises (fun e => e <> CONFIG_ERROR)
               (fetch_articles web disk fuel now days since pages output verbose t))
  /\ (forall (disk : Disk) (fuel : nat) (now : datetime) (days : option Z) (D : datetime)
             (pages : option Z) (output : option str) (verbose : bool) (t : trace),
        fetch_articles web disk fuel now days (Some (inr D)) pages output verbose t
        = bounded_run web disk fuel (Some D) pages output verbose t)
  /\ (forall (disk : Disk) (fuel : nat) (now : datetime) (days : option Z) (s : str)
             (pages : option Z) (output : option str) (verbose : bool) (t : trace),
        (forall D, strptime FMT_YMD s = inr D ->
                   fetch_articles web disk fuel now days (Some (inl s)) pages output verbose t
                   = bounded_run web disk fuel (Some D) pages output verbose t)
        /\ (forall e, strptime FMT_YMD s = inl e ->
                      fetch_articles web disk fuel now days (Some (inl s)) pages output
                        verbose t
                      = Raised e t))
  /\ (forall (disk : Disk) (fuel : nat) (now : datetime) (n : Z) (D : datetime)
             (pages : option Z) (output : option str) (verbose : bool) (t : trace),
        minus_days now n = inr D ->
        fetch_articles web disk fuel now (Some n) None pages output verbose t
        = bounded_run web disk fuel (Some D) pages output verbose t)
  /\ (forall (disk : Disk) (fuel : nat) (now : datetime) (p : Z) (output : option str)
             (verbose : bool) (t : trace),
        fetch_articles web disk fuel now None None (Some p) output verbose t
        = bounded_run web disk fuel None (Some p) output verbose t)
  /\ (forall (disk : Disk) (fuel : nat) (cutoff : option datetime) (pages : option Z)
             (verbose : bool) (t : trace),
        bounded_run web disk fuel cutoff pages None verbose t
        = scrape_articles web fuel cutoff pages verbose t).
Proof.
  split; [reflexivity|].
  split; [intros; apply fetch_articles_raises; assumption|].
  split; [intros; apply fetch_articles_since_datetime|].
  split.
  { intros disk fuel now days s pages output verbose t.
    rewrite fetch_articles_since_string. split.
    - intros D ->. reflexivity.
    - intros e ->. reflexivity. }
  split.
  { intros disk fuel now n D pages output verbose t Hd.
    rewrite fetch_articles_days, Hd. reflexivity. }
  split; [intros; apply fetch_articles_pages|].
  intros. apply bounded_run_no_output.
Qed.

End Entry.

Lemma fetch_articles_needs_a_bound_witness :
  (1 <= supplied None (Some (inl (u"2024-03-01"))) (Some 2%Z))%nat
  /\ raises (fun e => e <> CONFIG_ERROR)
       (@fetch_articles basic_latin sample_web sound_disk 5 noon_20_march_2024
          None (Some (inl (u"2024-03-01"))) (Some 2%Z) None false [])
  /\ @strptime basic_latin FMT_YMD (u"2024-03-01") = inr (mk_datetime 2024 3 1 0 0 0 0)
  /\ @fetch_articles basic_latin sample_web sound_disk 5 noon_20_march_2024
       None (Some (inl (u"2024-03-01"))) (Some 2%Z) None false []
     = @scrape_articles basic_latin sample_web 5 (Some (mk_datetime 2024 3 1 0 0 0 0))
         (Some 2%Z) false [].
Proof.
  assert ((1 <= supplied None (Some (inl (u"2024-03-01"))) (Some 2%Z))%nat) as Hsup
    by (vm_compute; lia).
  assert (@strptime basic_latin FMT_YMD (u"2024-03-01") = inr (mk_datetime 2024 3 1 0 0 0 0))
    as Hd by (vm_compute; reflexivity).
  pose proof (@fetch_articles_needs_a_bound basic_latin sample_web)
    as (_ & Hnot & _ & Hstring & _ & _ & Hplain).
  split; [exact Hsup|]. split; [apply Hnot; exact Hsup|]. split; [exact Hd|].
  rewrite (proj1 (Hstring sound_disk 5%nat noon_20_march_2024 None (u"2024-03-01")
                    (Some 2%Z) None false []) _ Hd).
  apply Hplain.
Defined.

(** C8 as the specification words it, a run bounded by exactly one of the
    three options, fails: a call that gives a since-date and a page
    count is accepted and runs to its end under both. *)
Lemma fetch_articles_accepts_two_bounds :
  ~ (forall (web : Web) (disk : Disk) (fuel : nat) (now : datetime) (days : option Z)
            (since : option (str + datetime)) (pages : option Z) (output : option str)
            (verbose : bool) (t : trace) (arts : list Article) (t' : trace),
       @fetch_articles basic_latin web disk fuel now days since pages output verbose t
       = Done arts t' ->
       supplied days since pages = 1%nat).
Proof.
  intros claim.
  specialize (claim sample_web sound_disk 5%nat noon_20_march_2024 None
                (Some (inl (u"2024-03-01"))) (Some 2%Z) None false []).
  destruct (@fetch_articles basic_latin sample_web sound_disk 5 noon_20_march_2024 None
              (Some (inl (u"2024-03-01"))) (Some 2%Z) None false [])
    as [arts t| |] eqn:Hrun; vm_compute in Hrun; try discriminate.
  specialize (claim _ _ eq_refl). vm_compute in claim. discriminate.
Qed.

(** ** The batch labelling helper *)

Module CodexLabelerFacts.
Import CodexLabeler.

Lemma entry_text_body (a : dict) (x : json) (s : str) :
  lookup_key a (u"url") = Some x ->
  lookup_key a (u"body") = Some (JStr s) ->
  entry a = inr (JObj [ (u"url", x);
                        (u"title", get a (u"title") (JStr []));
                        (u"published_at", get a (u"published_at") (JStr []));
                        (u"tags", get a (u"tags") (JArr []));
                        (u"body", JStr (take 2000 s)) ]).
Proof.
  intros Hu Hb. unfold entry, getitem, get. rewrite Hu, Hb. reflexivity.
Qed.

Lemma entry_null_body (a : dict) (x : json) :
  lookup_key a (u"url") = Some x ->
  lookup_key a (u"body") = Some JNull ->
  entry a = inl TypeError.
Proof.
  intros Hu Hb. unfold entry, getitem, get. rewrite Hu, Hb. reflexivity.
Qed.

(** Whatever else it holds, a record whose body is absent makes a batch
    of one fail. *)
Lemma generate_batch_absent_body (item : Article) (disk : Disk) (n : Z) :
  body item = None -> (1 <= n)%Z ->
  generate_batch (sample_files [record_json item]) disk n = (Some TypeError, Untouched).
Proof.
  intros Hb Hn.
  assert (entry (record_json item) = inl TypeError) as He.
  { unfold entry, record_json. rewrite Hb. reflexivity. }
  assert (get_unlabeled_articles (sample_files [record_json item]) = inr [record_json item])
    as Hu by reflexivity.
  unfold generate_batch. rewrite Hu. unfold upto.
  destruct (0 <=? n)%Z eqn:E; [|apply Z.leb_gt in E; lia].
  destruct (Z.to_nat n) as [|k] eqn:Ek; [lia|].
  simpl. rewrite He. reflexivity.
Qed.

(** C9, at the input on which the code fails.  The scraper writes a null
    body for an article whose title is not found in its text; on a batch
    that holds such a record [generate_batch] raises [TypeError] and saves
    nothing, the batch file being left as it was whatever the disk, while
    the same call on a record with a text body succeeds with the body cut
    to 2000 characters. *)
Theorem generate_batch_null_body_raises :
  match @parse_article basic_latin (site [(url_b, soup_unlocated)]) url_b [] with
  | Done (Some item) _ =>
    body item = None
    /\ record_json item = null_body_record
    /\ forall disk : Disk,
         generate_batch (sample_files [record_json item]) disk 5
         = (Some TypeError, Untouched)
  | _ => False
  end
  /\ (forall disk : Disk,
        generate_batch (sample_files [text_body_record; null_body_record]) disk 5
        = (Some TypeError, Untouched))
  /\ exists payload,
       generate_batch (sample_files [text_body_record]) sound_disk 5
       = (None, Holds payload).
Proof.
  split; [vm_compute; repeat split; reflexivity|].
  split; [intros disk; vm_compute; reflexivity|].
  eexists. vm_compute. reflexivity.
Qed.

End CodexLabelerFacts.

(** * Further properties of the scraper *)

(** ** Titles and tags *)

Section Tags.
Context `{Platform}.

(** X1.  A normalised title carries no surrounding white space, and the
    result is absent only for an absent or empty title; a title made of
    white space alone normalises to the empty string, not to null. *)
Theorem normalize_title_result :
  (forall (s : option str) (r : str), normalize_title s = Some r -> strip r = r)
  /\ (forall s : option str, normalize_title s = None <-> s = None \/ s = Some [])
  /\ (forall s : str, s <> [] -> strip s = [] -> normalize_title (Some s) = Some []).
Proof.
  split; [|split].
  - intros [[|c s]|] r; try discriminate.
    rewrite normalize_title_nonempty by discriminate.
    destruct (endswith _ _); intros [= <-]; apply strip_idem.
  - intros [[|c s]|].
    + split; [intros _; right; reflexivity|reflexivity].
    + split; [discriminate|intros [E|E]; discriminate].
    + split; [intros _; left; reflexivity|reflexivity].
  - intros s Hne Hs. rewrite normalize_title_nonempty by exact Hne.
    rewrite Hs. reflexivity.
Qed.

Lemma fromkeys_spec (l : list str) :
  forall acc : list str,
    NoDup acc ->
    NoDup (fromkeys l acc)
    /\ (forall x, x ∈ fromkeys l acc <-> x ∈ acc \/ x ∈ l)
    /\ exists r, fromkeys l acc = acc ++ r /\ sublist r l.
Proof.
  induction l as [|y l IH]; intros acc Hnd; simpl.
  - split; [exact Hnd|]. split.
    + intros x. split; [tauto|]. intros [Hx|Hx]; [exact Hx|inversion Hx].
    + exists []. rewrite app_nil_r. split; [reflexivity|constructor].
  - unfold contains. case_bool_decide as Hy.
    + destruct (IH acc Hnd) as (H1 & H2 & r & H3 & H4).
      split; [exact H1|]. split.
      * intros x. rewrite H2, elem_of_cons. split; [tauto|].
        intros [Hx|[->|Hx]]; tauto.
      * exists r. split; [exact H3|]. apply sublist_cons. exact H4.
    + assert (NoDup (acc ++ [y])) as Hnd'.
      { apply NoDup_app. split; [exact Hnd|]. split; [|apply NoDup_singleton].
        intros x Hx Hxy. apply list_elem_of_singleton in Hxy as ->. exact (Hy Hx). }
      destruct (IH (acc ++ [y]) Hnd') as (H1 & H2 & r & H3 & H4).
      split; [exact H1|]. split.
      * intros x. rewrite H2, elem_of_app, list_elem_of_singleton, elem_of_cons. tauto.
      * exists (y :: r). split; [rewrite H3, <- app_assoc; reflexivity|].
        apply sublist_skip. exact H4.
Qed.

Lemma fromkeys_nodup (l : list str) :
  forall acc : list str, NoDup (acc ++ l) -> fromkeys l acc = acc ++ l.
Proof.
  induction l as [|y l IH]; intros acc Hnd; simpl; [rewrite app_nil_r; reflexivity|].
  unfold contains. rewrite bool_decide_eq_false_2.
  - rewrite IH; rewrite <- app_assoc; [reflexivity|exact Hnd].
  - apply NoDup_app in Hnd as (_ & Hdisj & _). intros Hy. apply (Hdisj y Hy). left.
Qed.

(** The order of [fromkeys]: of two of the new elements, the one that
    comes first has its first occurrence in [l] before every occurrence of
    the other. *)
Lemma fromkeys_order (l : list str) :
  forall (acc r r1 : list str) (x : str) (r2 : list str) (y : str) (r3 : list str),
    NoDup acc ->
    fromkeys l acc = acc ++ r ->
    r = r1 ++ x :: r2 ++ y :: r3 ->
    exists l1 l2, l = l1 ++ x :: l2 /\ (x ∉ l1) /\ (y ∉ l1).
Proof.
  induction l as [|a l IH]; intros acc r r1 x r2 y r3 Hnd Hr Hxy.
  - simpl in Hr. rewrite <- (app_nil_r acc) in Hr at 1. apply app_inv_head in Hr.
    subst r. destruct r1; discriminate.
  - assert (x ∈ r /\ y ∈ r) as [Hx Hy].
    { subst r. split.
      - apply elem_of_app. right. left.
      - apply elem_of_app. right. right. apply elem_of_app. right. left. }
    simpl in Hr. unfold contains in Hr. case_bool_decide as Ha.
    + destruct (fromkeys_spec l acc Hnd) as (Hnd' & _ & _).
      rewrite Hr in Hnd'. apply NoDup_app in Hnd' as (_ & Hdisj & _).
      destruct (IH acc r r1 x r2 y r3 Hnd Hr Hxy) as (l1 & l2 & -> & Hx1 & Hy1).
      exists (a :: l1), l2. split; [reflexivity|].
      split; intros Hin; apply elem_of_cons in Hin as [->|Hin];
        solve [ eapply Hdisj; eassumption | contradiction ].
    + assert (NoDup (acc ++ [a])) as Hnd1.
      { apply NoDup_app. split; [exact Hnd|]. split; [|apply NoDup_singleton].
        intros z Hz Hza. apply list_elem_of_singleton in Hza as ->. exact (Ha Hz). }
      destruct (fromkeys_spec l (acc ++ [a]) Hnd1) as (Hnd' & _ & r0 & Hr0 & _).
      assert (r = a :: r0) as Hra.
      { rewrite Hr0, <- app_assoc in Hr. apply app_inv_head in Hr. symmetry. exact Hr. }
      rewrite Hr0 in Hnd'. apply NoDup_app in Hnd' as (_ & Hdisj & _).
      assert (a ∉ r0) as Har0.
      { intros Hin. apply (Hdisj a); [|exact Hin]. apply elem_of_app. right. left. }
      destruct r1 as [|b r1].
      * simpl in Hxy. rewrite Hra in Hxy. injection Hxy as <- _.
        exists [], l. split; [reflexivity|]. split; apply not_elem_of_nil.
      * rewrite Hra in Hxy. simpl in Hxy. injection Hxy as <- Hxy.
        destruct (IH (acc ++ [a]) r0 r1 x r2 y r3 Hnd1 Hr0 Hxy)
          as (l1 & l2 & -> & Hx1 & Hy1).
        assert (x ∈ r0 /\ y ∈ r0) as [Hx0 Hy0].
        { rewrite Hxy. split.
          - apply elem_of_app. right. left.
          - apply elem_of_app. right. right. apply elem_of_app. right. left. }
        exists (a :: l1), l2. split; [reflexivity|].
        split; intros Hin; apply elem_of_cons in Hin as [->|Hin];
          solve [ contradiction ].
Qed.

(** X2.  When some tag link has text, the tags are the texts of those
    links and nothing else: each text once, in the order of its first
    link, whatever the title and the text entries are.  The order: of two
    tags, the one that comes first is the one whose first link comes before
    every link of the other. *)
Theorem extract_tags_from_links (soup : Soup) :
  link_tags soup <> [] ->
  (forall (strings : list str) (title : option str),
      extract_tags soup strings title = link_tags soup)
  /\ NoDup (link_tags soup)
  /\ (forall x, x ∈ link_tags soup <-> x ∈ link_texts soup)
  /\ sublist (link_tags soup) (link_texts soup)
  /\ (forall (t1 : list str) (x : str) (t2 : list str) (y : str) (t3 : list str),
        link_tags soup = t1 ++ x :: t2 ++ y :: t3 ->
        exists l1 l2, link_texts soup = l1 ++ x :: l2 /\ (x ∉ l1) /\ (y ∉ l1))
  /\ (NoDup (link_texts soup) -> link_tags soup = link_texts soup).
Proof.
  intros Hne.
  destruct (fromkeys_spec (link_texts soup) [] (NoDup_nil_2)) as (Hnd & Hin & r & Hr & Hsub).
  change (fromkeys (link_texts soup) []) with (link_tags soup) in *.
  split; [|split; [exact Hnd|split; [|split; [|split]]]].
  - intros strings title. unfold extract_tags.
    destruct (link_tags soup); [congruence|reflexivity].
  - intros x. rewrite Hin. split; [intros [Hx|Hx]; [inversion Hx|exact Hx]|tauto].
  - rewrite Hr. exact Hsub.
  - intros t1 x t2 y t3 Ht.
    apply (fromkeys_order (link_texts soup) [] (link_tags soup) t1 x t2 y t3 NoDup_nil_2);
      [reflexivity|exact Ht].
  - intros Hnd'. apply (fromkeys_nodup _ []). exact Hnd'.
Qed.

Lemma tag_loop_cons (s : str) (l : list str) :
  tag_loop (s :: l) = if tag_ok s then [s] else tag_loop l.
Proof.
  simpl. unfold tag_ok, tag_like.
  destruct (contains STOP_MARKERS s), (bool_decide (is_Some (re_search DT_RE s)));
    reflexivity.
Qed.

Lemma tag_loop_rev (w : list str) :
  (tag_loop (rev w) = [] /\ Forall (fun s => tag_ok s = false) w)
  \/ (exists w1 s w2, w = w1 ++ s :: w2 /\ tag_ok s = true
                      /\ Forall (fun s' => tag_ok s' = false) w2
                      /\ tag_loop (rev w) = [s]).
Proof.
  induction w as [|x w IH] using rev_ind.
  - left. split; [reflexivity|constructor].
  - rewrite rev_app_distr. simpl rev. simpl app. rewrite tag_loop_cons.
    destruct (tag_ok x) eqn:Ex.
    + right. exists w, x, []. repeat split; try assumption. constructor.
    + destruct IH as [[E F]|(w1 & s & w2 & -> & Hs & Hw2 & E)].
      * left. split; [exact E|]. apply Forall_app. split; [exact F|].
        constructor; [exact Ex|constructor].
      * right. exists w1, s, (w2 ++ [x]). rewrite <- app_assoc. simpl.
        repeat split; try assumption.
        apply Forall_app. split; [exact Hw2|]. constructor; [exact Ex|constructor].
Qed.

(** X3.  With no tag link, and the title first at position [i], the tag
    is looked for among the ten entries before [i], nearest first: it is
    the nearest one that is neither a stop marker nor a timestamp, has 2
    to 50 characters, is upper-case and is not a number; when there is
    none the tags are empty. *)
Theorem tag_fallback_nearest (soup : Soup) (strings : list str) (title : str) (i : nat) :
  link_tags soup = [] -> title <> [] -> first_at strings title i ->
  (extract_tags soup strings (Some title) = []
   /\ Forall (fun s => tag_ok s = false) (slice strings (i - 10) i))
  \/ (exists before s after,
        take i strings = before ++ s :: after
        /\ (length after < 10)%nat
        /\ tag_ok s = true
        /\ Forall (fun s' => tag_ok s' = false) after
        /\ extract_tags soup strings (Some title) = [s]).
Proof.
  intros Hnone Hne Hfirst.
  assert (extract_tags soup strings (Some title) = tag_loop (rev (slice strings (i - 10) i)))
    as ->.
  { unfold extract_tags.
    rewrite Hnone, (located_found _ _ i Hne (proj1 Hfirst)), (index_first _ _ _ Hfirst).
    reflexivity. }
  destruct (tag_loop_rev (slice strings (i - 10) i))
    as [[E F]|(w1 & s & w2 & Hw & Hs & Hw2 & E)]; [left; split; assumption|].
  right. exists (take (i - 10) strings ++ w1), s, w2.
  split; [|split; [|repeat split; assumption]].
  - rewrite <- app_assoc, <- Hw. unfold slice. rewrite take_take_drop. f_equal. lia.
  - assert (length (slice strings (i - 10) i) <= 10)%nat as Hlen.
    { unfold slice. rewrite length_take. lia. }
    rewrite Hw, length_app in Hlen. simpl in Hlen. lia.
Qed.

End Tags.

Lemma normalize_title_result_witness :
  (@normalize_title basic_latin (Some (u"  Strike at the port  ")) = Some (u"Strike at the port"))
  /\ @strip basic_latin (u"Strike at the port") = u"Strike at the port".
Proof.
  split; [reflexivity|].
  exact (proj1 (@normalize_title_result basic_latin)
           (Some (u"  Strike at the port  ")) (u"Strike at the port") eq_refl).
Defined.

(** ** Extraction *)

Section Extraction.
Context `{Platform}.
Variable web : Web.

(** X4.  A record that is returned carries the URL that was asked for
    and the normalised title of the document, and its [published_at] is
    the sixteen-character minute-precision text of the time that was
    extracted: read back, it gives that very time. *)
Theorem parse_article_record (u : str) (t : trace) (soup : Soup) (item : Article)
    (t' : trace) :
  web t u = Some soup ->
  parse_article web u t = Done (Some item) t' ->
  url item = u
  /\ title item = normalize_title (title_string soup)
  /\ exists dt,
       pick_published_at (flatten soup) (title item) = inr (Some dt)
       /\ published_at item = isoformat_minutes dt
       /\ fromisoformat (published_at item) = inr dt
       /\ length (published_at item) = 16%nat
       /\ second dt = 0%Z /\ microsecond dt = 0%Z.
Proof.
  intros Hweb. rewrite parse_article_eq, Hweb. cbv zeta.
  destruct (pick_published_at _ _) as [e|[dt|]] eqn:E; try discriminate.
  intros [= <- <-]. simpl. split; [reflexivity|]. split; [reflexivity|].
  destruct (pick_published_at_some _ _ _ E) as (Hv & Hs & Hu).
  exists dt. split; [exact E|]. split; [reflexivity|].
  split; [apply fromisoformat_isoformat; assumption|].
  split; [reflexivity|]. split; assumption.
Qed.

(** X5.  When the title is absent, empty or not among the entries, the
    timestamp is that of the first entry of the whole sequence that holds
    a match of the pattern. *)
Theorem pick_published_at_without_title (strings : list str) (title : option str)
    (k : nat) (s : str) (g : groups) :
  (forall t, title = Some t -> t = [] \/ t ∉ strings) ->
  strings !! k = Some s -> re_search DT_RE s = Some g ->
  (forall k' s', (k' < k)%nat -> strings !! k' = Some s' -> re_search DT_RE s' = None) ->
  pick_published_at strings title
  = sum_map id Some (strptime FMT_DMY_HM (group g "1" ++ u" " ++ group g "2")).
Proof.
  intros Hno Hk Hg Hbefore.
  assert (located strings title = None) as Hloc.
  { destruct title as [[|c t]|]; try reflexivity.
    simpl. unfold contains. rewrite bool_decide_eq_false_2; [reflexivity|].
    destruct (Hno (c :: t) eq_refl) as [E|E]; [discriminate|exact E]. }
  unfold pick_published_at. rewrite Hloc.
  rewrite (first_stamp_at _ _ _ _ Hk Hg Hbefore). reflexivity.
Qed.

End Extraction.

Lemma parse_article_record_witness :
  sample_web [] url_a = Some soup_a
  /\ match @parse_article basic_latin sample_web url_a [] with
     | Done (Some item) _ =>
       url item = url_a /\ title item = Some sample_title
       /\ published_at item = u"2024-03-15T09:30"
     | _ => False
     end.
Proof.
  split; [reflexivity|].
  destruct (@parse_article basic_latin sample_web url_a []) as [[item|] t'| |] eqn:Hp;
    try (vm_compute in Hp; discriminate).
  destruct (@parse_article_record basic_latin sample_web url_a [] soup_a item t' eq_refl Hp)
    as (Hu & Ht & _).
  split; [exact Hu|]. split; [rewrite Ht; reflexivity|].
  vm_compute in Hp. injection Hp as <- _. reflexivity.
Defined.

Lemma pick_published_at_without_title_witness :
  @pick_published_at basic_latin [u"Intro"; u"on 01/01/2020 - 08:00"; u"15/03/2024 - 09:30"]
    (Some (u"Missing title"))
  = inr (Some (mk_datetime 2020 1 1 8 0 0 0)).
Proof.
  refine (@pick_published_at_without_title basic_latin
            [u"Intro"; u"on 01/01/2020 - 08:00"; u"15/03/2024 - 09:30"]
            (Some (u"Missing title")) 1%nat (u"on 01/01/2020 - 08:00")
            [("2", u"08:00"); ("1", u"01/01/2020")] _ eq_refl eq_refl _).
  - intros t [= <-]. right. vm_compute. intros Hin.
    repeat (apply elem_of_cons in Hin as [Hin|Hin]; [discriminate|]). inversion Hin.
  - intros [|k'] s' Hk' Hs'; [|lia]. injection Hs' as <-. reflexivity.
Defined.

(** ** Requests and pages *)

Section Requests.
Context `{Platform}.
Variable web : Web.

Lemma answered_from_snoc (t : trace) :
  forall (pre : trace) (e : event),
    answered_from web pre (t ++ [e])
    = answered_from web pre t
      && match e with
         | Get _ u => bool_decide (is_Some (web (pre ++ t) u))
         | _ => true
         end.
Proof.
  induction t as [|x t IH]; intros pre e; simpl.
  - rewrite app_nil_r, andb_true_r. reflexivity.
  - rewrite IH, <- app_assoc, andb_assoc. reflexivity.
Qed.

Lemma answered_snoc (t : trace) (e : event) :
  answered web (t ++ [e])
  = answered web t
    && match e with
       | Get _ u => bool_decide (is_Some (web t u))
       | _ => true
       end.
Proof. unfold answered. rewrite answered_from_snoc. reflexivity. Qed.

Lemma strptime_value_error (fmt : regex) (s : str) (e : exn) :
  strptime fmt s = inl e -> exists msg, e = ValueError msg.
Proof.
  unfold strptime. destruct (re_match fmt s) as [[g [|c rest]]|];
    try (intros [= <-]; eexists; reflexivity).
  destruct (field g "Y" 1900), (field g "m" 1), (field g "d" 1),
    (field g "H" 0), (field g "M" 0); try (intros [= <-]; eexists; reflexivity).
  destruct (valid_datetime _); [discriminate|]. intros [= <-]. eexists. reflexivity.
Qed.

Lemma first_stamp_value_error (l : list str) (e : exn) :
  first_stamp l = Some (inl e) -> exists msg, e = ValueError msg.
Proof.
  induction l as [|s l IH]; simpl; [discriminate|].
  destruct (re_search DT_RE s) as [g|]; [|exact IH].
  intros [= E]. eapply strptime_value_error. exact E.
Qed.

Lemma pick_published_at_value_error (strings : list str) (title : option str) (e : exn) :
  pick_published_at strings title = inl e -> exists msg, e = ValueError msg.
Proof.
  unfold pick_published_at.
  destruct (match located strings title with Some _ => _ | None => _ end) as [[e'|d]|] eqn:E.
  - intros [= <-]. destruct (located strings title); [|discriminate].
    eapply first_stamp_value_error. exact E.
  - discriminate.
  - destruct (first_stamp strings) as [[e'|d]|] eqn:E'; try discriminate.
    intros [= <-]. eapply first_stamp_value_error. exact E'.
Qed.

Lemma fromisoformat_value_error (s : str) (e : exn) :
  fromisoformat s = inl e -> exists msg, e = ValueError msg.
Proof.
  unfold fromisoformat.
  do 17 (destruct s as [|? s]; try (intros [= <-]; eexists; reflexivity)).
  repeat match goal with
         | |- context [match ?x with _ => _ end] => destruct x
         end; try (intros [= <-]; eexists; reflexivity); discriminate.
Qed.

Lemma parse_article_settled (u : str) (t : trace) :
  answered web t = true -> settled web (parse_article web u t).
Proof.
  intros Ht. rewrite parse_article_eq. destruct (web t u) as [soup|] eqn:Hweb.
  - assert (answered web (t ++ [Get ArticlePage u]) = true) as Ht'.
    { rewrite answered_snoc, Ht, Hweb. reflexivity. }
    cbv zeta. destruct (pick_published_at _ _) as [e|[dt|]] eqn:E; simpl; try exact Ht'.
    destruct (pick_published_at_value_error _ _ _ E) as [msg ->]. exact Ht'.
  - simpl. exists t, ArticlePage, u. repeat split; assumption.
Qed.

Lemma visit_settled (cutoff : option datetime) (verbose : bool) (st : PageState)
    (u : str) (t : trace) :
  answered web t = true -> settled web (visit web cutoff verbose st u t).
Proof.
  intros Ht. rewrite visit_eq.
  assert (answered web (t ++ [SeenAdd u]) = true) as Ht'
    by (rewrite answered_snoc, Ht; reflexivity).
  pose proof (parse_article_settled u _ Ht') as Hp.
  destruct (parse_article web u (t ++ [SeenAdd u])) as [[item|] t1|e t1|]; simpl in *;
    try assumption.
  destruct (fromisoformat (published_at item)) eqn:E.
  - destruct (fromisoformat_value_error _ _ E) as [msg ->]. exact Hp.
  - destruct (in_range cutoff _); [|exact Hp].
    destruct verbose, (title item); exact Hp.
Qed.

Lemma visit_all_settled (cutoff : option datetime) (verbose : bool) (urls : list str) :
  forall (st : PageState) (t : trace),
    answered web t = true -> settled web (visit_all web cutoff verbose st urls t).
Proof.
  induction urls as [|u urls IH]; intros st t Ht; simpl; [exact Ht|].
  unfold bind. pose proof (visit_settled cutoff verbose st u t Ht) as Hv.
  destruct (visit web cutoff verbose st u t) as [st1 t1|e t1|]; simpl in *;
    [apply IH; exact Hv|exact Hv|exact I].
Qed.

Lemma scrape_loop_settled (cutoff : option datetime) (max_pages : option Z)
    (verbose : bool) (fuel : nat) :
  forall (seen : gset str) (arts : list Article) (page : Z) (t : trace),
    answered web t = true ->
    settled web (scrape_loop web fuel cutoff max_pages verbose seen arts page t).
Proof.
  induction fuel as [|fuel IH]; intros seen arts page t Ht; simpl; [exact I|].
  destruct (page_limit_reached max_pages page); [exact Ht|].
  unfold bind at 1, fetch.
  destruct (web t (list_url page)) as [soup|] eqn:Hweb;
    [|simpl; exists t, Listing, (list_url page); repeat split; assumption].
  assert (answered web (t ++ [Get Listing (list_url page)]) = true) as Ht'.
  { rewrite answered_snoc, Ht, Hweb. reflexivity. }
  destruct (new_links (page_links soup) seen) as [|x l]; [exact Ht'|].
  unfold bind.
  match goal with |- context [visit_all web cutoff verbose ?s ?us ?tr] =>
    pose proof (visit_all_settled cutoff verbose us s tr Ht') as Hv;
    destruct (visit_all web cutoff verbose s us tr) as [st t1|e t1|]
  end; simpl in *; [|exact Hv|exact I].
  destruct (crossed cutoff (st_oldest st)); [exact Hv|apply IH; exact Hv].
Qed.

(** X6.  A failed request is fatal.  A run that returns its records had
    every one of its requests answered; a run that raises
    [RequestException] ends with the request that failed, nothing being
    fetched after it; a run that raises otherwise had its requests
    answered up to there. *)
Theorem failed_request_is_fatal (fuel : nat) (cutoff : option datetime)
    (max_pages : option Z) (verbose : bool) :
  settled web (scrape_articles web fuel cutoff max_pages verbose []).
Proof.
  unfold scrape_articles, bind, emit. simpl app. apply scrape_loop_settled. reflexivity.
Qed.

Lemma pages_from_S (page : Z) (k : nat) :
  pages_from page (S k) = list_url page :: pages_from (page + 1) k.
Proof.
  unfold pages_from. simpl. rewrite Z.add_0_r. f_equal.
  rewrite <- seq_shift, map_map. apply map_ext. intros i. f_equal. lia.
Qed.

Lemma scrape_loop_pages (cutoff : option datetime) (max_pages : option Z)
    (verbose : bool) (fuel : nat) :
  forall (seen : gset str) (arts : list Article) (page : Z) (t : trace),
    traced (fun t' => exists k, listing_gets t' = listing_gets t ++ pages_from page k)
           (scrape_loop web fuel cutoff max_pages verbose seen arts page t).
Proof.
  induction fuel as [|fuel IH]; intros seen arts page t; simpl; [exact I|].
  assert (exists k, listing_gets t = listing_gets t ++ pages_from page k) as H0
    by (exists 0%nat; rewrite app_nil_r; reflexivity).
  assert (forall t1, listing_gets t1 = listing_gets (t ++ [Get Listing (list_url page)]) ->
                     exists k, listing_gets t1 = listing_gets t ++ pages_from page k) as H1.
  { intros t1 ->. exists 1%nat. rewrite listing_gets_snoc, pages_from_S. reflexivity. }
  destruct (page_limit_reached max_pages page); [exact H0|].
  unfold bind at 1, fetch.
  destruct (web t (list_url page)) as [soup|]; [|simpl; apply H1; reflexivity].
  destruct (new_links (page_links soup) seen) as [|x l]; [simpl; apply H1; reflexivity|].
  unfold bind.
  match goal with |- context [visit_all web cutoff verbose ?s ?us ?tr] =>
    pose proof (visit_all_ended web cutoff verbose us s tr) as Hv;
    destruct (visit_all web cutoff verbose s us tr) as [st t1|e t1|]
  end; simpl in Hv; [|simpl; apply H1; exact Hv|contradiction].
  destruct (crossed cutoff (st_oldest st)); [simpl; apply H1; exact Hv|].
  pose proof (IH (st_seen st) (st_articles st) (page + 1)%Z t1) as Hrec.
  destruct (scrape_loop web fuel cutoff max_pages verbose _ _ _ t1); simpl in *;
    try exact I; destruct Hrec as [k Hk]; exists (S k);
    rewrite Hk, Hv, listing_gets_snoc, pages_from_S, <- app_assoc; reflexivity.
Qed.

(** X7.  Listing pages are fetched in the order of their index, from page
    0 on, without a gap and without a repetition: the listing requests of a
    run are those of the pages 0, 1, ..., k-1 for some k. *)
Theorem listing_pages_in_order (fuel : nat) (cutoff : option datetime)
    (max_pages : option Z) (verbose : bool) :
  traced (fun t => exists k, listing_gets t = pages_from 0 k)
         (scrape_articles web fuel cutoff max_pages verbose []).
Proof.
  unfold scrape_articles, bind, emit. simpl app.
  exact (scrape_loop_pages cutoff max_pages verbose fuel ∅ [] 0 [NewSession]).
Qed.

(** X8.  With a page limit [m] and fuel beyond it the run always ends,
    after at most [m] listing pages; with a limit of zero or less it ends
    at once, with no records and no request at all. *)
Theorem page_limit_bounds (fuel : nat) (cutoff : option datetime) (m : Z) (verbose : bool) :
  (Z.to_nat m < fuel)%nat ->
  ended (fun t => (length (listing_gets t) <= Z.to_nat m)%nat)
        (scrape_articles web fuel cutoff (Some m) verbose [])
  /\ ((m <= 0)%Z ->
      scrape_articles web fuel cutoff (Some m) verbose [] = Done [] [NewSession]).
Proof.
  intros Hfuel. split.
  - unfold scrape_articles, bind, emit. simpl app.
    pose proof (scrape_loop_bounded web cutoff verbose m fuel ∅ [] 0 [NewSession]) as Hb.
    rewrite Z.sub_0_r in Hb. simpl in Hb. apply Hb. exact Hfuel.
  - intros Hm. destruct fuel as [|fuel]; [lia|].
    unfold scrape_articles, bind, emit. simpl.
    assert ((m <=? 0)%Z = true) as -> by (apply Z.leb_le; exact Hm). reflexivity.
Qed.

End Requests.

Lemma page_limit_bounds_witness :
  (Z.to_nat 1 < 3)%nat
  /\ ended (fun t => (length (listing_gets t) <= Z.to_nat 1)%nat)
       (@scrape_articles basic_latin sample_web 3 None (Some 1%Z) false []).
Proof.
  split; [vm_compute; lia|].
  apply (proj1 (@page_limit_bounds basic_latin sample_web 3%nat None 1%Z false
                  ltac:(vm_compute; lia))).
Defined.

(** ** The order of the visits *)

Section Order.
Context `{Platform}.
Variable web : Web.




Lemma visit_all_visits (cutoff : option datetime) (verbose : bool) (urls : list str) :
  forall (st : PageState) (t : trace) (st' : PageState) (t' : trace),
    visit_all web cutoff verbose st urls t = Done st' t' ->
    seen_adds t' = seen_adds t ++ urls /\ article_gets t' = article_gets t ++ urls.
Proof.
  induction urls as [|u urls IH]; intros st t st' t'; simpl.
  - intros [= <- <-]. rewrite !app_nil_r. split; reflexivity.
  - intros Hb. apply bind_done in Hb as (st1 & t1 & Hv & Hrest).
    destruct (visit_done _ _ _ _ _ _ _ _ Hv) as (-> & _ & _).
    destruct (IH _ _ _ _ Hrest) as [E1 E2].
    rewrite E1, E2, !seen_adds_snoc, !article_gets_snoc, !app_nil_r, <- !app_assoc.
    split; reflexivity.
Qed.


(** X10.  The records of a completed run come in the order in which
    their pages were visited: their URLs form a subsequence of the URLs
    added to the seen-set. *)
Theorem records_follow_visit_order (fuel : nat) (cutoff : option datetime)
    (max_pages : option Z) (verbose : bool) (arts : list Article) (t : trace) :
  scrape_articles web fuel cutoff max_pages verbose [] = Done arts t ->
  sublist (map url arts) (seen_adds t).
Proof.
  intros Hrun.
  destruct (scrape_articles_inv _ _ _ _ _ _ _ Hrun) as (seen & _ & _ & _ & Hsub & _).
  exact Hsub.
Qed.

End Order.


Lemma records_follow_visit_order_witness :
  match @scrape_articles basic_latin sample_web 5 None None false [] with
  | Done arts t => sublist (map url arts) (seen_adds t) /\ map url arts = [url_a; url_c]
  | _ => False
  end.
Proof.
  destruct (@scrape_articles basic_latin sample_web 5 None None false [])
    as [arts t| |] eqn:Hrun; try (vm_compute in Hrun; discriminate).
  split.
  - exact (@records_follow_visit_order basic_latin sample_web 5%nat None None false arts t Hrun).
  - vm_compute in Hrun. injection Hrun as <- _. reflexivity.
Defined.

(** ** The entry point and the command line *)

Section EntryMore.
Context `{Platform}.
Variable web : Web.










(** X12.  A bound that cannot be turned into a cutoff is reported before
    anything else happens: a since-date that [strptime] rejects, and a day
    count that reaches back to before the first day of the calendar, raise
    with the trace untouched, no session and no request. *)
Theorem bad_bound_fails_before_network (disk : Disk) (fuel : nat) (now : datetime)
    (pages : option Z) (output : option str) (verbose : bool) (t : trace) :
  (forall (days : option Z) (s : str) (e : exn),
      strptime FMT_YMD s = inl e ->
      fetch_articles web disk fuel now days (Some (inl s)) pages output verbose t
      = Raised e t)
  /\ (forall n : Z,
        (toordinal now <= n)%Z ->
        fetch_articles web disk fuel now (Some n) None pages output verbose t
        = Raised OverflowError t).
Proof.
  split.
  - intros days s e Hs. rewrite fetch_articles_since_string, Hs. reflexivity.
  - intros n Hn.
    assert (minus_days now n = inl OverflowError) as Hm.
    { unfold minus_days. destruct (999999999 <? Z.abs n)%Z; [reflexivity|].
      assert ((0 <? toordinal now - n)%Z = false) as -> by (apply Z.ltb_ge; lia).
      reflexivity. }
    rewrite fetch_articles_days, Hm. reflexivity.
Qed.

End EntryMore.


Lemma bad_bound_fails_before_network_witness :
  (@strptime basic_latin FMT_YMD (u"2024-13-01")
   = inl (ValueError "time data does not match format")
   /\ (toordinal noon_20_march_2024 <= 800000)%Z)
  /\ @fetch_articles basic_latin sample_web sound_disk 5 noon_20_march_2024 None
       (Some (inl (u"2024-13-01"))) None None false []
     = Raised (ValueError "time data does not match format") []
  /\ @fetch_articles basic_latin sample_web sound_disk 5 noon_20_march_2024 (Some 800000%Z)
       None None None false []
     = Raised OverflowError [].
Proof.
  pose proof (@bad_bound_fails_before_network basic_latin sample_web sound_disk 5%nat
                noon_20_march_2024 None None false []) as [Hs Hd].
  split; [split; [reflexivity|vm_compute; discriminate]|]. split.
  - apply Hs. reflexivity.
  - apply Hd. vm_compute. discriminate.
Defined.

Lemma extract_tags_from_links_witness :
  link_tags soup_tagged <> []
  /\ @extract_tags basic_latin soup_tagged sample_strings (Some sample_title)
     = [u"Strikes"; u"Ports"].
Proof.
  assert (link_tags soup_tagged <> []) as Hne by (vm_compute; discriminate).
  split; [exact Hne|].
  rewrite (proj1 (@extract_tags_from_links basic_latin soup_tagged Hne)). reflexivity.
Defined.

Lemma tag_fallback_nearest_witness :
  (link_tags soup_a = [] /\ sample_title <> []
   /\ first_at headed_strings sample_title 5)
  /\ @extract_tags basic_latin soup_a headed_strings (Some sample_title) = [u"LABOUR NEWS"].
Proof.
  assert (first_at headed_strings sample_title 5) as Hfirst.
  { split; [reflexivity|]. intros j Hj.
    do 5 (destruct j as [|j]; [discriminate|]). lia. }
  split; [split; [reflexivity|split; [discriminate|exact Hfirst]]|].
  destruct (@tag_fallback_nearest basic_latin soup_a headed_strings sample_title 5%nat
              eq_refl ltac:(discriminate) Hfirst)
    as [[E _]|(before & s & after & _ & _ & _ & _ & E)].
  - vm_compute in E. discriminate.
  - reflexivity.
Defined.

(** ** The cutoff boundary *)

Section Boundary.
Context `{Platform}.
Variable web : Web.

Lemma lex_ltb_trans (a : list Z) :
  forall b c : list Z,
    length a = length b -> length b = length c ->
    lex_ltb a b = true -> lex_ltb b c = true -> lex_ltb a c = true.
Proof.
  induction a as [|x a IH]; intros [|y b] [|z c]; simpl; try discriminate.
  intros [= Hab] [= Hbc].
  rewrite !orb_true_iff, !andb_true_iff, !Z.ltb_lt, !Z.eqb_eq.
  intros [Hxy|[-> H1]] [Hyz|[-> H2]].
  - left. lia.
  - left. exact Hxy.
  - left. exact Hyz.
  - right. split; [reflexivity|]. exact (IH b c Hab Hbc H1 H2).
Qed.

Lemma lex_ltb_below (a : list Z) :
  forall b c : list Z,
    length a = length b -> length b = length c ->
    lex_ltb a b = false -> lex_ltb a c = true -> lex_ltb b c = true.
Proof.
  induction a as [|x a IH]; intros [|y b] [|z c]; simpl; try discriminate.
  intros [= Hab] [= Hbc].
  rewrite orb_false_iff, andb_false_iff, !orb_true_iff, !andb_true_iff,
    !Z.ltb_lt, Z.ltb_ge, !Z.eqb_eq, Z.eqb_neq.
  intros [Hyx [Hne|H1]] [Hxz|[-> H2]].
  - left. lia.
  - left. lia.
  - left. lia.
  - destruct (Z.eq_dec y z) as [->|Hne]; [|left; lia].
    right. split; [reflexivity|]. exact (IH b c Hab Hbc H1 H2).
Qed.

Lemma dt_min_below (o dt c : datetime) :
  dt_ltb dt c = true \/ dt_ltb o c = true -> dt_ltb (dt_min o dt) c = true.
Proof.
  unfold dt_min, dt_ltb. destruct (lex_ltb (fields dt) (fields o)) eqn:E.
  - intros [Hd|Ho]; [exact Hd|].
    exact (lex_ltb_trans (fields dt) (fields o) (fields c) eq_refl eq_refl E Ho).
  - intros [Hd|Ho]; [|exact Ho].
    exact (lex_ltb_below (fields dt) (fields o) (fields c) eq_refl eq_refl E Hd).
Qed.

Lemma visit_keeps_crossed (c : datetime) (verbose : bool) (st : PageState) (u : str)
    (t : trace) (st' : PageState) (t' : trace) :
  visit web (Some c) verbose st u t = Done st' t' ->
  crossed (Some c) (st_oldest st) = true ->
  crossed (Some c) (st_oldest st') = true.
Proof.
  rewrite visit_eq.
  destruct (parse_article web u (t ++ [SeenAdd u])) as [[item|] t1| |]; try discriminate.
  - destruct (fromisoformat (published_at item)) as [e|dt]; [discriminate|].
    intros Hv Hc.
    assert (crossed (Some c) (Some (oldest_with (st_oldest st) dt)) = true) as Hnew.
    { destruct (st_oldest st) as [o|]; [|discriminate]. simpl in *.
      apply dt_min_below. right. exact Hc. }
    destruct (in_range (Some c) dt).
    + destruct verbose, (title item); try discriminate;
        injection Hv as <- _; exact Hnew.
    + injection Hv as <- _. exact Hnew.
  - intros [= <- _] Hc. exact Hc.
Qed.

Lemma visit_all_keeps_crossed (c : datetime) (verbose : bool) (urls : list str) :
  forall (st : PageState) (t : trace) (st' : PageState) (t' : trace),
    visit_all web (Some c) verbose st urls t = Done st' t' ->
    crossed (Some c) (st_oldest st) = true ->
    crossed (Some c) (st_oldest st') = true.
Proof.
  induction urls as [|u urls IH]; intros st t st' t'; simpl.
  - intros [= <- _] Hc. exact Hc.
  - intros Hb Hc. apply bind_done in Hb as (st1 & t1 & Hv & Hrest).
    eapply IH; [exact Hrest|]. eapply visit_keeps_crossed; eassumption.
Qed.

Lemma visit_all_app (cutoff : option datetime) (verbose : bool) (l1 l2 : list str) :
  forall (st : PageState) (t : trace),
    visit_all web cutoff verbose st (l1 ++ l2) t
    = (do st1 <- visit_all web cutoff verbose st l1; visit_all web cutoff verbose st1 l2) t.
Proof.
  induction l1 as [|u l1 IH]; intros st t; simpl; [reflexivity|].
  unfold bind. destruct (visit web cutoff verbose st u t) as [st1 t1| |]; try reflexivity.
  rewrite IH. reflexivity.
Qed.

(** X13.  One article older than the cutoff, anywhere on a listing
    page, ends the pagination after that page: the rest of the page is
    still visited, the oldest-on-page time stays before the cutoff to the
    end of the page, and the loop then returns without fetching another
    listing page. *)
Theorem old_article_ends_pagination (c : datetime) (verbose : bool) :
  (forall (urls1 : list str) (u : str) (urls2 : list str) (st : PageState) (t : trace)
          (st1 : PageState) (t1 : trace) (item : Article) (t2 : trace) (dt : datetime)
          (st' : PageState) (t' : trace),
      visit_all web (Some c) verbose st urls1 t = Done st1 t1 ->
      parse_article web u (t1 ++ [SeenAdd u]) = Done (Some item) t2 ->
      fromisoformat (published_at item) = inr dt ->
      dt_ltb dt c = true ->
      visit_all web (Some c) verbose st (urls1 ++ u :: urls2) t = Done st' t' ->
      crossed (Some c) (st_oldest st') = true
      /\ seen_adds t' = seen_adds t ++ urls1 ++ u :: urls2)
  /\ (forall (fuel : nat) (max_pages : option Z) (seen : gset str) (arts : list Article)
             (page : Z) (t : trace) (soup : Soup) (st' : PageState) (t' : trace),
        page_limit_reached max_pages page = false ->
        web t (list_url page) = Some soup ->
        new_links (page_links soup) seen <> [] ->
        visit_all web (Some c) verbose
          {| st_seen := seen; st_articles := arts; st_oldest := None |}
          (sorted (new_links (page_links soup) seen))
          (t ++ [Get Listing (list_url page)]) = Done st' t' ->
        crossed (Some c) (st_oldest st') = true ->
        scrape_loop web (S fuel) (Some c) max_pages verbose seen arts page t
        = Done (st_articles st') t').
Proof.
  split.
  - intros urls1 u urls2 st t st1 t1 item t2 dt st' t' H1 Hp Hdt Hlt Hall.
    pose proof (visit_all_visits web _ _ _ _ _ _ _ Hall) as [Hseen _].
    rewrite visit_all_app in Hall. unfold bind in Hall. rewrite H1 in Hall.
    simpl in Hall. apply bind_done in Hall as (st2 & t2' & Hv & Hrest).
    rewrite visit_eq, Hp, Hdt in Hv. unfold in_range, dt_geb in Hv. rewrite Hlt in Hv.
    simpl in Hv. injection Hv as <- <-. split; [|exact Hseen].
    eapply visit_all_keeps_crossed; [exact Hrest|]. simpl.
    destruct (st_oldest st1) as [o|]; simpl; [apply dt_min_below; left|]; exact Hlt.
  - intros fuel max_pages seen arts page t soup st' t' Hlim Hweb Hnew Hv Hc.
    cbn [scrape_loop]. rewrite Hlim. unfold bind at 1, fetch. rewrite Hweb.
    destruct (new_links (page_links soup) seen) as [|x l] eqn:E; [congruence|].
    unfold bind. rewrite Hv, Hc. reflexivity.
Qed.

End Boundary.

Lemma old_article_ends_pagination_witness :
  match @visit_all basic_latin sample_web (Some march_2024) false
          {| st_seen := ∅; st_articles := []; st_oldest := None |}
          ([] ++ url_c :: [url_a]) [] with
  | Done st' t' =>
    crossed (Some march_2024) (st_oldest st') = true
    /\ seen_adds t' = [url_c; url_a]
    /\ map url (st_articles st') = [url_a]
  | _ => False
  end.
Proof.
  destruct (@visit_all basic_latin sample_web (Some march_2024) false
              {| st_seen := ∅; st_articles := []; st_oldest := None |}
              ([] ++ url_c :: [url_a]) []) as [st' t'| |] eqn:Hall;
    try (vm_compute in Hall; discriminate).
  assert (crossed (Some march_2024) (st_oldest st') = true
          /\ seen_adds t' = seen_adds [] ++ [] ++ url_c :: [url_a]) as [Hc Hs].
  { apply (proj1 (@old_article_ends_pagination basic_latin sample_web march_2024 false)
             [] url_c [url_a] {| st_seen := ∅; st_articles := []; st_oldest := None |} []
             {| st_seen := ∅; st_articles := []; st_oldest := None |} []
             record_c [SeenAdd url_c; Get ArticlePage url_c]
             (mk_datetime 2020 1 1 8 0 0 0) st' t');
      [reflexivity|vm_compute; reflexivity|vm_compute; reflexivity|reflexivity|exact Hall]. }
  split; [exact Hc|]. split; [exact Hs|].
  vm_compute in Hall. injection Hall as <- _. reflexivity.
Defined.

(** ** The command line *)

Section CommandLine.
Context `{Platform}.
Variable web : Web.

Lemma falsy_supplied (days : option Z) (since : option str) (pages : option Z) :
  falsy_int days && falsy_str since && falsy_int pages = false ->
  (1 <= supplied days (inl <$> since) pages)%nat.
Proof.
  destruct days, since, pages; simpl; try discriminate; unfold supplied; simpl; lia.
Qed.

(** X14.  [main] turns away a call whose day count, since-date and page
    count are all missing, zero or empty, with a usage error and before
    anything else happens; so a page count of 0 alone, which
    [fetch_articles] accepts and answers with no records and no request, is
    a usage error on the command line.  A call that passes never meets the
    configuration error of [fetch_articles].  The records are printed
    exactly when no output path is given. *)
Theorem main_checks_its_arguments (disk : Disk) (fuel : nat) (now : datetime) (args : Args)
    (t : trace) :
  (falsy_int (args_days args) && falsy_str (args_since args) && falsy_int (args_pages args)
   = true ->
   main web disk fuel now args t = Done UsageError t)
  /\ raises (fun e => e <> CONFIG_ERROR) (main web disk fuel now args t)
  /\ (forall (r : option (list Article)) (t' : trace),
        main web disk fuel now args t = Done (Finished r) t' ->
        exists arts,
          fetch_articles web disk fuel now (args_days args) (inl <$> args_since args)
            (args_pages args) (args_output args) (args_verbose args) t = Done arts t'
          /\ r = (if falsy_str (args_output args) then Some arts else None))
  /\ (forall (output : option str) (verbose : bool),
        main web disk fuel now
          {| args_days := None; args_since := None; args_pages := Some 0%Z;
             args_output := output; args_verbose := verbose |} t
        = Done UsageError t
        /\ fetch_articles web disk (S fuel) now None None (Some 0%Z) None verbose t
           = Done [] (t ++ [NewSession])).
Proof.
  split; [|split; [|split]].
  - intros Hf. unfold main. rewrite Hf. reflexivity.
  - unfold main.
    destruct (falsy_int (args_days args) && falsy_str (args_since args)
              && falsy_int (args_pages args)) eqn:Hf; [exact I|].
    unfold bind.
    pose proof (fetch_articles_raises web disk fuel now (args_days args)
                  (inl <$> args_since args) (args_pages args) (args_output args)
                  (args_verbose args) t (falsy_supplied _ _ _ Hf)) as Hr.
    destruct (fetch_articles web disk fuel now _ _ _ _ _ t); simpl in *;
      [exact I|exact Hr|exact I].
  - intros r t'. unfold main.
    destruct (falsy_int (args_days args) && falsy_str (args_since args)
              && falsy_int (args_pages args)); [discriminate|].
    unfold bind.
    destruct (fetch_articles web disk fuel now _ _ _ _ _ t) as [arts t1| |]; try discriminate.
    intros [= <- <-]. exists arts. split; reflexivity.
  - intros output verbose. split; reflexivity.
Qed.

End CommandLine.

Lemma main_checks_its_arguments_witness :
  (falsy_int (Some 0%Z) && falsy_str (Some []) && falsy_int None = true)
  /\ @main basic_latin sample_web sound_disk 5 noon_20_march_2024
       {| args_days := Some 0%Z; args_since := Some []; args_pages := None;
          args_output := None; args_verbose := false |} []
     = Done UsageError [].
Proof.
  split; [reflexivity|].
  apply (proj1 (@main_checks_its_arguments basic_latin sample_web sound_disk 5%nat noon_20_march_2024
                  {| args_days := Some 0%Z; args_since := Some []; args_pages := None;
                     args_output := None; args_verbose := false |} [])).
  reflexivity.
Defined.

(** * Further properties of the labelling helper *)

Module CodexLabelerMore.
Import CodexLabeler CodexNotions.

Lemma traverse_total {A B} (f : A -> exn + B) (g : A -> B) (l : list A) :
  Forall (fun a => f a = inr (g a)) l -> traverse f l = inr (map g l).
Proof.
  induction 1 as [|a l Ha Hl IH]; simpl; [reflexivity|].
  rewrite Ha, IH. reflexivity.
Qed.

Lemma traverse_fails {A B} (f : A -> exn + B) (g : A -> B) (l1 : list A) (a : A)
    (l2 : list A) (e : exn) :
  Forall (fun a => f a = inr (g a)) l1 -> f a = inl e ->
  traverse f (l1 ++ a :: l2) = inl e.
Proof.
  induction 1 as [|b l1 Hb Hl IH]; intros Ha; simpl.
  - rewrite Ha. reflexivity.
  - rewrite Hb, (IH Ha). reflexivity.
Qed.

Lemma keep_unlabeled (labels : dict) (l : list dict) :
  map fst (filter (fun p : dict * bool => p.2 = true)
                  (map (fun a => (a, negb (labelled labels a))) l))
  = filter (fun a => labelled labels a = false) l.
Proof.
  induction l as [|a l IH]; [reflexivity|].
  simpl map. rewrite (filter_cons (fun a => labelled labels a = false)).
  rewrite (filter_cons (fun p : dict * bool => p.2 = true)).
  destruct (decide (labelled labels a = false)) as [E|E].
  - rewrite decide_True by (simpl; rewrite E; reflexivity).
    simpl. f_equal. exact IH.
  - rewrite decide_False by (simpl; destruct (labelled labels a); [discriminate|congruence]).
    exact IH.
Qed.

Lemma mark_plain (labels : dict) (a : dict) :
  is_Some (url_field a) ->
  match getitem a (u"url") with
  | inl e => inl e
  | inr x => match not_in x labels with
             | inl e => inl e
             | inr keep => inr (a, keep)
             end
  end = inr (a, negb (labelled labels a)).
Proof.
  intros [s Hs]. unfold url_field in Hs. unfold getitem, labelled, url_field.
  destruct (lookup_key a (u"url")) as [[| | |s'| |]|]; try discriminate.
  injection Hs as ->. reflexivity.
Qed.

Lemma get_unlabeled_plain (fs : Files) (articles : list dict) :
  ARTICLES_FILE fs = Some articles ->
  Forall (fun a => is_Some (url_field a)) articles ->
  get_unlabeled_articles fs
  = inr (filter (fun a => labelled (default [] (LABELS_FILE fs)) a = false) articles).
Proof.
  intros Hfile Hall. unfold get_unlabeled_articles. rewrite Hfile. simpl.
  rewrite (traverse_total _ (fun a => (a, negb (labelled (default [] (LABELS_FILE fs)) a)))).
  - rewrite keep_unlabeled. reflexivity.
  - eapply Forall_impl; [exact Hall|]. intros a Ha. apply mark_plain. exact Ha.
Qed.

(** X15.  The unlabeled articles are the articles whose URL is not a key
    of the labels, in the order of the articles file, all of them when
    there is no labels file; an article without a ["url"] key makes the
    call fail with [KeyError]. *)
Theorem unlabeled_are_filtered (fs : Files) (articles : list dict) :
  ARTICLES_FILE fs = Some articles ->
  (Forall (fun a => is_Some (url_field a)) articles ->
   get_unlabeled_articles fs
   = inr (filter (fun a => labelled (default [] (LABELS_FILE fs)) a = false) articles))
  /\ (Forall (fun a => is_Some (url_field a)) articles ->
      LABELS_FILE fs = None -> get_unlabeled_articles fs = inr articles)
  /\ (forall l1 a l2,
        articles = l1 ++ a :: l2 ->
        Forall (fun a => is_Some (url_field a)) l1 ->
        lookup_key a (u"url") = None ->
        get_unlabeled_articles fs = inl KeyError).
Proof.
  intros Hfile. split; [apply get_unlabeled_plain; exact Hfile|]. split.
  - intros Hall Hnone. rewrite (get_unlabeled_plain fs articles Hfile Hall), Hnone. simpl.
    clear Hfile. induction Hall as [|a l [s Hs] Hl IH]; [reflexivity|].
    rewrite filter_cons.
    rewrite decide_True by (unfold labelled; rewrite Hs; reflexivity).
    f_equal. injection IH as IH. f_equal. exact IH.
  - intros l1 a l2 -> Hall Hno. unfold get_unlabeled_articles. rewrite Hfile. simpl.
    rewrite (traverse_fails _ (fun a => (a, negb (labelled (default [] (LABELS_FILE fs)) a)))
               l1 a l2 KeyError).
    + reflexivity.
    + eapply Forall_impl; [exact Hall|]. intros b Hb. apply mark_plain. exact Hb.
    + unfold getitem. rewrite Hno. reflexivity.
Qed.

Lemma entry_plain (a : dict) : plain_article a -> entry a = inr (entry_of a).
Proof.
  intros [[s Hs] Hb]. unfold url_field in Hs. unfold entry, entry_of, getitem, get.
  destruct (lookup_key a (u"url")) as [[| | |s'| |]|]; try discriminate.
  destruct Hb as [->|[b ->]]; reflexivity.
Qed.

Lemma Forall_upto {A} (P : A -> Prop) (l : list A) (n : Z) :
  Forall P l -> Forall P (upto l n).
Proof. intros Hl. unfold upto. destruct (0 <=? n)%Z; apply Forall_take; exact Hl. Qed.

Lemma plain_has_url (l : list dict) :
  Forall plain_article l -> Forall (fun a => is_Some (url_field a)) l.
Proof. intros Hl. eapply Forall_impl; [exact Hl|]. intros a [Hu _]. exact Hu. Qed.

(** X16.  When the articles are as the scraper writes them, with a text
    body or none, and some of them are unlabeled, the call saves a batch
    that holds the first [batch_size] unlabeled articles in order, each
    with its body cut to its first 2000 characters (an article without a
    body key gets the empty string); a short body is kept whole.  The
    saving can fail: a disk that refuses to open the batch file leaves it
    as it was; a batch with a string that holds a surrogate raises
    [UnicodeEncodeError] in the writing and leaves the batch file cut off;
    otherwise the batch is in the file. *)
Theorem generate_batch_payload (fs : Files) (disk : Disk) (articles : list dict)
    (schema : json) (n : Z) :
  ARTICLES_FILE fs = Some articles ->
  Forall plain_article articles ->
  SCHEMA_FILE fs = Some schema ->
  filter (fun a => labelled (default [] (LABELS_FILE fs)) a = false) articles <> [] ->
  generate_batch fs disk n
  = save_json json_encodable (disk BATCH_FILE)
      (payload_of schema
         (upto (filter (fun a => labelled (default [] (LABELS_FILE fs)) a = false)
                       articles) n))
  /\ (forall e, disk BATCH_FILE = Some (OpenFails e) ->
                generate_batch fs disk n = (Some (open_exn e), Untouched))
  /\ ((forall e, disk BATCH_FILE <> Some (OpenFails e)) ->
      json_encodable
        (payload_of schema
           (upto (filter (fun a => labelled (default [] (LABELS_FILE fs)) a = false)
                         articles) n)) = false ->
      generate_batch fs disk n = (Some UnicodeEncodeError, Broken))
  /\ (disk BATCH_FILE = None ->
      json_encodable
        (payload_of schema
           (upto (filter (fun a => labelled (default [] (LABELS_FILE fs)) a = false)
                         articles) n)) = true ->
      generate_batch fs disk n
      = (None,
         Holds (payload_of schema
                  (upto (filter (fun a => labelled (default [] (LABELS_FILE fs)) a = false)
                                articles) n))))
  /\ ((0 <= n)%Z ->
      length (upto (filter (fun a => labelled (default [] (LABELS_FILE fs)) a = false)
                           articles) n)
      = Nat.min (Z.to_nat n)
          (length (filter (fun a => labelled (default [] (LABELS_FILE fs)) a = false)
                          articles)))
  /\ (forall (a : dict) (b : str),
        lookup_key a (u"body") = Some (JStr b) ->
        exists b', entry_of a = JObj [ (u"url", get a (u"url") JNull);
                                       (u"title", get a (u"title") (JStr []));
                                       (u"published_at", get a (u"published_at") (JStr []));
                                       (u"tags", get a (u"tags") (JArr []));
                                       (u"body", JStr b') ]
                   /\ b' = take 2000 b /\ (length b' <= 2000)%nat
                   /\ ((length b <= 2000)%nat -> b' = b)).
Proof.
  intros Hfile Hplain Hschema Hne.
  assert (generate_batch fs disk n
          = save_json json_encodable (disk BATCH_FILE)
              (payload_of schema
                 (upto (filter (fun a => labelled (default [] (LABELS_FILE fs)) a = false)
                               articles) n))) as Hsave.
  { unfold generate_batch.
    rewrite (get_unlabeled_plain fs articles Hfile (plain_has_url _ Hplain)).
    assert (Forall plain_article
              (filter (fun a => labelled (default [] (LABELS_FILE fs)) a = false) articles))
      as Hu.
    { apply Forall_forall. intros a Ha. apply list_elem_of_filter in Ha as [_ Ha].
      revert a Ha. apply Forall_forall. exact Hplain. }
    destruct (filter _ articles) as [|a0 l0]; [congruence|].
    rewrite Hschema. simpl load_json. cbv iota.
    rewrite (traverse_total entry entry_of).
    + reflexivity.
    + apply Forall_upto. eapply Forall_impl; [exact Hu|]. apply entry_plain. }
  split; [exact Hsave|]. split; [|split; [|split; [|split]]].
  - intros e He. rewrite Hsave, He. reflexivity.
  - intros Hopen Henc. rewrite Hsave. unfold save_json. rewrite Henc.
    destruct (disk BATCH_FILE) as [[e|errno]|]; try reflexivity.
    exfalso. exact (Hopen e eq_refl).
  - intros Hnone Henc. rewrite Hsave, Hnone. unfold save_json. rewrite Henc. reflexivity.
  - intros Hn. unfold upto.
    assert ((0 <=? n)%Z = true) as -> by (apply Z.leb_le; exact Hn).
    apply length_take.
  - intros a b Hb. exists (take 2000 b). unfold entry_of. rewrite Hb.
    split; [reflexivity|]. split; [reflexivity|]. split.
    + rewrite length_take. lia.
    + intros Hlen. apply take_ge. exact Hlen.
Qed.

(** X17.  The schema file is read only when there is something to label:
    when every article is labelled the call ends with no batch, whether the
    schema file exists or not; when an article is unlabeled and the schema
    file is missing the call fails with [FileNotFoundError]; and a missing
    articles file fails the same way before anything else.  In each of
    these the batch file is left as it was. *)
Theorem schema_is_read_when_needed (fs : Files) (disk : Disk) (n : Z) :
  (ARTICLES_FILE fs = None -> generate_batch fs disk n = (Some FileNotFoundError, Untouched))
  /\ (forall articles,
        ARTICLES_FILE fs = Some articles ->
        Forall (fun a => is_Some (url_field a)) articles ->
        Forall (fun a => labelled (default [] (LABELS_FILE fs)) a = true) articles ->
        generate_batch fs disk n = (None, Untouched))
  /\ (forall articles a,
        ARTICLES_FILE fs = Some articles ->
        Forall (fun a => is_Some (url_field a)) articles ->
        a ∈ articles -> labelled (default [] (LABELS_FILE fs)) a = false ->
        SCHEMA_FILE fs = None ->
        generate_batch fs disk n = (Some FileNotFoundError, Untouched)).
Proof.
  split; [|split].
  - intros Hnone. unfold generate_batch, get_unlabeled_articles. rewrite Hnone. reflexivity.
  - intros articles Hfile Hall Hlab. unfold generate_batch.
    rewrite (get_unlabeled_plain fs articles Hfile Hall).
    replace (filter _ articles) with (@nil dict); [reflexivity|].
    symmetry. clear Hfile Hall. induction Hlab as [|a l Ha Hl IH]; [reflexivity|].
    rewrite filter_cons, decide_False by congruence. exact IH.
  - intros articles a Hfile Hall Hin Hlab Hschema. unfold generate_batch.
    rewrite (get_unlabeled_plain fs articles Hfile Hall).
    destruct (filter _ articles) as [|a0 l0] eqn:E.
    + exfalso. assert (a ∈ filter (fun a => labelled (default [] (LABELS_FILE fs)) a = false)
                               articles) as Ha
        by (apply list_elem_of_filter; split; assumption).
      rewrite E in Ha. inversion Ha.
    + rewrite Hschema. reflexivity.
Qed.

Lemma key_eqb_str (k : json) (s : str) : key_eqb k (JStr s) = true -> k = JStr s.
Proof.
  destruct k; simpl; try discriminate.
  intros E. apply bool_decide_eq_true in E. congruence.
Qed.

Lemma py_get_set_key (d : pydict) (s : str) (v : json) (s' : str) :
  py_get (set_key d (JStr s) v) (JStr s')
  = if decide (s = s') then Some v else py_get d (JStr s').
Proof.
  induction d as [|[k0 v0] d IH]; simpl.
  - destruct (decide (s = s')) as [E|E].
    + rewrite bool_decide_eq_true_2 by exact E. reflexivity.
    + rewrite bool_decide_eq_false_2 by exact E. reflexivity.
  - destruct (key_eqb k0 (JStr s)) eqn:E0; simpl.
    + apply key_eqb_str in E0 as ->. simpl.
      destruct (decide (s = s')) as [E|E].
      * rewrite bool_decide_eq_true_2 by exact E. reflexivity.
      * rewrite bool_decide_eq_false_2 by exact E. reflexivity.
    + rewrite IH. destruct (key_eqb k0 (JStr s')) eqn:E1; [|reflexivity].
      apply key_eqb_str in E1 as ->.
      destruct (decide (s = s')) as [E|E]; [|reflexivity].
      subst s'. simpl in E0. rewrite bool_decide_eq_true_2 in E0 by reflexivity.
      discriminate.
Qed.

Lemma py_get_stored (fs : Files) (s : str) :
  py_get (stored fs) (JStr s) = lookup_key (default [] (LABELS_FILE fs)) s.
Proof.
  unfold stored. induction (default [] (LABELS_FILE fs)) as [|[k v] d IH]; simpl;
    [reflexivity|].
  destruct (bool_decide (k = s)); [reflexivity|exact IH].
Qed.

Lemma merge_label_plain (labels : pydict) (x : json) :
  plain_label x ->
  merge_label labels x
  = inr match label_url x with
        | Some s => set_key labels (JStr s) x
        | None => labels
        end.
Proof.
  destruct x as [| | | | |kv]; simpl; try contradiction.
  unfold merge_label, has_url, url_of, getitem, url_field.
  destruct (lookup_key kv (u"url")) as [[| | |s| |]|]; simpl; try contradiction;
    reflexivity.
Qed.

Lemma merge_labels_plain (l : list json) :
  forall labels : pydict,
    Forall plain_label l ->
    exists labels',
      merge_labels labels l = inr labels'
      /\ forall s, py_get labels' (JStr s)
                   = match last_for s l with
                     | Some x => Some x
                     | None => py_get labels (JStr s)
                     end.
Proof.
  induction l as [|x l IH]; intros labels Hall.
  - exists labels. split; [reflexivity|]. intros s. reflexivity.
  - inversion Hall as [|? ? Hx Hl]; subst. simpl.
    rewrite (merge_label_plain labels x Hx).
    destruct (IH (match label_url x with
                  | Some s => set_key labels (JStr s) x
                  | None => labels
                  end) Hl) as (labels' & Hm & Hget).
    exists labels'. split; [exact Hm|]. intros s. rewrite Hget.
    unfold last_for. rewrite filter_cons.
    destruct (decide (label_url x = Some s)) as [E|E].
    + rewrite last_cons. rewrite E.
      destruct (last (filter _ l)); [reflexivity|].
      rewrite py_get_set_key, decide_True by reflexivity. reflexivity.
    + destruct (last (filter _ l)); [reflexivity|].
      destruct (label_url x) as [s0|]; [|reflexivity].
      rewrite py_get_set_key, decide_False by congruence. reflexivity.
Qed.

Lemma py_get_elem (d : pydict) (k v : json) :
  py_get d k = Some v -> exists k', (k', v) ∈ d.
Proof.
  induction d as [|[k0 v0] d IH]; simpl; [discriminate|].
  destruct (key_eqb k0 k).
  - intros [= ->]. exists k0. left.
  - intros Hv. destruct (IH Hv) as [k' Hk']. exists k'. right. exact Hk'.
Qed.

(** X18.  Importing an array of label objects is last-write-wins per
    URL: in the labels that are saved, a URL maps to the last label of the
    array that carries it, and to its old label when the array has none; a
    label without a ["url"] key is passed over.  The saving can fail: a
    disk that refuses to open the labels file leaves it as it was; when a
    label that is kept holds a surrogate the writing raises
    [UnicodeEncodeError] and the labels file is left cut off, the old
    labels lost with it; otherwise the merged labels are in the file. *)
Theorem import_last_write_wins (fs : Files) (disk : Disk) (l : list json) :
  Forall plain_label l ->
  exists labels',
    import_results fs disk (Some (JArr l))
    = save_json labels_encodable (disk LABELS_PATH) labels'
    /\ (forall s, py_get labels' (JStr s)
                  = match last_for s l with
                    | Some x => Some x
                    | None => lookup_key (default [] (LABELS_FILE fs)) s
                    end)
    /\ (forall e, disk LABELS_PATH = Some (OpenFails e) ->
                  import_results fs disk (Some (JArr l)) = (Some (open_exn e), Untouched))
    /\ (disk LABELS_PATH = None -> labels_encodable labels' = true ->
        import_results fs disk (Some (JArr l)) = (None, Holds labels'))
    /\ (forall s x,
          (forall e, disk LABELS_PATH <> Some (OpenFails e)) ->
          last_for s l = Some x -> json_encodable x = false ->
          import_results fs disk (Some (JArr l)) = (Some UnicodeEncodeError, Broken)).
Proof.
  intros Hall. destruct (merge_labels_plain l (stored fs) Hall) as (labels' & Hm & Hget).
  assert (import_results fs disk (Some (JArr l))
          = save_json labels_encodable (disk LABELS_PATH) labels') as Hsave.
  { unfold import_results. fold (stored fs). rewrite Hm. reflexivity. }
  exists labels'. split; [exact Hsave|]. split; [|split; [|split]].
  - intros s. rewrite Hget, py_get_stored. reflexivity.
  - intros e He. rewrite Hsave, He. reflexivity.
  - intros Hnone Henc. rewrite Hsave, Hnone. unfold save_json. rewrite Henc. reflexivity.
  - intros s x Hopen Hlast Hx. rewrite Hsave.
    assert (labels_encodable labels' = false) as Henc.
    { specialize (Hget s). rewrite Hlast in Hget.
      destruct (py_get_elem _ _ _ Hget) as [k' Hk'].
      destruct (labels_encodable labels') eqn:E; [|reflexivity].
      unfold labels_encodable in E. rewrite forallb_forall in E.
      apply list_elem_of_In in Hk'. specialize (E _ Hk'). simpl in E.
      rewrite Hx, andb_false_r in E. discriminate. }
    unfold save_json. rewrite Henc.
    destruct (disk LABELS_PATH) as [[e|errno]|]; try reflexivity.
    exfalso. exact (Hopen e eq_refl).
Qed.

Lemma lookup_dict_set (d : dict) (k : str) (v : json) :
  lookup_key (dict_set d k v) k = Some v.
Proof.
  induction d as [|[k0 v0] d IH]; simpl.
  - rewrite bool_decide_eq_true_2 by reflexivity. reflexivity.
  - destruct (bool_decide (k0 = k)) eqn:E; simpl; rewrite E; [reflexivity|exact IH].
Qed.

Lemma merge_items_tagged (kv : dict) :
  forall labels : pydict,
    Forall (fun p => is_object (snd p)) kv ->
    merge_items labels kv = merge_labels labels (map tagged kv).
Proof.
  induction kv as [|[k x] kv IH]; intros labels Hall; [reflexivity|].
  inversion Hall as [|? ? Hx Hkv]; subst. simpl in Hx.
  destruct x as [| | | | |o]; try contradiction.
  simpl. unfold tagged at 1. simpl.
  unfold merge_label, has_url, url_of, getitem. rewrite lookup_dict_set.
  rewrite bool_decide_eq_true_2 by (eexists; reflexivity). simpl.
  apply IH. exact Hkv.
Qed.

(** X19.  The three shapes of the output file are read alike.  An
    object with a ["labels"] key is imported as the array under that key,
    whatever else it holds; a flat map without that key, whose values are
    objects, is imported as the array of its values, each given its key as
    ["url"] (in place of a ["url"] it might have had). *)
Theorem import_shapes_agree (fs : Files) (disk : Disk) (kv : dict) :
  (forall l, lookup_key kv (u"labels") = Some (JArr l) ->
             import_results fs disk (Some (JObj kv)) = import_results fs disk (Some (JArr l)))
  /\ (lookup_key kv (u"labels") = None ->
      Forall (fun p => is_object (snd p)) kv ->
      import_results fs disk (Some (JObj kv)) = import_results fs disk (Some (JArr (map tagged kv)))
      /\ Forall (fun p => label_url (tagged p) = Some (fst p)) kv).
Proof.
  split.
  - intros l Hl. unfold import_results. rewrite Hl. reflexivity.
  - intros Hno Hall. split.
    + unfold import_results. rewrite Hno, (merge_items_tagged kv _ Hall). reflexivity.
    + eapply Forall_impl; [exact Hall|]. intros [k x] Hx. simpl in Hx.
      destruct x; try contradiction. unfold tagged, label_url, url_field. simpl.
      rewrite lookup_dict_set. reflexivity.
Qed.

Lemma merge_labels_fails (l1 : list json) (x : json) (l2 : list json) :
  forall labels : pydict,
    Forall plain_label l1 ->
    (forall d, merge_label d x = inl TypeError) ->
    merge_labels labels (l1 ++ x :: l2) = inl TypeError.
Proof.
  induction l1 as [|y l1 IH]; intros labels Hall Hx; simpl.
  - rewrite Hx. reflexivity.
  - inversion Hall as [|? ? Hy Hl]; subst.
    rewrite (merge_label_plain labels y Hy). apply IH; assumption.
Qed.

(** X20.  An entry that is not a label makes the import fail, with
    nothing saved and the labels file as it was: in an array, a number, a
    boolean or null, or a label whose URL is a list or an object, after any
    number of good labels; in a flat map, a value that is not an object.
    A file that holds neither an array nor an object changes nothing: the
    labels are saved as they were, which leaves them in the file when the
    disk takes it and they can be encoded. *)
Theorem import_rejects_what_is_no_label (fs : Files) (disk : Disk) :
  (forall l1 x l2,
      Forall plain_label l1 ->
      match x with
      | JNull | JBool _ | JNum _ => True
      | JObj kv => match lookup_key kv (u"url") with
                   | Some (JArr _) | Some (JObj _) => True
                   | _ => False
                   end
      | _ => False
      end ->
      import_results fs disk (Some (JArr (l1 ++ x :: l2))) = (Some TypeError, Untouched))
  /\ (forall kv1 k x kv2,
        lookup_key (kv1 ++ (k, x) :: kv2) (u"labels") = None ->
        Forall (fun p => is_object (snd p)) kv1 ->
        ~ is_object x ->
        import_results fs disk (Some (JObj (kv1 ++ (k, x) :: kv2)))
        = (Some TypeError, Untouched))
  /\ (forall x,
        match x with JArr _ | JObj _ => False | _ => True end ->
        import_results fs disk (Some x)
        = save_json labels_encodable (disk LABELS_PATH) (stored fs)
        /\ (disk LABELS_PATH = None -> labels_encodable (stored fs) = true ->
            import_results fs disk (Some x) = (None, Holds (stored fs)))).
Proof.
  split; [|split].
  - intros l1 x l2 Hall Hx. unfold import_results.
    rewrite merge_labels_fails; [reflexivity|exact Hall|].
    intros d. destruct x as [| | | | |kv]; try contradiction; try reflexivity.
    unfold merge_label, has_url, url_of, getitem.
    destruct (lookup_key kv (u"url")) as [[| | | | |]|]; try contradiction; reflexivity.
  - intros kv1 k x kv2 Hno Hall Hx. unfold import_results. rewrite Hno.
    generalize (map (fun p : str * json => (JStr p.1, p.2)) (default [] (LABELS_FILE fs))).
    clear Hno. induction Hall as [|[k0 x0] kv1 H0 Hkv IH]; intros labels; simpl.
    + destruct x; try reflexivity. exfalso. apply Hx. exact I.
    + simpl in H0. destruct x0; try contradiction. simpl. apply IH.
  - intros x Hx.
    assert (import_results fs disk (Some x)
            = save_json labels_encodable (disk LABELS_PATH) (stored fs)) as Hsave
      by (destruct x; try contradiction; reflexivity).
    split; [exact Hsave|].
    intros Hnone Henc. rewrite Hsave, Hnone. unfold save_json. rewrite Henc. reflexivity.
Qed.

Lemma count_answers_objects (values : list json) :
  Forall is_object values ->
  exists y n,
    count_answers (u"yes") values = inr y
    /\ count_answers (u"no") values = inr n
    /\ (0 <= y)%Z /\ (0 <= n)%Z /\ (y + n <= Z.of_nat (length values))%Z.
Proof.
  induction 1 as [|x values Hx Hv (y & n & Hy & Hn & H0 & H1 & H2)].
  - exists 0%Z, 0%Z. repeat split; simpl; lia.
  - destruct x as [| | | | |kv]; try contradiction. simpl count_answers.
    rewrite Hy, Hn.
    eexists _, _. split; [reflexivity|]. split; [reflexivity|].
    destruct (get kv (u"strike_or_labour_unrest") JNull) as [| | |s| |]; simpl is_str;
      try (simpl length; lia).
    destruct (bool_decide (s = u"yes")) eqn:E1, (bool_decide (s = u"no")) eqn:E2;
      try (simpl length; lia).
    apply bool_decide_eq_true in E1. apply bool_decide_eq_true in E2.
    subst s. vm_compute in E2. discriminate.
Qed.

Lemma count_answers_fails (v : str) (l1 : list json) (x : json) (l2 : list json) :
  ~ is_object x -> count_answers v (l1 ++ x :: l2) = inl AttributeError.
Proof.
  intros Hx. induction l1 as [|y l1 IH]; simpl.
  - destruct x; try reflexivity. exfalso. apply Hx. exact I.
  - destruct (get_of y (u"strike_or_labour_unrest")) as [e|z] eqn:E.
    + destruct y; simpl in E; try discriminate; congruence.
    + rewrite IH. reflexivity.
Qed.

(** X21.  With labels that are objects, [show_progress] fails with
    [ZeroDivisionError] exactly when the articles file holds no article;
    otherwise the yes and no counts are disjoint parts of the labels
    ([yes + no <= labeled], a label with another answer or none counting in
    neither) and the remaining figure is [total - labeled].  A label that is
    not an object fails the call with [AttributeError], empty articles file
    or not. *)
Theorem show_progress_figures (fs : Files) (articles : list dict) :
  ARTICLES_FILE fs = Some articles ->
  (Forall (fun p => is_object (snd p)) (default [] (LABELS_FILE fs)) ->
   (articles = [] -> show_progress fs = inl ZeroDivisionError)
   /\ (articles <> [] ->
       exists p, show_progress fs = inr p
                 /\ total p = Z.of_nat (length articles)
                 /\ labeled p = Z.of_nat (length (default [] (LABELS_FILE fs)))
                 /\ (0 <= yes_count p)%Z /\ (0 <= no_count p)%Z
                 /\ (yes_count p + no_count p <= labeled p)%Z
                 /\ remaining p = (total p - labeled p)%Z))
  /\ (forall l1 k x l2,
        default [] (LABELS_FILE fs) = l1 ++ (k, x) :: l2 ->
        ~ is_object x ->
        show_progress fs = inl AttributeError).
Proof.
  intros Hfile. split.
  - intros Hall.
    destruct (count_answers_objects (map snd (default [] (LABELS_FILE fs))))
      as (y & n & Hy & Hn & H0 & H1 & H2).
    { apply Forall_map. exact Hall. }
    rewrite length_map in H2.
    unfold show_progress. rewrite Hfile, Hy, Hn. simpl load_json. cbv iota. split.
    + intros ->. reflexivity.
    + intros Hne. destruct articles as [|a l]; [congruence|].
      eexists. split; [reflexivity|]. simpl. repeat split; try assumption; lia.
  - intros l1 k x l2 Hl Hx. unfold show_progress. rewrite Hfile, Hl. simpl load_json.
    rewrite map_app. simpl map. rewrite count_answers_fails by exact Hx. reflexivity.
Qed.

Lemma unlabeled_are_filtered_witness :
  get_unlabeled_articles (half_labelled None) = inr [bare_record]
  /\ get_unlabeled_articles (sample_files [text_body_record; bare_record])
     = inr [text_body_record; bare_record]
  /\ get_unlabeled_articles (sample_files [text_body_record; []; bare_record]) = inl KeyError.
Proof.
  split; [|split].
  - apply (proj1 (unlabeled_are_filtered (half_labelled None)
                    [text_body_record; bare_record] eq_refl)).
    repeat constructor; eexists; reflexivity.
  - apply (proj1 (proj2 (unlabeled_are_filtered
                           (sample_files [text_body_record; bare_record])
                           [text_body_record; bare_record] eq_refl))).
    + repeat constructor; eexists; reflexivity.
    + reflexivity.
  - apply (proj2 (proj2 (unlabeled_are_filtered
                           (sample_files [text_body_record; []; bare_record])
                           [text_body_record; []; bare_record] eq_refl))
             [text_body_record] [] [bare_record]).
    + reflexivity.
    + repeat constructor; eexists; reflexivity.
    + reflexivity.
Defined.

Lemma generate_batch_payload_witness :
  generate_batch (half_labelled (Some (JObj []))) sound_disk 5
  = (None, Holds (payload_of (JObj []) [bare_record]))
  /\ generate_batch (half_labelled (Some (JObj []))) no_directory 5
     = (Some FileNotFoundError, Untouched)
  /\ generate_batch surrogate_files sound_disk 5 = (Some UnicodeEncodeError, Broken).
Proof.
  assert (Forall plain_article [text_body_record; bare_record]) as Hplain
    by (repeat constructor;
        first [eexists; reflexivity | left; reflexivity | right; eexists; reflexivity]).
  assert (filter (fun a => labelled (default [] (LABELS_FILE (half_labelled (Some (JObj [])))))
                             a = false)
                 [text_body_record; bare_record] <> []) as Hne
    by (vm_compute; discriminate).
  split; [|split].
  - rewrite (proj1 (proj2 (proj2 (proj2
               (generate_batch_payload (half_labelled (Some (JObj []))) sound_disk
                  [text_body_record; bare_record] (JObj []) 5 eq_refl Hplain eq_refl Hne))))
               eq_refl ltac:(vm_compute; reflexivity)).
    vm_compute. reflexivity.
  - rewrite (proj1 (proj2
               (generate_batch_payload (half_labelled (Some (JObj []))) no_directory
                  [text_body_record; bare_record] (JObj []) 5 eq_refl Hplain eq_refl Hne))
               (Errno 2) eq_refl).
    reflexivity.
  - apply (proj1 (proj2 (proj2
             (generate_batch_payload surrogate_files sound_disk
                [ [ (u"url", JStr url_a); (u"body", JStr [55296%N]) ] ] (JObj []) 5 eq_refl
                ltac:(repeat constructor;
                      first [eexists; reflexivity | right; eexists; reflexivity])
                eq_refl ltac:(vm_compute; discriminate))))).
    + intros e. discriminate.
    + vm_compute. reflexivity.
Defined.

Lemma schema_is_read_when_needed_witness :
  generate_batch no_articles_file sound_disk 5 = (Some FileNotFoundError, Untouched)
  /\ generate_batch all_labelled sound_disk 5 = (None, Untouched)
  /\ generate_batch (half_labelled None) sound_disk 5 = (Some FileNotFoundError, Untouched).
Proof.
  split; [|split].
  - apply (proj1 (schema_is_read_when_needed no_articles_file sound_disk 5)). reflexivity.
  - apply (proj1 (proj2 (schema_is_read_when_needed all_labelled sound_disk 5))
             [text_body_record]).
    + reflexivity.
    + repeat constructor; eexists; reflexivity.
    + repeat constructor.
  - apply (proj2 (proj2 (schema_is_read_when_needed (half_labelled None) sound_disk 5))
             [text_body_record; bare_record] bare_record).
    + reflexivity.
    + repeat constructor; eexists; reflexivity.
    + apply list_elem_of_further, list_elem_of_here.
    + reflexivity.
    + reflexivity.
Defined.

Lemma import_last_write_wins_witness :
  (exists labels',
      import_results (half_labelled None) sound_disk
        (Some (JArr [no_label url_b; stray_label; yes_label url_b]))
      = (None, Holds labels')
      /\ py_get labels' (JStr url_b) = Some (yes_label url_b)
      /\ py_get labels' (JStr url_a) = Some (yes_label url_a)
      /\ py_get labels' (JStr url_c) = None)
  /\ import_results (half_labelled None) sound_disk
       (Some (JArr [no_label url_b; surrogate_label url_b]))
     = (Some UnicodeEncodeError, Broken)
  /\ import_results (half_labelled None) no_directory
       (Some (JArr [no_label url_b; yes_label url_b]))
     = (Some FileNotFoundError, Untouched).
Proof.
  split; [|split].
  - destruct (import_last_write_wins (half_labelled None) sound_disk
                [no_label url_b; stray_label; yes_label url_b])
      as (labels' & Hm & Hget & _ & Hok & _).
    + repeat constructor.
    + exists labels'.
      assert (labels_encodable labels' = true) as Henc.
      { destruct (labels_encodable labels') eqn:E; [reflexivity|].
        unfold save_json, sound_disk in Hm. rewrite E in Hm.
        vm_compute in Hm. discriminate. }
      split; [exact (Hok eq_refl Henc)|].
      split; [|split]; rewrite Hget; vm_compute; reflexivity.
  - destruct (import_last_write_wins (half_labelled None) sound_disk
                [no_label url_b; surrogate_label url_b])
      as (labels' & _ & _ & _ & _ & Hbad).
    + repeat constructor.
    + apply (Hbad url_b (surrogate_label url_b)).
      * intros e. discriminate.
      * vm_compute. reflexivity.
      * vm_compute. reflexivity.
  - destruct (import_last_write_wins (half_labelled None) no_directory
                [no_label url_b; yes_label url_b])
      as (labels' & _ & _ & Hopen & _).
    + repeat constructor.
    + exact (Hopen (Errno 2) eq_refl).
Defined.

Lemma import_shapes_agree_witness :
  import_results (half_labelled None) sound_disk
    (Some (JObj [ (u"model", JStr (u"codex")); (u"labels", JArr [no_label url_b]) ]))
  = import_results (half_labelled None) sound_disk (Some (JArr [no_label url_b]))
  /\ import_results (half_labelled None) sound_disk (Some (JObj [ (url_b, no_label url_a) ]))
     = import_results (half_labelled None) sound_disk (Some (JArr [no_label url_b])).
Proof.
  split.
  - apply (proj1 (import_shapes_agree (half_labelled None) sound_disk
                    [ (u"model", JStr (u"codex")); (u"labels", JArr [no_label url_b]) ])).
    vm_compute. reflexivity.
  - assert (lookup_key [ (url_b, no_label url_a) ] (u"labels") = None) as Hno
      by (vm_compute; reflexivity).
    rewrite (proj1 (proj2 (import_shapes_agree (half_labelled None) sound_disk
                             [ (url_b, no_label url_a) ]) Hno
                      ltac:(repeat constructor))).
    vm_compute. reflexivity.
Defined.

Lemma import_rejects_what_is_no_label_witness :
  import_results (half_labelled None) sound_disk
    (Some (JArr [no_label url_b; JNum 7; yes_label url_a]))
  = (Some TypeError, Untouched)
  /\ import_results (half_labelled None) sound_disk
       (Some (JObj [ (url_b, no_label url_b); (url_c, JStr (u"no")) ]))
     = (Some TypeError, Untouched)
  /\ import_results (half_labelled None) sound_disk (Some (JStr (u"done")))
     = (None, Holds [ (JStr url_a, yes_label url_a) ]).
Proof.
  split; [|split].
  - apply (proj1 (import_rejects_what_is_no_label (half_labelled None) sound_disk)
             [no_label url_b] (JNum 7) [yes_label url_a]).
    + repeat constructor.
    + exact I.
  - apply (proj1 (proj2 (import_rejects_what_is_no_label (half_labelled None) sound_disk))
             [ (url_b, no_label url_b) ] url_c (JStr (u"no")) []).
    + vm_compute. reflexivity.
    + repeat constructor.
    + intros [].
  - rewrite (proj2 (proj2 (proj2 (import_rejects_what_is_no_label (half_labelled None)
                                    sound_disk))
                      (JStr (u"done")) I) eq_refl ltac:(vm_compute; reflexivity)).
    vm_compute. reflexivity.
Defined.

Lemma show_progress_figures_witness :
  show_progress (sample_files []) = inl ZeroDivisionError
  /\ show_progress more_labels_than_articles
     = inr {| labeled := 3; total := 1; yes_count := 1; no_count := 1; remaining := -2 |}
  /\ show_progress
       {| ARTICLES_FILE := Some []; LABELS_FILE := Some [ (url_a, JStr (u"yes")) ];
          SCHEMA_FILE := None |} = inl AttributeError.
Proof.
  split; [|split].
  - apply (proj1 (proj1 (show_progress_figures (sample_files []) [] eq_refl)
                    ltac:(constructor))).
    reflexivity.
  - destruct (proj2 (proj1 (show_progress_figures more_labels_than_articles
                              [text_body_record] eq_refl)
                       ltac:(repeat constructor)) ltac:(discriminate))
      as (p & Hp & _).
    rewrite Hp. vm_compute in Hp. injection Hp as <-. reflexivity.
  - apply (proj2 (show_progress_figures
                    {| ARTICLES_FILE := Some []; LABELS_FILE := Some [ (url_a, JStr (u"yes")) ];
                       SCHEMA_FILE := None |} [] eq_refl)
             [] url_a (JStr (u"yes")) []).
    + vm_compute. reflexivity.
    + intros [].
Defined.

End CodexLabelerMore.
